(** * Keyboard selection of the console host: src/host/selectionInput.cpp

    A shallow embedding of the keyboard-driven selection engine
    (dispatcher, line-selection extender, word-by-word scanner, mark-mode
    navigator, color selector and the boundary helpers), followed by the
    properties of the specification that concern them. *)

From Stdlib Require Import ZArith List Bool Lia.
Import ListNotations.
Open Scope Z_scope.

Set Implicit Arguments.

(** ** Machine integers *)

(** SHORT is a signed 16-bit integer; [to_short] is the wrap-around of a
    conversion to SHORT. *)
Definition to_short (z : Z) : Z := (z + 32768) mod 65536 - 32768.

(** ULONG is an unsigned 32-bit integer. *)
Definition to_ulong (z : Z) : Z := z mod 4294967296.

(** ** Coordinates and rectangles (COORD, SMALL_RECT) *)

Record COORD := mkCOORD { X : Z; Y : Z }.

Record SMALL_RECT := mkRECT { Left : Z; Top : Z; Right : Z; Bottom : Z }.

Definition COORD_eqb (a b : COORD) : bool := (X a =? X b) && (Y a =? Y b).

(** A coordinate lies inside the buffer edges (the source ASSERTs this of the
    selection point). *)
Definition in_edges (e : SMALL_RECT) (p : COORD) : Prop :=
  Left e <= X p <= Right e /\ Top e <= Y p <= Bottom e.

Definition in_edgesb (e : SMALL_RECT) (p : COORD) : bool :=
  (Left e <=? X p) && (X p <=? Right e) && (Top e <=? Y p) && (Y p <=? Bottom e).

(** ** Geometry utilities (Utils::) *)

Module Utils.

(** Modelled from the spec: Utils::s_CompareCoords is not under src/. The
    coordinate ordering is the reading order: rows are compared first, then
    columns; the result is negative, zero or positive. *)
Definition s_CompareCoords (a b : COORD) : Z :=
  if Y a <? Y b then -1
  else if Y b <? Y a then 1
  else if X a <? X b then -1
  else if X b <? X a then 1
  else 0.

(** Modelled from the spec: Utils::s_DoIncrementScreenCoordinate is not under
    src/. Moving past the last column of a row continues at the first column
    of the next row; at the bottom-right corner the step reports failure and
    leaves the coordinate where it is. *)
Definition s_DoIncrementScreenCoordinate (e : SMALL_RECT) (p : COORD) : bool * COORD :=
  if X p =? Right e then
    if Y p <? Bottom e then (true, mkCOORD (Left e) (Y p + 1))
    else (false, p)
  else (true, mkCOORD (X p + 1) (Y p)).

(** Modelled from the spec: Utils::s_DoDecrementScreenCoordinate is not under
    src/. The mirror image of the increment: from the first column the step
    continues at the last column of the previous row, and fails at the
    top-left corner. *)
Definition s_DoDecrementScreenCoordinate (e : SMALL_RECT) (p : COORD) : bool * COORD :=
  if X p =? Left e then
    if Top e <? Y p then (true, mkCOORD (Right e) (Y p - 1))
    else (false, p)
  else (true, mkCOORD (X p - 1) (Y p)).

(** [n] steps with [step], stopping at the first step that fails. *)
Fixpoint repeat_step (step : COORD -> bool * COORD) (n : nat) (p : COORD) : bool * COORD :=
  match n with
  | O => (true, p)
  | S n' =>
      let '(ok, p') := step p in
      if ok then repeat_step step n' p' else (false, p')
  end.

(** Modelled from the spec: Utils::s_AddToPosition is not under src/. The
    coordinate is translated by an offset in the wrapped coordinate space of
    the buffer: |iAdd| increments (decrements when iAdd is negative), ending
    where a step fails. *)
Definition s_AddToPosition (e : SMALL_RECT) (iAdd : Z) (p : COORD) : bool * COORD :=
  if 0 <=? iAdd
  then repeat_step (s_DoIncrementScreenCoordinate e) (Z.to_nat iAdd) p
  else repeat_step (s_DoDecrementScreenCoordinate e) (Z.to_nat (- iAdd)) p.

End Utils.

(** ** Keyboard input (INPUT_KEY_INFO) *)

(** Windows virtual-key codes (winuser.h). *)
Definition VK_RETURN : Z := 0x0D.
Definition VK_SHIFT : Z := 0x10.
Definition VK_CONTROL : Z := 0x11.
Definition VK_MENU : Z := 0x12.
Definition VK_ESCAPE : Z := 0x1B.
Definition VK_PRIOR : Z := 0x21.
Definition VK_NEXT : Z := 0x22.
Definition VK_END : Z := 0x23.
Definition VK_HOME : Z := 0x24.
Definition VK_LEFT : Z := 0x25.
Definition VK_UP : Z := 0x26.
Definition VK_RIGHT : Z := 0x27.
Definition VK_DOWN : Z := 0x28.
Definition VK_INSERT : Z := 0x2D.

(** Character literals of the source. *)
Definition chr_0 : Z := 48.
Definition chr_9 : Z := 57.
Definition chr_C : Z := 67.

(** Modelled from the spec: the INPUT_KEY_INFO class is not under src/. A key
    event is a virtual key code with the modifier state sampled with it. *)
Record INPUT_KEY_INFO := mkKey {
  GetVirtualKey : Z;
  IsShiftPressed : bool;
  IsCtrlPressed : bool;
  IsAltPressed : bool
}.

(** Modelled from the spec: exactly Shift. *)
Definition IsShiftOnly (k : INPUT_KEY_INFO) : bool :=
  IsShiftPressed k && negb (IsCtrlPressed k) && negb (IsAltPressed k).

(** Modelled from the spec: exactly Shift+Ctrl. *)
Definition IsShiftAndCtrlOnly (k : INPUT_KEY_INFO) : bool :=
  IsShiftPressed k && IsCtrlPressed k && negb (IsAltPressed k).

(** ** The console: screen buffer, text buffer, cursor, edit line *)

(** CHAR_ROW: the characters of a row and, per column, the glyph-half
    attribute byte. *)
Record CHAR_ROW := mkCharRow { Chars : list Z; KAttrs : list Z }.

(** Array read. The source indexes the arrays unchecked; outside the array
    the behaviour is undefined there and the model reads 0. *)
Definition array_at (a : list Z) (i : Z) : Z :=
  if i <? 0 then 0 else nth (Z.to_nat i) a 0.

(** Modelled from the spec: the Cursor class is not under src/; it offers
    get/set of column and row, increment/decrement by a delta and a
    has-moved flag. *)
Record Cursor := mkCursor { GetPosition : COORD; HasMoved : bool }.

(** Modelled from the spec: Cursor::SetXPosition, set the column. *)
Definition SetXPosition (x : Z) (c : Cursor) : Cursor :=
  mkCursor (mkCOORD x (Y (GetPosition c))) (HasMoved c).

(** Modelled from the spec: Cursor::SetYPosition, set the row. *)
Definition SetYPosition (y : Z) (c : Cursor) : Cursor :=
  mkCursor (mkCOORD (X (GetPosition c)) y) (HasMoved c).

(** Modelled from the spec: Cursor::IncrementXPosition, the column moved
    right by a delta. The navigator calls it only when the new column is
    inside the buffer width, where a SHORT column does not wrap around. *)
Definition IncrementXPosition (d : Z) (c : Cursor) : Cursor :=
  SetXPosition (X (GetPosition c) + d) c.

(** Modelled from the spec: Cursor::DecrementXPosition, the column moved
    left by a delta. The navigator calls it only from a positive column and
    with a delta of at most 3, where a SHORT column does not wrap around. *)
Definition DecrementXPosition (d : Z) (c : Cursor) : Cursor :=
  SetXPosition (X (GetPosition c) - d) c.

(** Modelled from the spec: Cursor::IncrementYPosition, the row moved down
    by a delta. The row is the SHORT field of a COORD: the sum wraps around. *)
Definition IncrementYPosition (d : Z) (c : Cursor) : Cursor :=
  SetYPosition (to_short (Y (GetPosition c) + d)) c.

(** Modelled from the spec: Cursor::DecrementYPosition, the row moved up by
    a delta. The row is the SHORT field of a COORD: the difference wraps
    around. *)
Definition DecrementYPosition (d : Z) (c : Cursor) : Cursor :=
  SetYPosition (to_short (Y (GetPosition c) - d)) c.

(** Modelled from the spec: Cursor::SetHasMoved, the has-moved flag. *)
Definition SetHasMoved (b : bool) (c : Cursor) : Cursor :=
  mkCursor (GetPosition c) b.

(** TEXT_BUFFER_INFO: the rows, addressed by their offset from the first
    row, and the cursor. *)
Record TEXT_BUFFER_INFO := mkTextInfo { Rows : list CHAR_ROW; GetCursor : Cursor }.

(** Modelled from the spec: TEXT_BUFFER_INFO::GetRowByOffset is not under
    src/. The row accessor returns, for a row index, the cells of that row
    and their glyph-half classification; outside the buffer the source has
    no row, and the model an empty one. *)
Definition GetRowByOffset (t : TEXT_BUFFER_INFO) (y : Z) : CHAR_ROW :=
  if y <? 0 then mkCharRow [] [] else nth (Z.to_nat y) (Rows t) (mkCharRow [] []).

(** SCREEN_INFORMATION, as far as the selection code reads it. *)
Record SCREEN_INFORMATION := mkScreen {
  GetScreenBufferSize : COORD;
  GetScreenWindowSizeY : Z;
  GetLegacyAttributes : Z;
  TextInfo : TEXT_BUFFER_INFO
}.

(** COOKED_READ_DATA: the line being edited. *)
Record COOKED_READ_DATA := mkCooked {
  _NumberOfVisibleChars : Z;
  _OriginalCursorPosition : COORD
}.

(** CONSOLE_INFORMATION; [lpCookedReadData] is [None] for the null pointer. *)
Record CONSOLE_INFORMATION := mkConsole {
  CurrentScreenBuffer : SCREEN_INFORMATION;
  lpCookedReadData : option COOKED_READ_DATA;
  GetEnableColorSelection : bool
}.

Definition set_cursor (c : Cursor) (g : CONSOLE_INFORMATION) : CONSOLE_INFORMATION :=
  let s := CurrentScreenBuffer g in
  mkConsole
    (mkScreen (GetScreenBufferSize s) (GetScreenWindowSizeY s) (GetLegacyAttributes s)
              (mkTextInfo (Rows (TextInfo s)) c))
    (lpCookedReadData g) (GetEnableColorSelection g).

Definition cursor_of (g : CONSOLE_INFORMATION) : Cursor :=
  GetCursor (TextInfo (CurrentScreenBuffer g)).

Definition KAttrAt (g : CONSOLE_INFORMATION) (p : COORD) : Z :=
  array_at (KAttrs (GetRowByOffset (TextInfo (CurrentScreenBuffer g)) (Y p))) (X p).

Definition CharAt (g : CONSOLE_INFORMATION) (p : COORD) : Z :=
  array_at (Chars (GetRowByOffset (TextInfo (CurrentScreenBuffer g)) (Y p))) (X p).

(** Modelled from the spec: Utils::s_GetCurrentBufferEdges is not under src/.
    The buffer edge rectangle spans the leftmost/rightmost column and the
    topmost/bottommost row of the whole buffer. *)
Definition s_GetCurrentBufferEdges (g : CONSOLE_INFORMATION) : SMALL_RECT :=
  let size := GetScreenBufferSize (CurrentScreenBuffer g) in
  mkRECT 0 0 (X size - 1) (Y size - 1).

(** Modelled from the spec: SCREEN_INFORMATION::ClipToScreenBuffer is not
    under src/. The rectangle is clipped to within the console buffer. *)
Definition ClipToScreenBuffer (s : SCREEN_INFORMATION) (r : SMALL_RECT) : SMALL_RECT :=
  let size := GetScreenBufferSize s in
  mkRECT (Z.max (Left r) 0) (Z.max (Top r) 0)
         (Z.min (Right r) (X size - 1)) (Z.min (Bottom r) (Y size - 1)).

(** ** The selection singleton *)

(** CONSOLE_SELECTION_NOT_EMPTY of the console API (wincon.h). *)
Definition CONSOLE_SELECTION_NOT_EMPTY : Z := 0x0002.

(** The fields of the Selection class that selectionInput.cpp reads or
    writes directly. *)
Record Selection := mkSelection {
  _dwSelectionFlags : Z;
  _coordSelectionAnchor : COORD;
  _srSelectionRect : SMALL_RECT;
  _fUseAlternateSelection : bool;
  _coordSavedCursorPosition : COORD
}.

Definition set_flags (f : Z) (s : Selection) : Selection :=
  mkSelection f (_coordSelectionAnchor s) (_srSelectionRect s)
              (_fUseAlternateSelection s) (_coordSavedCursorPosition s).
Definition set_anchor (a : COORD) (s : Selection) : Selection :=
  mkSelection (_dwSelectionFlags s) a (_srSelectionRect s)
              (_fUseAlternateSelection s) (_coordSavedCursorPosition s).
Definition set_rect (r : SMALL_RECT) (s : Selection) : Selection :=
  mkSelection (_dwSelectionFlags s) (_coordSelectionAnchor s) r
              (_fUseAlternateSelection s) (_coordSavedCursorPosition s).
Definition set_alternate (b : bool) (s : Selection) : Selection :=
  mkSelection (_dwSelectionFlags s) (_coordSelectionAnchor s) (_srSelectionRect s)
              b (_coordSavedCursorPosition s).

(** The mutable state shared by the host and the selection code. *)
Record Host := mkHost { gci : CONSOLE_INFORMATION; sel : Selection }.

(** Calls that leave selectionInput.cpp, in the order they are made. *)
Inductive Call : Type :=
| Call_ClearSelection
| Call_InitializeMouseSelection (coordBufferPos : COORD)
| Call_AlignAlternateSelection (fAlignToLineSelect : bool)
| Call_ShowSelection
| Call_HideSelection
| Call_ExtendSelection (coordBufferPos : COORD)
| Call_ColorSelection (psrRect : SMALL_RECT) (ulAttr : Z)
| Call_SearchForString (pwszSearchString : list Z) (cLength : Z) (ulAttr : Z)
| Call_MakeCursorVisible (coordPosition : COORD)
| Call_SetKeyboardTextEditingUsed
| Call_SetKeyboardTextSelectionUsed.

Record World := mkWorld { host :> Host; trace : list Call }.

(** Result of the dispatcher. *)
Inductive KeySelectionEventResult : Type :=
| EventHandled
| EventNotHandled
| CopyToClipboard.

(** ** Interfaces of the code that is not in selectionInput.cpp *)

(** interactivity/inc/IInputServices.hpp: the selection code only asks for
    the state of a key. *)
Class IInputServices := {
  GetKeyState : Z -> Z
}.

(** Constants, macros and key classification declared in headers that are not
    under src/: they are parameters of the development. *)
Class HostDecls := {
  ATTR_LEADING_BYTE : Z;
  ATTR_TRAILING_BYTE : Z;
  KEY_PRESSED : Z;
  SEARCH_STRING_LENGTH : Z;
  IS_WORD_DELIM : Z -> bool;
  IsSystemKey : Z -> bool
}.

(** The methods of the Selection class defined in other files: the mode
    queries, and the effect of each lifecycle method on the shared state. *)
Class SelectionMethods := {
  IsInSelectingState : Host -> bool;
  IsMouseButtonDown : Host -> bool;
  IsMouseInitiatedSelection : Host -> bool;
  IsLineSelection : Host -> bool;
  IsKeyboardMarkSelection : Host -> bool;
  ClearSelection : Host -> Host;
  InitializeMouseSelection : COORD -> Host -> Host;
  _AlignAlternateSelection : bool -> Host -> Host;
  ShowSelection : Host -> Host;
  HideSelection : Host -> Host;
  ExtendSelection : COORD -> Host -> Host
}.

(** Modelled from the spec: Selection::IsAreaSelected is not under src/. The
    area-selected (non-empty) mode flag is the bit of the selection flags
    that the mark-mode navigator resets. *)
Definition IsAreaSelected (h : Host) : bool :=
  negb (Z.land (_dwSelectionFlags (sel h)) CONSOLE_SELECTION_NOT_EMPTY =? 0).

(** A call to a lifecycle method: its effect on the state, and its record in
    the trace. *)
Definition call (c : Call) (f : Host -> Host) (w : World) : World :=
  mkWorld (f (host w)) (trace w ++ [c]).

(** A call whose effect lies outside the modelled state (cell colors,
    viewport, telemetry). *)
Definition emit (c : Call) (w : World) : World :=
  mkWorld (host w) (trace w ++ [c]).

Definition on_sel (f : Selection -> Selection) (w : World) : World :=
  mkWorld (mkHost (gci w) (f (sel w))) (trace w).

Definition on_cursor (f : Cursor -> Cursor) (w : World) : World :=
  mkWorld (mkHost (set_cursor (f (cursor_of (gci w))) (gci w)) (sel w)) (trace w).

(** ** Boundary helpers *)

(** Selection::s_GetInputLineBoundaries. [None] is the return value false;
    otherwise the pair is (input start, input end). *)
Definition s_GetInputLineBoundaries (g : CONSOLE_INFORMATION) : option (COORD * COORD) :=
  let srectEdges := s_GetCurrentBufferEdges g in
  match lpCookedReadData g with
  | None => None
  | Some pCookedReadData =>
      if _NumberOfVisibleChars pCookedReadData <=? 0 then None
      else
        let coordStart := _OriginalCursorPosition pCookedReadData in
        let coordEnd := _OriginalCursorPosition pCookedReadData in
        let coordEnd :=
          if (X coordEnd <? 0) && (Y coordEnd <? 0)
          then GetPosition (cursor_of g)
          else snd (Utils.s_AddToPosition srectEdges
                      (_NumberOfVisibleChars pCookedReadData) coordEnd) in
        let coordEnd := snd (Utils.s_AddToPosition srectEdges (-1) coordEnd) in
        Some (coordStart, coordEnd)
  end.

(** Selection::s_IsWithinBoundaries. *)
Definition s_IsWithinBoundaries (coordPosition coordStart coordEnd : COORD) : bool :=
  if Utils.s_CompareCoords coordStart coordPosition <=? 0
  then (if Utils.s_CompareCoords coordPosition coordEnd <=? 0 then true else false)
  else false.

(** Selection::s_IsValidKeyboardLineSelection. *)
Definition s_IsValidKeyboardLineSelection (k : INPUT_KEY_INFO) : bool :=
  let wVirtualKeyCode := GetVirtualKey k in
  if IsShiftOnly k then
    (wVirtualKeyCode =? VK_LEFT) || (wVirtualKeyCode =? VK_RIGHT)
    || (wVirtualKeyCode =? VK_UP) || (wVirtualKeyCode =? VK_DOWN)
    || (wVirtualKeyCode =? VK_NEXT) || (wVirtualKeyCode =? VK_PRIOR)
    || (wVirtualKeyCode =? VK_HOME) || (wVirtualKeyCode =? VK_END)
  else if IsShiftAndCtrlOnly k then
    (wVirtualKeyCode =? VK_LEFT) || (wVirtualKeyCode =? VK_RIGHT)
    || (wVirtualKeyCode =? VK_UP) || (wVirtualKeyCode =? VK_DOWN)
    || (wVirtualKeyCode =? VK_HOME) || (wVirtualKeyCode =? VK_END)
  else false.

Section SelectionInput.

Context {input : IInputServices} {decls : HostDecls} {methods : SelectionMethods}.

Definition is_leading (bAttr : Z) : bool := negb (Z.land bAttr ATTR_LEADING_BYTE =? 0).
Definition is_trailing (bAttr : Z) : bool := negb (Z.land bAttr ATTR_TRAILING_BYTE =? 0).

Definition key_pressed (nVirtKey : Z) : bool :=
  negb (Z.land (GetKeyState nVirtKey) KEY_PRESSED =? 0).

(** Selection::GetValidAreaBoundaries: (valid start, valid end). *)
Definition GetValidAreaBoundaries (h : Host) : COORD * COORD :=
  let coordEnd :=
    match s_GetInputLineBoundaries (gci h) with
    | Some (_, coordEnd) => coordEnd
    | None =>
        if IsInSelectingState h && IsKeyboardMarkSelection h
        then _coordSavedCursorPosition (sel h)
        else GetPosition (cursor_of (gci h))
    end in
  (mkCOORD 0 0, coordEnd).


(** ** Word-by-word selection *)

(** One step in the scan direction: an increment, or a decrement in
    reverse. *)
Definition scan_step (fReverse : bool) (srectEdges : SMALL_RECT) (p : COORD) : bool * COORD :=
  if negb fReverse
  then Utils.s_DoIncrementScreenCoordinate srectEdges p
  else Utils.s_DoDecrementScreenCoordinate srectEdges p.

(** The edit-line boundaries that can be highlighted (coordMaxLeft,
    coordMaxRight); the buffer corners when there is no edit line. *)
Definition scan_limits (g : CONSOLE_INFORMATION) (srectEdges : SMALL_RECT) : COORD * COORD :=
  match s_GetInputLineBoundaries g with
  | Some (coordMaxLeft, coordMaxRight) => (coordMaxLeft, coordMaxRight)
  | None => (mkCOORD (Left srectEdges) (Top srectEdges),
             mkCOORD (Right srectEdges) (Bottom srectEdges))
  end.

(** fUnhighlighting, from the selection point after the first step. *)
Definition unhighlighting (fReverse : bool) (coordSelPoint coordAnchor : COORD) : bool :=
  if negb fReverse
  then Utils.s_CompareCoords coordSelPoint coordAnchor <? 0
  else Utils.s_CompareCoords coordSelPoint coordAnchor >? 0.

(** The condition of the do-while. *)
Definition keep_scanning (fReverse fPrevIsDelim fCurrIsDelim : bool) : bool :=
  if negb fReverse
  then negb (fPrevIsDelim && negb fCurrIsDelim)
  else negb (negb fPrevIsDelim && fCurrIsDelim).

(** One pass through the body of the do-while. *)
Inductive ScanPass : Type :=
| ScanBreak (coordSelPoint : COORD)
| ScanMoved (coordSelPoint : COORD) (fCurrIsDelim : bool) (fAgain : bool).

Definition scan_body (g : CONSOLE_INFORMATION) (fReverse : bool) (srectEdges : SMALL_RECT)
    (coordMaxLeft coordMaxRight : COORD) (coordSelPoint : COORD) (fCurrIsDelim : bool)
    : ScanPass :=
  let fPrevIsDelim := fCurrIsDelim in
  if Utils.s_CompareCoords coordSelPoint coordMaxLeft =? 0 then ScanBreak coordSelPoint
  else if Utils.s_CompareCoords coordSelPoint coordMaxRight >=? 0 then ScanBreak coordSelPoint
  else
    let '(fMoveSucceeded, coordSelPoint) := scan_step fReverse srectEdges coordSelPoint in
    if negb fMoveSucceeded then ScanBreak coordSelPoint
    else
      let fCurrIsDelim := IS_WORD_DELIM (CharAt g coordSelPoint) in
      ScanMoved coordSelPoint fCurrIsDelim (keep_scanning fReverse fPrevIsDelim fCurrIsDelim).

(** The do-while, with the number of passes bounded by [fuel]; the result is
    the selection point and fMoveSucceeded at the exit of the loop. *)
Fixpoint scan_loop (fuel : nat) (g : CONSOLE_INFORMATION) (fReverse : bool)
    (srectEdges : SMALL_RECT) (coordMaxLeft coordMaxRight : COORD)
    (coordSelPoint : COORD) (fCurrIsDelim : bool) : option (COORD * bool) :=
  match fuel with
  | O => None
  | S fuel' =>
      match scan_body g fReverse srectEdges coordMaxLeft coordMaxRight
                      coordSelPoint fCurrIsDelim with
      | ScanBreak p => Some (p, false)
      | ScanMoved p fCurr fAgain =>
          if fAgain
          then scan_loop fuel' g fReverse srectEdges coordMaxLeft coordMaxRight p fCurr
          else Some (p, true)
      end
  end.

(** Passes that suffice inside the buffer: one per cell and one more. *)
Definition scan_fuel (srectEdges : SMALL_RECT) : nat :=
  S (Z.to_nat ((Right srectEdges - Left srectEdges + 1)
               * (Bottom srectEdges - Top srectEdges + 1))).

(** Selection::WordByWordSelection: the new selection point. *)
Definition WordByWordSelection (g : CONSOLE_INFORMATION) (fReverse : bool)
    (srectEdges : SMALL_RECT) (coordAnchor : COORD) (coordSelPoint : COORD)
    : option COORD :=
  (* first move one character in the requested direction *)
  let coordSelPoint := snd (scan_step fReverse srectEdges coordSelPoint) in
  (* get the character at the new position *)
  let fCurrIsDelim := IS_WORD_DELIM (CharAt g coordSelPoint) in
  let '(coordMaxLeft, coordMaxRight) := scan_limits g srectEdges in
  let fUnhighlighting := unhighlighting fReverse coordSelPoint coordAnchor in
  match scan_loop (scan_fuel srectEdges) g fReverse srectEdges coordMaxLeft coordMaxRight
                  coordSelPoint fCurrIsDelim with
  | None => None
  | Some (coordSelPoint, fMoveSucceeded) =>
      if fMoveSucceeded && negb fUnhighlighting
      then Some (snd (scan_step (negb fReverse) srectEdges coordSelPoint))
      else Some coordSelPoint
  end.

(** ** Line selection with the keyboard *)

(** The selection point: the corner of the rectangle opposite the anchor. *)
Definition selection_point (coordAnchor : COORD) (rectSelection : SMALL_RECT) : COORD :=
  mkCOORD (if X coordAnchor =? Left rectSelection
           then Right rectSelection else Left rectSelection)
          (if Y coordAnchor =? Top rectSelection
           then Bottom rectSelection else Top rectSelection).

(** The switch under IsShiftOnly. *)
Definition shift_move (g : CONSOLE_INFORMATION) (wVirtualKeyCode : Z)
    (srectEdges : SMALL_RECT) (sWindowHeight : Z)
    (inputLine : option (COORD * COORD)) (coordSelPoint : COORD) : COORD :=
  if wVirtualKeyCode =? VK_LEFT then
    snd (Utils.s_DoDecrementScreenCoordinate srectEdges coordSelPoint)
  else if wVirtualKeyCode =? VK_RIGHT then
    let coordSelPoint := snd (Utils.s_DoIncrementScreenCoordinate srectEdges coordSelPoint) in
    let bAttr := KAttrAt g coordSelPoint in
    (* if we're about to split a character in half, keep moving right *)
    if is_trailing bAttr
    then snd (Utils.s_DoIncrementScreenCoordinate srectEdges coordSelPoint)
    else coordSelPoint
  else if wVirtualKeyCode =? VK_UP then
    if Y coordSelPoint >? Top srectEdges
    then mkCOORD (X coordSelPoint) (Y coordSelPoint - 1) else coordSelPoint
  else if wVirtualKeyCode =? VK_DOWN then
    if Y coordSelPoint <? Bottom srectEdges
    then mkCOORD (X coordSelPoint) (Y coordSelPoint + 1) else coordSelPoint
  else if wVirtualKeyCode =? VK_NEXT then
    let y := to_short (Y coordSelPoint + sWindowHeight) in
    mkCOORD (X coordSelPoint) (if y >? Bottom srectEdges then Bottom srectEdges else y)
  else if wVirtualKeyCode =? VK_PRIOR then
    let y := to_short (Y coordSelPoint - sWindowHeight) in
    mkCOORD (X coordSelPoint) (if y <? Top srectEdges then Top srectEdges else y)
  else if wVirtualKeyCode =? VK_HOME then
    match inputLine with
    | Some (coordInputLineStart, _) =>
        if Utils.s_CompareCoords coordSelPoint coordInputLineStart >? 0 then
          if Y coordInputLineStart =? Y coordSelPoint
          then mkCOORD (X coordInputLineStart) (Y coordSelPoint)
          else mkCOORD 0 (Y coordSelPoint)
        else mkCOORD 0 (Y coordSelPoint)
    | None => mkCOORD 0 (Y coordSelPoint)
    end
  else if wVirtualKeyCode =? VK_END then
    let whole_line := mkCOORD (Right srectEdges) (Y coordSelPoint) in
    match inputLine with
    | Some (coordInputLineStart, coordInputLineEnd) =>
        if Utils.s_CompareCoords coordSelPoint coordInputLineStart >=? 0 then
          if (Y coordInputLineEnd =? Y coordSelPoint)
             && (X coordSelPoint <? X coordInputLineEnd)
          then mkCOORD (X coordInputLineEnd) (Y coordSelPoint)
          else whole_line
        else
          if Y coordInputLineStart =? Y coordSelPoint then
            let sEndOfOutputPos := to_short (X coordInputLineStart - 1) in
            if X coordSelPoint <? sEndOfOutputPos
            then mkCOORD sEndOfOutputPos (Y coordSelPoint)
            else if (X coordSelPoint =? sEndOfOutputPos)
                    && (Y coordSelPoint =? Y coordInputLineEnd)
            then mkCOORD (X coordInputLineEnd) (Y coordSelPoint)
            else whole_line
          else whole_line
    | None => whole_line
    end
  else coordSelPoint.

(** The switch under IsShiftAndCtrlOnly; [None] only when the word scan
    runs out of passes. *)
Definition shift_ctrl_move (h : Host) (wVirtualKeyCode : Z) (srectEdges : SMALL_RECT)
    (coordAnchor : COORD) (coordSelPoint : COORD) : option COORD :=
  if wVirtualKeyCode =? VK_LEFT then
    WordByWordSelection (gci h) true srectEdges coordAnchor coordSelPoint
  else if wVirtualKeyCode =? VK_RIGHT then
    WordByWordSelection (gci h) false srectEdges coordAnchor coordSelPoint
  else if wVirtualKeyCode =? VK_UP then
    Some (if Y coordSelPoint >? Top srectEdges
          then mkCOORD (X coordSelPoint) (Y coordSelPoint - 1) else coordSelPoint)
  else if wVirtualKeyCode =? VK_DOWN then
    Some (if Y coordSelPoint <? Bottom srectEdges
          then mkCOORD (X coordSelPoint) (Y coordSelPoint + 1) else coordSelPoint)
  else if wVirtualKeyCode =? VK_HOME then
    Some (fst (GetValidAreaBoundaries h))
  else if wVirtualKeyCode =? VK_END then
    Some (snd (GetValidAreaBoundaries h))
  else Some coordSelPoint.

(** The movement of the selection point for the key, before the glyph
    check. *)
Definition moved_point (h : Host) (k : INPUT_KEY_INFO) (srectEdges : SMALL_RECT)
    (coordAnchor : COORD) (coordSelPoint : COORD) : option COORD :=
  let sWindowHeight := GetScreenWindowSizeY (CurrentScreenBuffer (gci h)) in
  let inputLine := s_GetInputLineBoundaries (gci h) in
  if IsShiftOnly k then
    Some (shift_move (gci h) (GetVirtualKey k) srectEdges sWindowHeight inputLine coordSelPoint)
  else if IsShiftAndCtrlOnly k then
    shift_ctrl_move h (GetVirtualKey k) srectEdges coordAnchor coordSelPoint
  else Some coordSelPoint.

(** "ensure we're not planting the cursor in the middle of a double-wide
    character": the check at the end of the line-selection handler. *)
Definition off_trailing (g : CONSOLE_INFORMATION) (srectEdges : SMALL_RECT)
    (coordSelPoint : COORD) : COORD :=
  let bAttr := KAttrAt g coordSelPoint in
  if is_trailing bAttr then
    (* try to move off by highlighting the lead half too. *)
    let '(fSuccess, coordSelPoint) :=
      Utils.s_DoDecrementScreenCoordinate srectEdges coordSelPoint in
    (* if that fails, move off to the next character *)
    if negb fSuccess
    then snd (Utils.s_DoIncrementScreenCoordinate srectEdges coordSelPoint)
    else coordSelPoint
  else coordSelPoint.

(** The start of a selection by the line-selection handler when none is
    active. *)
Definition start_line_selection (w : World) : World :=
  let w := call (Call_InitializeMouseSelection (GetPosition (cursor_of (gci w))))
                (InitializeMouseSelection (GetPosition (cursor_of (gci w)))) w in
  (* force that this is a line selection *)
  let w := call (Call_AlignAlternateSelection true) (_AlignAlternateSelection true) w in
  call Call_ShowSelection ShowSelection w.

(** The handler returns early on shift+left/right when it has just started
    the selection. *)
Definition only_starts (k : INPUT_KEY_INFO) (w : World) : bool :=
  negb (IsInSelectingState w) && IsShiftOnly k
  && ((GetVirtualKey k =? VK_LEFT) || (GetVirtualKey k =? VK_RIGHT)).

(** Selection::HandleKeyboardLineSelectionEvent. *)
Definition HandleKeyboardLineSelectionEvent (k : INPUT_KEY_INFO) (w : World)
    : option (bool * World) :=
  if negb (s_IsValidKeyboardLineSelection k) then Some (false, w)
  else
    let w0 := emit Call_SetKeyboardTextSelectionUsed w in
    let w1 := if negb (IsInSelectingState w0) then start_line_selection w0 else w0 in
    if only_starts k w0 then Some (true, w1)
    else
      let coordAnchor := _coordSelectionAnchor (sel w1) in
      let rectSelection := _srSelectionRect (sel w1) in
      let coordSelPoint := selection_point coordAnchor rectSelection in
      let srectEdges := s_GetCurrentBufferEdges (gci w1) in
      match moved_point w1 k srectEdges coordAnchor coordSelPoint with
      | None => None
      | Some coordSelPoint =>
          let coordSelPoint := off_trailing (gci w1) srectEdges coordSelPoint in
          Some (true, call (Call_ExtendSelection coordSelPoint)
                           (ExtendSelection coordSelPoint) w1)
      end.


(** ** Alternate selection *)

(** Selection::CheckAndSetAlternateSelection. *)
Definition CheckAndSetAlternateSelection (w : World) : World :=
  on_sel (set_alternate (key_pressed VK_MENU)) w.

(** ** Color selection *)

(** The memmove out of the row buffer: [cLength] characters from column
    [iLeft]. *)
Definition copy_chars (row : CHAR_ROW) (iLeft : Z) (cLength : Z) : list Z :=
  map (fun i => array_at (Chars row) (iLeft + Z.of_nat i)) (seq 0 (Z.to_nat cLength)).

(** Selection::_HandleColorSelection. *)
Definition _HandleColorSelection (k : INPUT_KEY_INFO) (w : World) : bool * World :=
  let psrSelection := _srSelectionRect (sel w) in
  let wVirtualKeyCode := GetVirtualKey k in
  let fAltPressed := IsAltPressed k in
  let fShiftPressed := IsShiftPressed k in
  let fCtrlPressed := false in
  let fShiftPressed :=
    if fShiftPressed
       && (negb (IsAreaSelected w) || negb (Top psrSelection =? Bottom psrSelection))
    then false else fShiftPressed in
  let fCtrlPressed := if negb fAltPressed then IsCtrlPressed k else fCtrlPressed in
  let pScreenInfo := CurrentScreenBuffer (gci w) in
  (* Clip the selection to within the console buffer *)
  let w := on_sel (set_rect (ClipToScreenBuffer pScreenInfo psrSelection)) w in
  let psrSelection := _srSelectionRect (sel w) in
  if fAltPressed || fCtrlPressed then
    let ulAttr := to_ulong (wVirtualKeyCode - chr_0 + 6) in
    let ulAttr :=
      if fCtrlPressed
      then to_ulong (Z.shiftl ulAttr 4)
      else Z.lor ulAttr (Z.land (GetLegacyAttributes pScreenInfo) 0xf0) in
    if fShiftPressed then
      let cLength := to_ulong (Right psrSelection - Left psrSelection + 1) in
      let cLength :=
        if cLength >? SEARCH_STRING_LENGTH then SEARCH_STRING_LENGTH else cLength in
      let pRow := GetRowByOffset (TextInfo pScreenInfo) (Top psrSelection) in
      let pwszSearchString := copy_chars pRow (Left psrSelection) cLength in
      let w := call Call_ClearSelection ClearSelection w in
      (true, emit (Call_SearchForString pwszSearchString (cLength mod 65536) ulAttr) w)
    else
      let w := emit (Call_ColorSelection psrSelection ulAttr) w in
      (true, call Call_ClearSelection ClearSelection w)
  else (false, w).

(** ** Mark mode *)

(** iNextRightX. *)
Definition NextRightX (g : CONSOLE_INFORMATION) (cursorPos : COORD) : Z :=
  let pRow := GetRowByOffset (TextInfo (CurrentScreenBuffer g)) (Y cursorPos) in
  let bKAttrs := array_at (KAttrs pRow) (X cursorPos) in
  if is_leading bKAttrs then 2 else 1.

(** iNextLeftX. *)
Definition NextLeftX (g : CONSOLE_INFORMATION) (cursorPos : COORD) : Z :=
  let pRow := GetRowByOffset (TextInfo (CurrentScreenBuffer g)) (Y cursorPos) in
  if X cursorPos >? 0 then
    let bKAttrs := array_at (KAttrs pRow) (X cursorPos - 1) in
    if is_trailing bKAttrs then 2
    else if is_leading bKAttrs then
      if X cursorPos - 1 >? 0 then
        let bKAttrs := array_at (KAttrs pRow) (X cursorPos - 2) in
        if is_trailing bKAttrs then 3 else 2
      else 1
    else 1
  else 0.

Definition is_mark_mode_key (wVirtualKeyCode : Z) : bool :=
  (wVirtualKeyCode =? VK_RIGHT) || (wVirtualKeyCode =? VK_LEFT)
  || (wVirtualKeyCode =? VK_UP) || (wVirtualKeyCode =? VK_DOWN)
  || (wVirtualKeyCode =? VK_NEXT) || (wVirtualKeyCode =? VK_PRIOR)
  || (wVirtualKeyCode =? VK_END) || (wVirtualKeyCode =? VK_HOME).

(** The switch of the mark-mode navigator: the cursor movement. *)
Definition mark_mode_move (k : INPUT_KEY_INFO) (w : World) : World :=
  let wVirtualKeyCode := GetVirtualKey k in
  let pScreenInfo := CurrentScreenBuffer (gci w) in
  let cursorPos := GetPosition (cursor_of (gci w)) in
  let iNextRightX := NextRightX (gci w) cursorPos in
  let iNextLeftX := NextLeftX (gci w) cursorPos in
  if wVirtualKeyCode =? VK_RIGHT then
    if X cursorPos + iNextRightX <? X (GetScreenBufferSize pScreenInfo)
    then on_cursor (IncrementXPosition iNextRightX) w else w
  else if wVirtualKeyCode =? VK_LEFT then
    if X cursorPos >? 0 then on_cursor (DecrementXPosition iNextLeftX) w else w
  else if wVirtualKeyCode =? VK_UP then
    if Y cursorPos >? 0 then on_cursor (DecrementYPosition 1) w else w
  else if wVirtualKeyCode =? VK_DOWN then
    if Y cursorPos + 1 <? Y (GetScreenBufferSize pScreenInfo)
    then on_cursor (IncrementYPosition 1) w else w
  else if wVirtualKeyCode =? VK_NEXT then
    let w := on_cursor (IncrementYPosition (GetScreenWindowSizeY pScreenInfo - 1)) w in
    let coordBufferSize := GetScreenBufferSize pScreenInfo in
    if Y (GetPosition (cursor_of (gci w))) >=? Y coordBufferSize
    then on_cursor (SetYPosition (Y coordBufferSize - 1)) w else w
  else if wVirtualKeyCode =? VK_PRIOR then
    let w := on_cursor (DecrementYPosition (GetScreenWindowSizeY pScreenInfo - 1)) w in
    if Y (GetPosition (cursor_of (gci w))) <? 0
    then on_cursor (SetYPosition 0) w else w
  else if wVirtualKeyCode =? VK_END then
    let w := on_cursor (SetXPosition (X (GetScreenBufferSize pScreenInfo) - 1)) w in
    if IsCtrlPressed k then
      let coordValidEnd := snd (GetValidAreaBoundaries w) in
      on_cursor (SetYPosition (Y coordValidEnd)) w
    else w
  else if wVirtualKeyCode =? VK_HOME then
    let w := on_cursor (SetXPosition 0) w in
    if IsCtrlPressed k then on_cursor (SetYPosition 0) w else w
  else w.

(** The end of the mark-mode navigator when shift is not down: the anchor
    is reset. *)
Definition reset_anchor (w : World) : World :=
  let w :=
    if IsAreaSelected w then
      let w := call Call_HideSelection HideSelection w in
      let w := on_sel (fun s => set_flags
                 (Z.land (_dwSelectionFlags s) (Z.lnot CONSOLE_SELECTION_NOT_EMPTY)) s) w in
      on_sel (set_alternate false) w
    else w in
  let w := on_cursor (SetHasMoved true) w in
  let w := on_sel (set_anchor (GetPosition (cursor_of (gci w)))) w in
  let w := emit (Call_MakeCursorVisible (_coordSelectionAnchor (sel w))) w in
  let a := _coordSelectionAnchor (sel w) in
  on_sel (set_rect (mkRECT (X a) (Y a) (X a) (Y a))) w.

(** Selection::_HandleMarkModeSelectionNav. *)
Definition _HandleMarkModeSelectionNav (k : INPUT_KEY_INFO) (w : World) : bool * World :=
  if is_mark_mode_key (GetVirtualKey k) then
    let w := mark_mode_move k w in
    if key_pressed VK_SHIFT then
      let w := if negb (IsAreaSelected w) then CheckAndSetAlternateSelection w else w in
      let p := GetPosition (cursor_of (gci w)) in
      (true, call (Call_ExtendSelection p) (ExtendSelection p) w)
    else (true, reset_anchor w)
  else (false, w).

(** ** The dispatcher *)

(** Enter, Ctrl-C or Ctrl-Insert. *)
Definition is_copy_key (wVirtualKeyCode : Z) : bool :=
  (wVirtualKeyCode =? VK_RETURN)
  || (key_pressed VK_CONTROL
      && ((wVirtualKeyCode =? chr_C) || (wVirtualKeyCode =? VK_INSERT))).

(** The first block of the dispatcher, entered while no mouse button is
    down: it either returns a result, or falls through with the state it
    leaves. *)
Definition first_block (k : INPUT_KEY_INFO) (w : World)
    : (KeySelectionEventResult * World) + World :=
  let wVirtualKeyCode := GetVirtualKey k in
  if negb (IsMouseButtonDown w) then
    if wVirtualKeyCode =? VK_ESCAPE then
      inl (EventHandled, call Call_ClearSelection ClearSelection w)
    else if is_copy_key wVirtualKeyCode then
      inl (CopyToClipboard, emit Call_SetKeyboardTextEditingUsed w)
    else if GetEnableColorSelection (gci w)
            && (chr_0 <=? wVirtualKeyCode) && (chr_9 >=? wVirtualKeyCode) then
      let '(fHandled, w) := _HandleColorSelection k w in
      if fHandled then inl (EventHandled, w) else inr w
    else inr w
  else inr w.

(** The rest of the dispatcher, from the test of
    IsMouseInitiatedSelection. *)
Definition second_block (k : INPUT_KEY_INFO) (w : World)
    : option (KeySelectionEventResult * World) :=
  let wVirtualKeyCode := GetVirtualKey k in
  if negb (IsMouseInitiatedSelection w) then
    let '(fHandled, w) := _HandleMarkModeSelectionNav k w in
    if fHandled then Some (EventHandled, w) else Some (EventNotHandled, w)
  else if negb (IsMouseButtonDown w) then
    let continue_with w :=
      (* if in mouse selection mode and user hits a key, cancel selection *)
      if negb (IsSystemKey wVirtualKeyCode)
      then Some (EventNotHandled, call Call_ClearSelection ClearSelection w)
      else Some (EventNotHandled, w) in
    if IsLineSelection w then
      match HandleKeyboardLineSelectionEvent k w with
      | None => None
      | Some (fHandled, w) =>
          if fHandled then Some (EventHandled, w) else continue_with w
      end
    else continue_with w
  else Some (EventNotHandled, w).

(** Selection::HandleKeySelectionEvent. *)
Definition HandleKeySelectionEvent (k : INPUT_KEY_INFO) (w : World)
    : option (KeySelectionEventResult * World) :=
  match first_block k w with
  | inl r => Some r
  | inr w => second_block k w
  end.


(** ** Well-formed glyph metadata *)

(** The invariant of the row glyph metadata, read from the trailing half: a
    trailing-half column inside the buffer that has a predecessor in reading
    order is preceded by the leading half of its glyph, which is not itself
    a trailing half. *)
Definition glyphs_paired (g : CONSOLE_INFORMATION) (srectEdges : SMALL_RECT) : Prop :=
  forall c c' : COORD,
    in_edges srectEdges c ->
    is_trailing (KAttrAt g c) = true ->
    Utils.s_DoDecrementScreenCoordinate srectEdges c = (true, c') ->
    is_leading (KAttrAt g c') = true /\ is_trailing (KAttrAt g c') = false.

(** The step to the left as the specification words it: 2 columns one past
    a trailing half, 3 columns one past a leading half that is preceded by a
    trailing half, 1 column in all other positions, and no move at
    column 0. *)
Definition spec_left_step (g : CONSOLE_INFORMATION) (cursorPos : COORD) : Z :=
  let left1 := KAttrAt g (mkCOORD (X cursorPos - 1) (Y cursorPos)) in
  let left2 := KAttrAt g (mkCOORD (X cursorPos - 2) (Y cursorPos)) in
  if X cursorPos <=? 0 then 0
  else if is_trailing left1 then 2
  else if is_leading left1 && is_trailing left2 then 3
  else 1.

End SelectionInput.

(** ** Sample hosts: the fixtures of ut_host/CommonState.cpp *)

(** Declarations for the samples: distinct bits for the two glyph halves,
    the high bit of a key state, the blank as the word delimiter, and the
    modifier keys as system keys. *)
Definition sample_decls : HostDecls := {|
  ATTR_LEADING_BYTE := 0x01;
  ATTR_TRAILING_BYTE := 0x02;
  KEY_PRESSED := 0x8000;
  SEARCH_STRING_LENGTH := 80;
  IS_WORD_DELIM := fun wch => wch =? 32;
  IsSystemKey := fun vk => (vk =? VK_SHIFT) || (vk =? VK_CONTROL) || (vk =? VK_MENU)
|}.

(** Keyboards: no key down; only the listed keys down (a key that is down
    has the high bit of its SHORT state set). *)
Definition keys_down (down : list Z) : IInputServices := {|
  GetKeyState := fun nVirtKey =>
    if existsb (Z.eqb nVirtKey) down then -32768 else 0
|}.

(** Further selection flags of the console API (wincon.h). *)
Definition CONSOLE_SELECTION_IN_PROGRESS : Z := 0x0001.
Definition CONSOLE_MOUSE_SELECTION : Z := 0x0004.
Definition CONSOLE_MOUSE_DOWN : Z := 0x0008.

Definition has_flag (h : Host) (flag : Z) : bool :=
  negb (Z.land (_dwSelectionFlags (sel h)) flag =? 0).

(** Modelled from the spec: the lifecycle methods of the Selection class are
    not under src/. The mode flags are the bits of the selection flags; a
    selection begins with anchor and rectangle on the given point; extending
    stores the normalized rectangle spanned by the anchor and the point and
    marks the area selected; clearing resets the flags; forcing line
    selection turns the alternate (box) mode off; showing and hiding only
    concern the rendering. *)
Definition sample_methods : SelectionMethods := {|
  IsInSelectingState := fun h => has_flag h CONSOLE_SELECTION_IN_PROGRESS;
  IsMouseButtonDown := fun h => has_flag h CONSOLE_MOUSE_DOWN;
  IsMouseInitiatedSelection := fun h => has_flag h CONSOLE_MOUSE_SELECTION;
  IsLineSelection := fun h => negb (_fUseAlternateSelection (sel h));
  IsKeyboardMarkSelection := fun h => negb (has_flag h CONSOLE_MOUSE_SELECTION);
  ClearSelection := fun h => mkHost (gci h) (set_alternate false (set_flags 0 (sel h)));
  InitializeMouseSelection := fun p h =>
    mkHost (gci h)
      (set_rect (mkRECT (X p) (Y p) (X p) (Y p))
        (set_anchor p
          (set_flags (Z.lor CONSOLE_SELECTION_IN_PROGRESS
                        (Z.lor CONSOLE_MOUSE_SELECTION CONSOLE_SELECTION_NOT_EMPTY))
                     (sel h))));
  _AlignAlternateSelection := fun fAlignToLineSelect h =>
    mkHost (gci h) (set_alternate (negb fAlignToLineSelect) (sel h));
  ShowSelection := fun h => h;
  HideSelection := fun h => h;
  ExtendSelection := fun p h =>
    let a := _coordSelectionAnchor (sel h) in
    mkHost (gci h)
      (set_rect (mkRECT (Z.min (X a) (X p)) (Z.min (Y a) (Y p))
                        (Z.max (X a) (X p)) (Z.max (Y a) (Y p)))
        (set_flags (Z.lor (_dwSelectionFlags (sel h)) CONSOLE_SELECTION_NOT_EMPTY)
                   (sel h)))
|}.

(** s_csBufferWidth, s_csBufferHeight, s_csWindowHeight. *)
Definition s_csBufferWidth : Z := 80.
Definition s_csBufferHeight : Z := 300.
Definition s_csWindowHeight : Z := 80.

(** ciFill.Attributes: FOREGROUND_BLUE | FOREGROUND_GREEN | BACKGROUND_RED |
    BACKGROUND_INTENSITY. *)
Definition ciFill_Attributes : Z := 0xC3.

Definition blank_row : CHAR_ROW := mkCharRow (repeat 32 80) (repeat 0 80).

(** FillRow: "AB", two double-width glyphs around "C", then "D"; columns
    2-3 and 5-6 are the halves of a glyph. memcpy_s is given wcslen of the
    text, 15, as its byte count: seven characters and the low byte of the
    eighth are copied, so column 7 is "D" and column 8 keeps its blank. *)
Definition FillRow : CHAR_ROW :=
  mkCharRow ([65; 66; 0x304B; 0x304B; 67; 0x304D; 0x304D; 68] ++ repeat 32 72)
            ([0; 0; 1; 2; 0; 1; 2; 0] ++ repeat 0 72).

(** FillBisect: a row whose first column is a trailing half and whose last
    column is a leading half; glyph halves at columns 27-28, 39-40, 67-68.
    memcpy_s is given wcslen of the text, 80, as its byte count: the first
    40 characters are copied and columns 40-79 keep their blanks, while the
    glyph-half classification is set for the whole row. *)
Definition FillBisect : CHAR_ROW :=
  mkCharRow
    ([0x304D] ++ map Z.of_nat (seq 65 26) ++ [0x304D; 0x304D] ++ map Z.of_nat (seq 48 10)
     ++ [0x304D] ++ repeat 32 40)
    ([2] ++ repeat 0 26 ++ [1; 2] ++ repeat 0 10 ++ [1; 2] ++ repeat 0 26 ++ [1; 2]
     ++ repeat 0 10 ++ [1]).

Definition sample_console (rows : list CHAR_ROW) (cursorPos : COORD)
    (cooked : option COOKED_READ_DATA) (fColor : bool) : CONSOLE_INFORMATION :=
  mkConsole
    (mkScreen (mkCOORD s_csBufferWidth s_csBufferHeight) s_csWindowHeight ciFill_Attributes
              (mkTextInfo rows (mkCursor cursorPos false)))
    cooked fColor.

(** FillTextBuffer: four filled rows, the cursor below them. *)
Definition FillTextBuffer : list CHAR_ROW := repeat FillRow 4 ++ repeat blank_row 296.

(** FillTextBufferBisect: every row of the buffer is a bisecting row. *)
Definition FillTextBufferBisect : list CHAR_ROW := repeat FillBisect 300.

Definition sample_world (g : CONSOLE_INFORMATION) (flags : Z) (anchor : COORD)
    (rect : SMALL_RECT) (fAlternate : bool) : World :=
  mkWorld (mkHost g (mkSelection flags anchor rect fAlternate (mkCOORD 0 0))) [].

Definition mouse_line_selection : Z :=
  Z.lor CONSOLE_SELECTION_IN_PROGRESS
        (Z.lor CONSOLE_MOUSE_SELECTION CONSOLE_SELECTION_NOT_EMPTY).

(** The console after FillTextBuffer: no edit line, cursor at row 4. *)
Definition filled_console : CONSOLE_INFORMATION :=
  sample_console FillTextBuffer (mkCOORD 0 4) None false.

(** The console after FillTextBufferBisect: the cursor is left on row 300,
    the row after the last row of the buffer. *)
Definition bisect_console : CONSOLE_INFORMATION :=
  sample_console FillTextBufferBisect (mkCOORD 0 s_csBufferHeight) None false.

Definition sample_edges : SMALL_RECT := mkRECT 0 0 79 299.

Definition shift_key (wVirtualKeyCode : Z) : INPUT_KEY_INFO :=
  mkKey wVirtualKeyCode true false false.

Definition shift_ctrl_key (wVirtualKeyCode : Z) : INPUT_KEY_INFO :=
  mkKey wVirtualKeyCode true true false.

(** A mouse-initiated line selection over the bisecting rows, from the
    anchor at column 30 of row 1 back to column 28: the selection point is
    column 28 of row 1. *)
Definition bisect_world : World :=
  sample_world bisect_console mouse_line_selection (mkCOORD 30 1) (mkRECT 28 1 30 1) false.

(** The glyph check of a fixture row, column by column: a trailing half
    that is not in the first column follows a leading half that is not a
    trailing half; the last column is such a leading half whenever the first
    column is a trailing half. *)
Definition row_paired (row : CHAR_ROW) (x : Z) : bool :=
  let attr i := array_at (KAttrs row) i in
  let lead_only i := @is_leading sample_decls (attr i)
                     && negb (@is_trailing sample_decls (attr i)) in
  implb (@is_trailing sample_decls (attr x))
        (if x =? 0 then lead_only 79 else lead_only (x - 1)).

(** The scenario of the edit line: an 80-column buffer of blank rows, the
    edit line of 12 characters after a 4-character prompt on row 10 (columns
    4-15), the cursor behind it; a line selection anchored at column 12 of
    row 10 whose selection point is at column 8. *)
Definition edit_line_console : CONSOLE_INFORMATION :=
  sample_console (repeat blank_row 300) (mkCOORD 16 10)
                 (Some (mkCooked 12 (mkCOORD 4 10))) false.

Definition edit_line_world : World :=
  sample_world edit_line_console mouse_line_selection
               (mkCOORD 12 10) (mkRECT 8 10 12 10) false.

(** The world after a press that extended the selection to [p]. *)
Definition extended_to (p : COORD) (w : World) : World :=
  call (Call_ExtendSelection p) (@ExtendSelection sample_methods p)
       (emit Call_SetKeyboardTextSelectionUsed w).

(** An edit line whose recorded original cursor position is the invalid
    sentinel, with the live cursor at column 5 of row 50. *)
Definition sentinel_console : CONSOLE_INFORMATION :=
  sample_console (repeat blank_row 300) (mkCOORD 5 50)
                 (Some (mkCooked 12 (mkCOORD (-1) (-1)))) false.

(** Mark mode over the filled rows, the cursor on the trailing half of the
    first double-width glyph (column 3 of row 0); nothing is selected. *)
Definition mark_console : CONSOLE_INFORMATION :=
  sample_console FillTextBuffer (mkCOORD 3 0) None false.

Definition mark_world (fAlternate : bool) : World :=
  sample_world mark_console CONSOLE_SELECTION_IN_PROGRESS
               (mkCOORD 3 0) (mkRECT 3 0 3 0) fAlternate.

Definition plain_key (wVirtualKeyCode : Z) : INPUT_KEY_INFO :=
  mkKey wVirtualKeyCode false false false.

(** A mouse-initiated line selection that lies partly outside the buffer:
    its rectangle reaches column 100 of an 80-column buffer. Color selection
    is enabled. *)
Definition color_console : CONSOLE_INFORMATION :=
  sample_console FillTextBuffer (mkCOORD 0 4) None true.

Definition wide_world : World :=
  sample_world color_console mouse_line_selection
               (mkCOORD 0 0) (mkRECT 0 0 100 0) false.

(** A mouse-initiated line selection of the first three cells of row 0. *)
Definition mouse_world : World :=
  sample_world color_console mouse_line_selection
               (mkCOORD 0 0) (mkRECT 0 0 2 0) false.

(** The bisecting rows with the mark-mode cursor at column 1 of row 0, right
    of the trailing half in the first column. *)
Definition bisect_mark_world : World :=
  sample_world (sample_console FillTextBufferBisect (mkCOORD 1 0) None false)
               CONSOLE_SELECTION_IN_PROGRESS (mkCOORD 1 0) (mkRECT 1 0 1 0) false.

(** An area of the first row of the filled buffer, columns 0-8, selected
    with the mouse. *)
Definition row_selection_world : World :=
  sample_world color_console mouse_line_selection
               (mkCOORD 0 0) (mkRECT 0 0 8 0) false.

(** Rows whose glyph halves are not paired, although every leading half is
    followed by a trailing half: columns 78-79 of row 0 are the halves of a
    glyph, and the first column of row 1 is a trailing half that comes
    right after the trailing half at the end of row 0. *)
Definition unpaired_rows : list CHAR_ROW :=
  [mkCharRow (repeat 32 80) (repeat 0 78 ++ [1; 2]);
   mkCharRow (repeat 32 80) ([2] ++ repeat 0 79)]
  ++ repeat blank_row 298.

Definition unpaired_console : CONSOLE_INFORMATION :=
  sample_console unpaired_rows (mkCOORD 0 0) None false.

(** A mouse-initiated line selection of the first cell of the buffer. *)
Definition unpaired_world : World :=
  sample_world unpaired_console mouse_line_selection
               (mkCOORD 0 0) (mkRECT 0 0 0 0) false.

(** Every leading-half column of every row is immediately followed by a
    trailing-half column. *)
Definition leading_followed_by_trailing {decls : HostDecls}
    (rows : list CHAR_ROW) (width : nat) : bool :=
  forallb (fun row =>
    forallb (fun x =>
      implb (is_leading (array_at (KAttrs row) x))
            (is_trailing (array_at (KAttrs row) (x + 1))))
      (map Z.of_nat (seq 0 width)))
    rows.

(** A buffer of 32767 blank rows with the window 80 rows high and the
    cursor on row 32700. *)
Definition deep_console : CONSOLE_INFORMATION :=
  mkConsole
    (mkScreen (mkCOORD s_csBufferWidth 32767) s_csWindowHeight ciFill_Attributes
              (mkTextInfo (repeat blank_row (Z.to_nat 32767))
                          (mkCursor (mkCOORD 0 32700) false)))
    None false.

Definition deep_world : World :=
  sample_world deep_console CONSOLE_SELECTION_IN_PROGRESS
               (mkCOORD 0 32700) (mkRECT 0 32700 0 32700) false.

(** ** Notions used in the statements *)

(** The three cases in which a pass of the word scan breaks out of the loop
    at the selection point: at the left limit, at or past the right limit,
    or at a buffer edge where the step fails. *)
Definition scan_stops (fReverse : bool) (srectEdges : SMALL_RECT)
    (coordMaxLeft coordMaxRight : COORD) (coordSelPoint : COORD) : Prop :=
  Utils.s_CompareCoords coordSelPoint coordMaxLeft = 0
  \/ Utils.s_CompareCoords coordSelPoint coordMaxRight >= 0
  \/ fst (scan_step fReverse srectEdges coordSelPoint) = false.

(** Cells between a point and the corner of the buffer that the scan
    direction leads to. *)
Definition cells_ahead (fReverse : bool) (e : SMALL_RECT) (p : COORD) : Z :=
  let width := Right e - Left e + 1 in
  if fReverse
  then (Y p - Top e) * width + (X p - Left e)
  else (Bottom e - Y p) * width + (Right e - X p).

(** The movement is highlighting: forward, the point is not left of the
    anchor; in reverse, not right of it. *)
Definition highlighting (fReverse : bool) (coordSelPoint coordAnchor : COORD) : bool :=
  if fReverse
  then Utils.s_CompareCoords coordSelPoint coordAnchor <=? 0
  else Utils.s_CompareCoords coordSelPoint coordAnchor >=? 0.

(** A console whose coordinates are where the host keeps them: SHORT sizes
    that a page step cannot overflow, the cursor inside the buffer, and the
    recorded start of the edit line inside the buffer or the invalid
    sentinel. *)
Definition sane_console (g : CONSOLE_INFORMATION) : Prop :=
  let e := s_GetCurrentBufferEdges g in
  let sWindowHeight := GetScreenWindowSizeY (CurrentScreenBuffer g) in
  Right e <= 32767
  /\ 0 <= sWindowHeight /\ Bottom e + sWindowHeight <= 32767
  /\ in_edges e (GetPosition (cursor_of g))
  /\ match lpCookedReadData g with
     | Some pCookedReadData =>
         in_edges e (_OriginalCursorPosition pCookedReadData)
         \/ (X (_OriginalCursorPosition pCookedReadData) < 0
             /\ Y (_OriginalCursorPosition pCookedReadData) < 0)
     | None => True
     end.

(** The position of a cell in reading order, counted from the top-left
    corner of the buffer. *)
Definition cell_index (e : SMALL_RECT) (p : COORD) : Z :=
  (Y p - Top e) * (Right e - Left e + 1) + (X p - Left e).

(** The index of the bottom-right corner. *)
Definition last_index (e : SMALL_RECT) : Z :=
  (Right e - Left e + 1) * (Bottom e - Top e + 1) - 1.

(** Reading order on coordinates: an earlier row, or the same row and a
    column that is not greater. *)
Definition reading_le (a b : COORD) : Prop :=
  Y a < Y b \/ (Y a = Y b /\ X a <= X b).

(** The point that the line-selection handler hands to ExtendSelection for
    a Shift-only key: the movement of the switch followed by the glyph
    check. *)
Definition shift_extends_to {decls : HostDecls} (g : CONSOLE_INFORMATION)
    (wVirtualKeyCode : Z) (coordSelPoint : COORD) : COORD :=
  let srectEdges := s_GetCurrentBufferEdges g in
  off_trailing g srectEdges
    (shift_move g wVirtualKeyCode srectEdges
       (GetScreenWindowSizeY (CurrentScreenBuffer g))
       (s_GetInputLineBoundaries g) coordSelPoint).

(** ** Proof automation *)

Ltac break_if :=
  match goal with
  | |- context [if ?b then _ else _] => destruct b eqn:?
  | H : context [if ?b then _ else _] |- _ => destruct b eqn:?
  end.

Ltac zbool :=
  repeat match goal with
  | H : (_ =? _) = true |- _ => apply Z.eqb_eq in H
  | H : (_ =? _) = false |- _ => apply Z.eqb_neq in H
  | H : (_ <? _) = true |- _ => apply Z.ltb_lt in H
  | H : (_ <? _) = false |- _ => apply Z.ltb_ge in H
  | H : (_ <=? _) = true |- _ => apply Z.leb_le in H
  | H : (_ <=? _) = false |- _ => apply Z.leb_gt in H
  | H : (_ >? _) = true |- _ => rewrite Z.gtb_ltb in H
  | H : (_ >? _) = false |- _ => rewrite Z.gtb_ltb in H
  | H : (_ >=? _) = true |- _ => rewrite Z.geb_leb in H
  | H : (_ >=? _) = false |- _ => rewrite Z.geb_leb in H
  end.


Ltac cursor_simpl :=
  repeat match goal with
  | |- context [cursor_of (gci (host (on_cursor ?f ?w)))] =>
      change (cursor_of (gci (host (on_cursor f w))))
        with (f (cursor_of (gci (host w))))
  end;
  unfold IncrementXPosition, DecrementXPosition, IncrementYPosition,
    DecrementYPosition, SetXPosition, SetYPosition;
  cbn [GetPosition X Y].

(** * Properties *)

(** ** Geometry *)

Section Geometry.

Variable e : SMALL_RECT.

Lemma increment_in_edges (p p' : COORD) :
  in_edges e p ->
  Utils.s_DoIncrementScreenCoordinate e p = (true, p') ->
  in_edges e p'.
Proof.
  unfold in_edges, Utils.s_DoIncrementScreenCoordinate.
  intros Hin H. repeat break_if; inversion H; subst; simpl; zbool; lia.
Qed.

Lemma decrement_in_edges (p p' : COORD) :
  in_edges e p ->
  Utils.s_DoDecrementScreenCoordinate e p = (true, p') ->
  in_edges e p'.
Proof.
  unfold in_edges, Utils.s_DoDecrementScreenCoordinate.
  intros Hin H. repeat break_if; inversion H; subst; simpl; zbool; lia.
Qed.

Lemma increment_failure (p p' : COORD) :
  Utils.s_DoIncrementScreenCoordinate e p = (false, p') -> p' = p.
Proof.
  unfold Utils.s_DoIncrementScreenCoordinate.
  intros H. repeat break_if; inversion H; reflexivity.
Qed.

Lemma decrement_failure (p p' : COORD) :
  Utils.s_DoDecrementScreenCoordinate e p = (false, p') -> p' = p.
Proof.
  unfold Utils.s_DoDecrementScreenCoordinate.
  intros H. repeat break_if; inversion H; reflexivity.
Qed.

Lemma decrement_after_increment (p p' : COORD) :
  in_edges e p ->
  Utils.s_DoIncrementScreenCoordinate e p = (true, p') ->
  Utils.s_DoDecrementScreenCoordinate e p' = (true, p).
Proof.
  unfold in_edges, Utils.s_DoIncrementScreenCoordinate, Utils.s_DoDecrementScreenCoordinate.
  destruct p as [x y]; simpl. intros Hin H.
  repeat break_if; inversion H; subst; simpl in *; zbool; try lia;
    f_equal; f_equal; lia.
Qed.

Lemma increment_after_decrement (p p' : COORD) :
  in_edges e p ->
  Utils.s_DoDecrementScreenCoordinate e p = (true, p') ->
  Utils.s_DoIncrementScreenCoordinate e p' = (true, p).
Proof.
  unfold in_edges, Utils.s_DoIncrementScreenCoordinate, Utils.s_DoDecrementScreenCoordinate.
  destruct p as [x y]; simpl. intros Hin H.
  repeat break_if; inversion H; subst; simpl in *; zbool; try lia;
    f_equal; f_equal; lia.
Qed.

Lemma increment_moves (p p' : COORD) :
  Utils.s_DoIncrementScreenCoordinate e p = (true, p') -> p' <> p.
Proof.
  unfold Utils.s_DoIncrementScreenCoordinate. destruct p as [x y]; simpl.
  intros H. repeat break_if; inversion H; subst; intros E; inversion E; zbool; lia.
Qed.

Lemma decrement_moves (p p' : COORD) :
  Utils.s_DoDecrementScreenCoordinate e p = (true, p') -> p' <> p.
Proof.
  unfold Utils.s_DoDecrementScreenCoordinate. destruct p as [x y]; simpl.
  intros H. repeat break_if; inversion H; subst; intros E; inversion E; zbool; lia.
Qed.

End Geometry.

(** ** The word scan *)

Section WordScan.

Context {decls : HostDecls}.
Variable g : CONSOLE_INFORMATION.
Variable fReverse : bool.
Variable e : SMALL_RECT.
Variables coordMaxLeft coordMaxRight : COORD.

Lemma scan_step_in_edges (p p' : COORD) :
  in_edges e p -> scan_step fReverse e p = (true, p') -> in_edges e p'.
Proof.
  unfold scan_step. destruct fReverse; simpl;
    eauto using increment_in_edges, decrement_in_edges.
Qed.

Lemma scan_step_failure (p p' : COORD) :
  scan_step fReverse e p = (false, p') -> p' = p.
Proof.
  unfold scan_step. destruct fReverse; simpl;
    eauto using increment_failure, decrement_failure.
Qed.

Lemma scan_step_snd_in_edges (p : COORD) :
  in_edges e p -> in_edges e (snd (scan_step fReverse e p)).
Proof.
  intros Hin. destruct (scan_step fReverse e p) as [[|] p'] eqn:E; simpl.
  - eauto using scan_step_in_edges.
  - apply scan_step_failure in E. now subst.
Qed.

Lemma scan_step_back (p p' : COORD) :
  in_edges e p ->
  scan_step fReverse e p = (true, p') ->
  scan_step (negb fReverse) e p' = (true, p).
Proof.
  unfold scan_step. destruct fReverse; simpl;
    eauto using increment_after_decrement, decrement_after_increment.
Qed.

Lemma scan_step_moves (r : bool) (p p' : COORD) :
  scan_step r e p = (true, p') -> p' <> p.
Proof.
  unfold scan_step. destruct r; simpl; eauto using increment_moves, decrement_moves.
Qed.

Lemma cells_ahead_bounds (p : COORD) :
  in_edges e p ->
  0 <= cells_ahead fReverse e p
       < (Right e - Left e + 1) * (Bottom e - Top e + 1).
Proof.
  unfold in_edges, cells_ahead. intros Hin. destruct fReverse; nia.
Qed.

Lemma scan_step_cells_ahead (p p' : COORD) :
  in_edges e p ->
  scan_step fReverse e p = (true, p') ->
  cells_ahead fReverse e p' = cells_ahead fReverse e p - 1.
Proof.
  unfold in_edges, cells_ahead, scan_step,
    Utils.s_DoIncrementScreenCoordinate, Utils.s_DoDecrementScreenCoordinate.
  intros Hin H.
  destruct fReverse; simpl in H; repeat break_if; inversion H; subst; simpl;
    zbool; nia.
Qed.

(** A pass breaks out of the loop exactly in the three cases, and then it
    leaves the selection point where it is. *)
Lemma scan_body_break (p : COORD) (fCurrIsDelim : bool) :
  (exists p', scan_body g fReverse e coordMaxLeft coordMaxRight p fCurrIsDelim
              = ScanBreak p')
  <-> scan_stops fReverse e coordMaxLeft coordMaxRight p.
Proof.
  unfold scan_body, scan_stops.
  destruct (Utils.s_CompareCoords p coordMaxLeft =? 0) eqn:EL.
  { zbool. split; eauto. }
  destruct (Utils.s_CompareCoords p coordMaxRight >=? 0) eqn:ER.
  { zbool. split; eauto. intros _. right; left. lia. }
  zbool.
  destruct (scan_step fReverse e p) as [[|] p'] eqn:ES; simpl.
  - split.
    + intros [q Hq]. discriminate.
    + intros [H | [H | H]]; try lia; discriminate.
  - split; eauto.
Qed.

Lemma scan_body_break_point (p p' : COORD) (fCurrIsDelim : bool) :
  scan_body g fReverse e coordMaxLeft coordMaxRight p fCurrIsDelim = ScanBreak p' ->
  p' = p.
Proof.
  unfold scan_body. repeat break_if; try congruence.
  destruct (scan_step fReverse e p) as [[|] q] eqn:ES; simpl; try discriminate.
  intros H. inversion H; subst. eauto using scan_step_failure.
Qed.

Lemma scan_body_moved (p p' : COORD) (fCurrIsDelim fCurr fAgain : bool) :
  scan_body g fReverse e coordMaxLeft coordMaxRight p fCurrIsDelim
    = ScanMoved p' fCurr fAgain ->
  scan_step fReverse e p = (true, p')
  /\ fCurr = IS_WORD_DELIM (CharAt g p')
  /\ fAgain = keep_scanning fReverse fCurrIsDelim fCurr.
Proof.
  unfold scan_body. repeat break_if; try congruence.
  destruct (scan_step fReverse e p) as [[|] q] eqn:ES; simpl; try discriminate.
  intros H. inversion H; subst. auto.
Qed.

(** Inside the buffer the loop ends within one pass per cell ahead. *)
Lemma scan_loop_terminates (fuel : nat) :
  forall (p : COORD) (fCurrIsDelim : bool),
    in_edges e p ->
    cells_ahead fReverse e p < Z.of_nat fuel ->
    exists r, scan_loop fuel g fReverse e coordMaxLeft coordMaxRight p fCurrIsDelim
              = Some r.
Proof.
  induction fuel as [|fuel IH]; intros p cur Hin Hlt.
  - pose proof (cells_ahead_bounds Hin). simpl in Hlt. lia.
  - simpl.
    destruct (scan_body g fReverse e coordMaxLeft coordMaxRight p cur)
      as [q | q fCurr fAgain] eqn:EB; eauto.
    destruct fAgain; eauto.
    apply scan_body_moved in EB. destruct EB as (ES & _ & _).
    apply IH.
    + eauto using scan_step_in_edges.
    + rewrite (scan_step_cells_ahead Hin ES). lia.
Qed.

(** How the loop ends: with fMoveSucceeded false it stands on a point where
    one of the three cases holds; with fMoveSucceeded true its last pass did
    not break, it moved and found the transition. *)
Lemma scan_loop_exit (fuel : nat) :
  forall (p p' : COORD) (fCurrIsDelim ok : bool),
    in_edges e p ->
    scan_loop fuel g fReverse e coordMaxLeft coordMaxRight p fCurrIsDelim
      = Some (p', ok) ->
    in_edges e p'
    /\ (ok = false -> scan_stops fReverse e coordMaxLeft coordMaxRight p')
    /\ (ok = true ->
        exists (q : COORD) (fPrev : bool),
          in_edges e q
          /\ ~ scan_stops fReverse e coordMaxLeft coordMaxRight q
          /\ scan_body g fReverse e coordMaxLeft coordMaxRight q fPrev
             = ScanMoved p' (IS_WORD_DELIM (CharAt g p')) false).
Proof.
  induction fuel as [|fuel IH]; intros p p' cur ok Hin H; simpl in H; try discriminate.
  destruct (scan_body g fReverse e coordMaxLeft coordMaxRight p cur)
    as [q | q fCurr fAgain] eqn:EB.
  - inversion H; subst.
    pose proof (scan_body_break_point _ _ EB); subst.
    split; [assumption|]. split; [|discriminate].
    intros _. apply (scan_body_break p cur). eauto.
  - pose proof (scan_body_moved _ _ EB) as (ES & Hc & Ha).
    destruct fAgain.
    + eapply IH; [|eassumption]. eauto using scan_step_in_edges.
    + inversion H; subst p' ok.
      split; [eauto using scan_step_in_edges|]. split; [discriminate|].
      intros _. exists p, cur. split; [assumption|]. split.
      * intros Hs. apply (scan_body_break p cur) in Hs. destruct Hs as [x Hx].
        congruence.
      * rewrite EB. subst fCurr. reflexivity.
Qed.

End WordScan.

(** ** Word-by-word selection: the claims *)

Section WordByWord.

Context {decls : HostDecls}.

(** C2. In WordByWordSelection, once the scan loop is over, the selection
    point is stepped back one position against the scan direction if and
    only if the last step succeeded (fMoveSucceeded) and the movement is
    highlighting, which is decided by comparing the point (after the first
    step) with the anchor: forward, the point is not left of the anchor; in
    reverse, not right of it. When the movement is un-highlighting, or the
    last step did not succeed, the point the loop ended on is the result.
    Inside the buffer the loop ends and the step back really moves the
    point. *)
Theorem word_scan_step_back :
  forall (g : CONSOLE_INFORMATION) (fReverse : bool) (srectEdges : SMALL_RECT)
         (coordAnchor coordSelPoint : COORD),
    in_edges srectEdges coordSelPoint ->
    let first := snd (scan_step fReverse srectEdges coordSelPoint) in
    exists (loop_end : COORD) (fMoveSucceeded : bool),
      scan_loop (scan_fuel srectEdges) g fReverse srectEdges
                (fst (scan_limits g srectEdges)) (snd (scan_limits g srectEdges))
                first (IS_WORD_DELIM (CharAt g first))
        = Some (loop_end, fMoveSucceeded)
      /\ (fMoveSucceeded = true /\ highlighting fReverse first coordAnchor = true ->
          exists back : COORD,
            scan_step (negb fReverse) srectEdges loop_end = (true, back)
            /\ back <> loop_end
            /\ WordByWordSelection g fReverse srectEdges coordAnchor coordSelPoint
               = Some back)
      /\ (~ (fMoveSucceeded = true /\ highlighting fReverse first coordAnchor = true) ->
          WordByWordSelection g fReverse srectEdges coordAnchor coordSelPoint
            = Some loop_end)
      /\ highlighting fReverse first coordAnchor
         = negb (unhighlighting fReverse first coordAnchor).
Proof.
  intros g rev e anchor p0 Hin first.
  assert (Hfirst : in_edges e first) by (apply scan_step_snd_in_edges; assumption).
  destruct (scan_limits g e) as [maxL maxR] eqn:EL; simpl.
  destruct (@scan_loop_terminates decls g rev e maxL maxR (scan_fuel e) first
              (IS_WORD_DELIM (CharAt g first)) Hfirst) as [[pl ok] Hloop].
  { pose proof (cells_ahead_bounds rev Hfirst). unfold scan_fuel. lia. }
  assert (Hneg : highlighting rev first anchor = negb (unhighlighting rev first anchor)).
  { unfold highlighting, unhighlighting.
    destruct rev; simpl;
      destruct (Utils.s_CompareCoords first anchor); reflexivity. }
  exists pl, ok. split; [assumption|].
  unfold WordByWordSelection. fold first. rewrite EL, Hloop.
  split; [|split; [|assumption]].
  - intros [Hok Hh]. subst ok.
    pose proof Hloop as Hexit.
    apply scan_loop_exit in Hexit; [|exact Hfirst].
    destruct Hexit as (_ & _ & Hmoved).
    destruct (Hmoved eq_refl) as (q & fPrev & Hq & _ & Hbody).
    apply scan_body_moved in Hbody. destruct Hbody as (Hstep & _).
    pose proof (scan_step_back _ Hq Hstep) as Hback.
    pose proof (@scan_step_moves e rev q pl Hstep) as Hmoves.
    exists q. split; [assumption|]. split; [congruence|].
    rewrite Hneg in Hh. apply negb_true_iff in Hh. rewrite Hh. simpl.
    rewrite Hback. reflexivity.
  - intros Hnot.
    destruct ok; [|reflexivity].
    destruct (unhighlighting rev first anchor) eqn:EU; [reflexivity|].
    exfalso. apply Hnot. rewrite Hneg. auto.
Qed.


End WordByWord.

(** ** Line selection with the keyboard: the claims *)

Lemma nth_repeat_inside (A : Type) (a d : A) (m n : nat) :
  (n < m)%nat -> nth n (repeat a m) d = a.
Proof.
  revert n. induction m as [|m IH]; intros n Hn; [lia|].
  destruct n as [|n]; simpl; [reflexivity|]. apply IH. lia.
Qed.

Lemma forallb_columns (P : Z -> bool) (n : nat) :
  forallb P (map Z.of_nat (seq 0 n)) = true ->
  forall x : Z, 0 <= x < Z.of_nat n -> P x = true.
Proof.
  intros H x Hx. rewrite forallb_forall in H. apply H.
  apply in_map_iff. exists (Z.to_nat x). split; [lia|].
  apply in_seq. lia.
Qed.

(** The bisecting fixture satisfies the invariant of the glyph metadata. *)
Lemma bisect_glyphs_paired :
  @glyphs_paired sample_decls bisect_console sample_edges.
Proof.
  intros c c' [Hx Hy] Htr Hdec. simpl in Hx, Hy.
  assert (Hrow : forall y, 0 <= y <= 299 ->
            GetRowByOffset (TextInfo (CurrentScreenBuffer bisect_console)) y = FillBisect).
  { intros y Hy'. unfold GetRowByOffset.
    destruct (y <? 0) eqn:E; [zbool; lia|].
    apply nth_repeat_inside. lia. }
  assert (Hcols : forall x, 0 <= x < 80 -> row_paired FillBisect x = true).
  { apply (forallb_columns (row_paired FillBisect) 80). vm_compute. reflexivity. }
  unfold KAttrAt in *. rewrite Hrow in Htr by lia.
  pose proof (Hcols (X c) ltac:(lia)) as Hc. unfold row_paired in Hc.
  rewrite Htr in Hc. simpl implb in Hc.
  unfold Utils.s_DoDecrementScreenCoordinate in Hdec. simpl Left in Hdec.
  simpl Top in Hdec. simpl Right in Hdec.
  destruct (X c =? 0) eqn:E0.
  - destruct (0 <? Y c) eqn:E1; inversion Hdec; subst c'; simpl X; simpl Y.
    zbool. rewrite Hrow by lia. split; reflexivity.
  - inversion Hdec; subst c'; simpl X; simpl Y. rewrite Hrow by lia.
    apply andb_true_iff in Hc. destruct Hc as [H1 H2].
    apply negb_true_iff in H2. auto.
Qed.

Lemma repeat_step_in_edges (e : SMALL_RECT) (step : COORD -> bool * COORD) :
  (forall p, in_edges e p -> in_edges e (snd (step p))) ->
  forall (n : nat) (p : COORD),
    in_edges e p -> in_edges e (snd (Utils.repeat_step step n p)).
Proof.
  intros Hstep n. induction n as [|n IH]; intros p Hin; simpl; [assumption|].
  pose proof (Hstep p Hin) as Hp.
  destruct (step p) as [[|] p']; simpl in *; auto.
Qed.

Lemma increment_snd_in_edges (e : SMALL_RECT) (p : COORD) :
  in_edges e p -> in_edges e (snd (Utils.s_DoIncrementScreenCoordinate e p)).
Proof.
  intros Hin.
  destruct (Utils.s_DoIncrementScreenCoordinate e p) as [[|] q] eqn:E; simpl.
  - eauto using increment_in_edges.
  - apply increment_failure in E. now subst.
Qed.

Lemma decrement_snd_in_edges (e : SMALL_RECT) (p : COORD) :
  in_edges e p -> in_edges e (snd (Utils.s_DoDecrementScreenCoordinate e p)).
Proof.
  intros Hin.
  destruct (Utils.s_DoDecrementScreenCoordinate e p) as [[|] q] eqn:E; simpl.
  - eauto using decrement_in_edges.
  - apply decrement_failure in E. now subst.
Qed.

Lemma add_to_position_in_edges (e : SMALL_RECT) (iAdd : Z) (p : COORD) :
  in_edges e p -> in_edges e (snd (Utils.s_AddToPosition e iAdd p)).
Proof.
  intros Hin. unfold Utils.s_AddToPosition.
  destruct (0 <=? iAdd); apply repeat_step_in_edges;
    auto using increment_snd_in_edges, decrement_snd_in_edges.
Qed.

(** In a sane console the edit line ends inside the buffer, and starts
    inside it or at the sentinel. *)
Lemma input_line_in_edges (g : CONSOLE_INFORMATION) (coordStart coordEnd : COORD) :
  sane_console g ->
  s_GetInputLineBoundaries g = Some (coordStart, coordEnd) ->
  in_edges (s_GetCurrentBufferEdges g) coordEnd
  /\ (in_edges (s_GetCurrentBufferEdges g) coordStart
      \/ (X coordStart < 0 /\ Y coordStart < 0)).
Proof.
  intros (_ & _ & _ & Hcur & Hcooked). unfold s_GetInputLineBoundaries.
  destruct (lpCookedReadData g) as [crd|]; [|discriminate].
  destruct (_NumberOfVisibleChars crd <=? 0); [discriminate|].
  intros H. inversion H; subst. split; [|assumption].
  apply add_to_position_in_edges.
  destruct ((X (_OriginalCursorPosition crd) <? 0)
            && (Y (_OriginalCursorPosition crd) <? 0)) eqn:E; [assumption|].
  apply add_to_position_in_edges.
  destruct Hcooked as [Hin | [Hx Hy]]; [assumption|].
  apply andb_false_iff in E. destruct E; zbool; lia.
Qed.

Lemma to_short_small (z : Z) : -32768 <= z <= 32767 -> to_short z = z.
Proof.
  intros Hz. unfold to_short. rewrite Z.mod_small; lia.
Qed.

Section LineSelection.

Context {decls : HostDecls} {methods : SelectionMethods}.

(** Inside the buffer the word-by-word selection returns a point. *)
Lemma WordByWordSelection_total (g : CONSOLE_INFORMATION) (fReverse : bool)
    (e : SMALL_RECT) (coordAnchor p : COORD) :
  in_edges e p ->
  exists q, WordByWordSelection g fReverse e coordAnchor p = Some q.
Proof.
  intros Hin. unfold WordByWordSelection.
  destruct (scan_limits g e) as [maxL maxR].
  set (first := snd (scan_step fReverse e p)).
  assert (Hfirst : in_edges e first) by (apply scan_step_snd_in_edges; assumption).
  destruct (@scan_loop_terminates decls g fReverse e maxL maxR (scan_fuel e) first
              (IS_WORD_DELIM (CharAt g first)) Hfirst) as [[pl ok] Hloop].
  { pose proof (cells_ahead_bounds fReverse Hfirst). unfold scan_fuel. lia. }
  rewrite Hloop. break_if; eauto.
Qed.

Lemma moved_point_total (h : Host) (k : INPUT_KEY_INFO) (e : SMALL_RECT)
    (coordAnchor p : COORD) :
  in_edges e p ->
  exists q, moved_point h k e coordAnchor p = Some q.
Proof.
  intros Hin. unfold moved_point, shift_ctrl_move.
  repeat break_if; eauto using WordByWordSelection_total.
Qed.

Lemma WordByWordSelection_in_edges (g : CONSOLE_INFORMATION) (fReverse : bool)
    (e : SMALL_RECT) (coordAnchor p q : COORD) :
  in_edges e p ->
  WordByWordSelection g fReverse e coordAnchor p = Some q ->
  in_edges e q.
Proof.
  intros Hin. unfold WordByWordSelection.
  destruct (scan_limits g e) as [maxL maxR].
  set (first := snd (scan_step fReverse e p)).
  assert (Hfirst : in_edges e first) by (apply scan_step_snd_in_edges; assumption).
  destruct (scan_loop (scan_fuel e) g fReverse e maxL maxR first
              (IS_WORD_DELIM (CharAt g first))) as [[pl ok]|] eqn:Hloop;
    [|discriminate].
  apply scan_loop_exit in Hloop; [|exact Hfirst]. destruct Hloop as [Hpl _].
  break_if; intros H; inversion H; subst; auto using scan_step_snd_in_edges.
Qed.

(** In a sane console a Shift key moves the selection point inside the
    buffer. *)
Lemma shift_move_in_edges (g : CONSOLE_INFORMATION) (wVirtualKeyCode : Z) (p : COORD) :
  sane_console g ->
  in_edges (s_GetCurrentBufferEdges g) p ->
  in_edges (s_GetCurrentBufferEdges g)
    (shift_move g wVirtualKeyCode (s_GetCurrentBufferEdges g)
       (GetScreenWindowSizeY (CurrentScreenBuffer g))
       (s_GetInputLineBoundaries g) p).
Proof.
  intros Hsane Hin.
  pose proof (fun s t => @input_line_in_edges g s t Hsane) as Hline.
  destruct Hsane as (Hright & Hh0 & Hh1 & _ & _).
  set (e := s_GetCurrentBufferEdges g) in *.
  assert (HL : Left e = 0) by reflexivity.
  assert (HT : Top e = 0) by reflexivity.
  unfold shift_move.
  destruct (wVirtualKeyCode =? VK_LEFT); [now apply decrement_snd_in_edges|].
  destruct (wVirtualKeyCode =? VK_RIGHT).
  { destruct (is_trailing _); auto using increment_snd_in_edges. }
  destruct Hin as [Hx Hy].
  destruct (wVirtualKeyCode =? VK_UP).
  { break_if; unfold in_edges; cbn [X Y]; zbool; lia. }
  destruct (wVirtualKeyCode =? VK_DOWN).
  { break_if; unfold in_edges; cbn [X Y]; zbool; lia. }
  destruct (wVirtualKeyCode =? VK_NEXT).
  { rewrite to_short_small by lia. break_if; unfold in_edges; cbn [X Y]; zbool; lia. }
  destruct (wVirtualKeyCode =? VK_PRIOR).
  { rewrite to_short_small by lia. break_if; unfold in_edges; cbn [X Y]; zbool; lia. }
  destruct (wVirtualKeyCode =? VK_HOME).
  { destruct (s_GetInputLineBoundaries g) as [[start fin]|];
      [|unfold in_edges; cbn [X Y]; lia].
    destruct (Hline start fin eq_refl) as [[Hfx Hfy] Hstart].
    repeat break_if; unfold in_edges; cbn [X Y]; zbool; try lia.
    destruct Hstart as [[Hsx Hsy] | [Hsx Hsy]]; lia. }
  destruct (wVirtualKeyCode =? VK_END).
  { destruct (s_GetInputLineBoundaries g) as [[start fin]|];
      [|unfold in_edges; cbn [X Y]; lia].
    destruct (Hline start fin eq_refl) as [[Hfx Hfy] Hstart].
    destruct (Utils.s_CompareCoords p start >=? 0).
    - break_if; unfold in_edges; cbn [X Y]; lia.
    - destruct (Y start =? Y p) eqn:EY; [|unfold in_edges; cbn [X Y]; lia].
      zbool. destruct Hstart as [[Hsx Hsy] | [Hsx Hsy]]; [|lia].
      rewrite to_short_small by lia.
      repeat break_if; unfold in_edges; cbn [X Y]; zbool; lia. }
  split; assumption.
Qed.

(** In a sane console, with the saved cursor position inside the buffer,
    every key moves the selection point inside the buffer. *)
Lemma moved_point_in_edges (h : Host) (k : INPUT_KEY_INFO) (coordAnchor p q : COORD) :
  sane_console (gci h) ->
  in_edges (s_GetCurrentBufferEdges (gci h)) (_coordSavedCursorPosition (sel h)) ->
  in_edges (s_GetCurrentBufferEdges (gci h)) p ->
  moved_point h k (s_GetCurrentBufferEdges (gci h)) coordAnchor p = Some q ->
  in_edges (s_GetCurrentBufferEdges (gci h)) q.
Proof.
  intros Hsane Hsaved Hin. unfold moved_point.
  destruct (IsShiftOnly k).
  { intros H. inversion H; subst; clear H. now apply shift_move_in_edges. }
  destruct (IsShiftAndCtrlOnly k); [|intros H; inversion H; subst; assumption].
  unfold shift_ctrl_move.
  destruct (GetVirtualKey k =? VK_LEFT); [eauto using WordByWordSelection_in_edges|].
  destruct (GetVirtualKey k =? VK_RIGHT); [eauto using WordByWordSelection_in_edges|].
  pose proof Hin as [Hx Hy].
  assert (HL : Left (s_GetCurrentBufferEdges (gci h)) = 0) by reflexivity.
  assert (HT : Top (s_GetCurrentBufferEdges (gci h)) = 0) by reflexivity.
  assert (HB : Bottom (s_GetCurrentBufferEdges (gci h))
               = Y (GetScreenBufferSize (CurrentScreenBuffer (gci h))) - 1)
    by reflexivity.
  destruct (GetVirtualKey k =? VK_UP).
  { intros H. inversion H; subst; clear H. break_if; unfold in_edges; cbn [X Y]; zbool; lia. }
  destruct (GetVirtualKey k =? VK_DOWN).
  { intros H. inversion H; subst; clear H. break_if; unfold in_edges; cbn [X Y]; zbool; lia. }
  destruct (GetVirtualKey k =? VK_HOME).
  { intros H. inversion H; subst; clear H. unfold in_edges; cbn [X Y]. lia. }
  destruct (GetVirtualKey k =? VK_END).
  { intros H. inversion H; subst; clear H. unfold GetValidAreaBoundaries. simpl snd.
    destruct (s_GetInputLineBoundaries (gci h)) as [[start fin]|] eqn:EI.
    - now destruct (input_line_in_edges Hsane EI).
    - destruct Hsane as (_ & _ & _ & Hcur & _). break_if; assumption. }
  intros H. inversion H; subst; clear H. assumption.
Qed.

(** The glyph check leaves a point that is not on a trailing half, moves a
    point on a trailing half one step back, and one step forward where the
    step back fails. *)
Lemma off_trailing_cases (g : CONSOLE_INFORMATION) (e : SMALL_RECT) (p : COORD) :
  (is_trailing (KAttrAt g p) = false -> off_trailing g e p = p)
  /\ (is_trailing (KAttrAt g p) = true ->
      (forall left, Utils.s_DoDecrementScreenCoordinate e p = (true, left) ->
                    off_trailing g e p = left)
      /\ (fst (Utils.s_DoDecrementScreenCoordinate e p) = false ->
          off_trailing g e p = snd (Utils.s_DoIncrementScreenCoordinate e p))).
Proof.
  unfold off_trailing. split; intros Ht; rewrite Ht; [reflexivity|].
  destruct (Utils.s_DoDecrementScreenCoordinate e p) as [[|] q] eqn:ED; simpl.
  - split; [intros left H; now inversion H | discriminate].
  - apply decrement_failure in ED. subst q.
    split; [discriminate | reflexivity].
Qed.

Lemma off_trailing_sound (g : CONSOLE_INFORMATION) (e : SMALL_RECT) (p : COORD) :
  in_edges e p ->
  glyphs_paired g e ->
  Left e < Right e \/ Top e < Bottom e ->
  is_trailing (KAttrAt g (off_trailing g e p)) = false.
Proof.
  intros Hin Hpaired Hcells.
  destruct (off_trailing_cases g e p) as [Hclear Hon].
  destruct (is_trailing (KAttrAt g p)) eqn:Ht.
  - destruct (Hon eq_refl) as [Hleft Hright].
    destruct (Utils.s_DoDecrementScreenCoordinate e p) as [[|] q] eqn:ED.
    + rewrite (Hleft q eq_refl). now apply (Hpaired p q Hin Ht ED).
    + rewrite (Hright eq_refl).
      destruct (Utils.s_DoIncrementScreenCoordinate e p) as [ok r] eqn:EI. simpl.
      assert (ok = true).
      { revert ED EI. destruct Hin as [Hx Hy].
        unfold Utils.s_DoDecrementScreenCoordinate, Utils.s_DoIncrementScreenCoordinate.
        intros ED EI.
        repeat break_if; inversion ED; inversion EI; subst; zbool; try reflexivity; lia. }
      subst ok.
      destruct (is_trailing (KAttrAt g r)) eqn:Hr; [|reflexivity].
      pose proof (increment_in_edges Hin EI) as Hrin.
      pose proof (decrement_after_increment Hin EI) as Hback.
      destruct (Hpaired r p Hrin Hr Hback) as [_ Hp]. congruence.
  - rewrite (Hclear eq_refl). assumption.
Qed.

(** C1, as the code has it. For every valid Shift or Shift+Ctrl key that
    the line-selection handler extends the selection with, the handler calls ExtendSelection
    with the moved selection point after the glyph check: a point that is
    not on a trailing-half column is passed as it is; a point on a
    trailing-half column is moved one step left, or, if that decrement
    fails, one step right. With the glyph metadata well formed (a trailing
    half follows its leading half) and the moved point inside a buffer of
    more than one cell, the point passed to ExtendSelection is never on a
    trailing-half column; and in a sane console every one of the keys moves
    the point inside the buffer. *)
Theorem line_selection_off_trailing :
  forall (k : INPUT_KEY_INFO) (w : World),
    s_IsValidKeyboardLineSelection k = true ->
    only_starts k w = false ->
    let w0 := emit Call_SetKeyboardTextSelectionUsed w in
    let w1 := if negb (IsInSelectingState w0) then start_line_selection w0 else w0 in
    let srectEdges := s_GetCurrentBufferEdges (gci w1) in
    let coordAnchor := _coordSelectionAnchor (sel w1) in
    let coordSelPoint := selection_point coordAnchor (_srSelectionRect (sel w1)) in
    in_edges srectEdges coordSelPoint ->
    exists moved extended : COORD,
      moved_point w1 k srectEdges coordAnchor coordSelPoint = Some moved
      /\ HandleKeyboardLineSelectionEvent k w
         = Some (true, call (Call_ExtendSelection extended) (ExtendSelection extended) w1)
      /\ (is_trailing (KAttrAt (gci w1) moved) = false -> extended = moved)
      /\ (is_trailing (KAttrAt (gci w1) moved) = true ->
          (forall left,
              Utils.s_DoDecrementScreenCoordinate srectEdges moved = (true, left) ->
              extended = left)
          /\ (fst (Utils.s_DoDecrementScreenCoordinate srectEdges moved) = false ->
              extended = snd (Utils.s_DoIncrementScreenCoordinate srectEdges moved)))
      /\ (in_edges srectEdges moved ->
          glyphs_paired (gci w1) srectEdges ->
          Left srectEdges < Right srectEdges \/ Top srectEdges < Bottom srectEdges ->
          is_trailing (KAttrAt (gci w1) extended) = false)
      /\ (sane_console (gci w1) ->
          in_edges srectEdges (_coordSavedCursorPosition (sel w1)) ->
          in_edges srectEdges moved).
Proof.
  intros k w Hvalid Hstart w0 w1 e anchor p Hin.
  destruct (moved_point_total w1 k anchor Hin) as [moved Hmoved].
  exists moved, (off_trailing (gci w1) e moved).
  split; [exact Hmoved|]. split.
  - unfold HandleKeyboardLineSelectionEvent. rewrite Hvalid.
    change (negb true) with false. cbv beta iota zeta.
    change (only_starts k (emit Call_SetKeyboardTextSelectionUsed w))
      with (only_starts k w).
    rewrite Hstart. cbv beta iota.
    unfold p, anchor, e, w1, w0 in Hmoved. rewrite Hmoved. reflexivity.
  - destruct (off_trailing_cases (gci w1) e moved) as [Hclear Hon].
    split; [exact Hclear|]. split; [exact Hon|]. split.
    + intros Hmin Hpaired Hcells. now apply off_trailing_sound.
    + intros Hsane Hsaved.
      exact (moved_point_in_edges w1 k anchor Hsane Hsaved Hin Hmoved).
Qed.

End LineSelection.

Lemma line_selection_off_trailing_witness :
  exists extended : COORD,
    @HandleKeyboardLineSelectionEvent sample_decls sample_methods
       (shift_key VK_UP) bisect_world
    = Some (true, extended_to extended bisect_world)
    /\ extended = mkCOORD 27 0
    /\ @is_trailing sample_decls (KAttrAt bisect_console extended) = false.
Proof.
  destruct (@line_selection_off_trailing sample_decls sample_methods
              (shift_key VK_UP) bisect_world eq_refl eq_refl)
    as (moved & extended & Hmoved & Hcall & _ & Hon & Hsafe & _).
  { unfold in_edges. simpl. lia. }
  exists extended. split; [exact Hcall|].
  vm_compute in Hmoved. inversion Hmoved; subst moved.
  split.
  - destruct Hon as [Hleft _]; [reflexivity|]. apply Hleft. reflexivity.
  - apply Hsafe.
    + unfold in_edges. simpl. lia.
    + exact bisect_glyphs_paired.
    + left. simpl. lia.
Defined.

(** C1, counterexample to the claim as stated: in a sane console in which
    every leading half is followed by a trailing half, Shift+Down from the
    first cell lands on the trailing half in column 0 of row 1; the step to
    the left wraps to column 79 of row 0, a trailing half, and this is the
    point passed to ExtendSelection. *)
Lemma line_selection_extends_to_trailing :
  sane_console unpaired_console
  /\ @leading_followed_by_trailing sample_decls unpaired_rows 80 = true
  /\ s_IsValidKeyboardLineSelection (shift_key VK_DOWN) = true
  /\ @HandleKeyboardLineSelectionEvent sample_decls sample_methods
       (shift_key VK_DOWN) unpaired_world
     = Some (true, extended_to (mkCOORD 79 0) unpaired_world)
  /\ @is_trailing sample_decls (KAttrAt unpaired_console (mkCOORD 79 0)) = true.
Proof.
  split.
  { unfold sane_console, in_edges. simpl. unfold s_csWindowHeight.
    repeat split; lia. }
  repeat split; vm_compute; reflexivity.
Qed.

Lemma word_scan_step_back_witness :
  in_edges sample_edges (mkCOORD 0 0)
  /\ @WordByWordSelection sample_decls filled_console false sample_edges
       (mkCOORD 0 0) (mkCOORD 0 0) = Some (mkCOORD 79 0).
Proof.
  assert (Hin : in_edges sample_edges (mkCOORD 0 0)) by (unfold in_edges; simpl; lia).
  split; [exact Hin|].
  destruct (@word_scan_step_back sample_decls filled_console false sample_edges
              (mkCOORD 0 0) (mkCOORD 0 0) Hin)
    as (loop_end & ok & Hloop & Hback & _).
  vm_compute in Hloop. inversion Hloop; subst loop_end ok.
  destruct Hback as (back & Hstep & _ & Hres); [split; reflexivity|].
  rewrite Hres. vm_compute in Hstep. inversion Hstep. reflexivity.
Defined.


Section ShiftHome.

Context {decls : HostDecls} {methods : SelectionMethods}.

(** C4. Shift+Home in line selection: the column of the selection point
    becomes the column of the edit-line start exactly when the edit-line
    boundaries are available, the point compares strictly greater than the
    edit-line start in reading order and is on the row of the edit-line
    start; in every other case (so also at the edit-line start itself) the
    column becomes 0; the row never changes. The handler extends the
    selection to that point after the glyph check. In the scenario (edit line
    at columns 4-15 of row 10, point at column 8 of row 10) the first
    Shift+Home extends the selection to column 4 and the second to
    column 0. *)
Theorem shift_home_edit_line :
  (forall (g : CONSOLE_INFORMATION) (srectEdges : SMALL_RECT) (sWindowHeight : Z)
          (coordInputLineStart coordInputLineEnd coordSelPoint : COORD),
      (Utils.s_CompareCoords coordSelPoint coordInputLineStart > 0
       /\ Y coordInputLineStart = Y coordSelPoint ->
       shift_move g VK_HOME srectEdges sWindowHeight
                  (Some (coordInputLineStart, coordInputLineEnd)) coordSelPoint
       = mkCOORD (X coordInputLineStart) (Y coordSelPoint))
      /\ (~ (Utils.s_CompareCoords coordSelPoint coordInputLineStart > 0
             /\ Y coordInputLineStart = Y coordSelPoint) ->
          shift_move g VK_HOME srectEdges sWindowHeight
                     (Some (coordInputLineStart, coordInputLineEnd)) coordSelPoint
          = mkCOORD 0 (Y coordSelPoint))
      /\ shift_move g VK_HOME srectEdges sWindowHeight
                    (Some (coordSelPoint, coordInputLineEnd)) coordSelPoint
         = mkCOORD 0 (Y coordSelPoint)
      /\ shift_move g VK_HOME srectEdges sWindowHeight None coordSelPoint
         = mkCOORD 0 (Y coordSelPoint))
  /\ (forall w : World,
        IsInSelectingState w = true ->
        let srectEdges := s_GetCurrentBufferEdges (gci w) in
        let moved :=
          shift_move (gci w) VK_HOME srectEdges
            (GetScreenWindowSizeY (CurrentScreenBuffer (gci w)))
            (s_GetInputLineBoundaries (gci w))
            (selection_point (_coordSelectionAnchor (sel w)) (_srSelectionRect (sel w))) in
        let extended := off_trailing (gci w) srectEdges moved in
        HandleKeyboardLineSelectionEvent (shift_key VK_HOME) w
        = Some (true, call (Call_ExtendSelection extended) (ExtendSelection extended)
                           (emit Call_SetKeyboardTextSelectionUsed w)))
  /\ (s_GetInputLineBoundaries edit_line_console
      = Some (mkCOORD 4 10, mkCOORD 15 10)
      /\ selection_point (_coordSelectionAnchor (sel edit_line_world))
                         (_srSelectionRect (sel edit_line_world)) = mkCOORD 8 10
      /\ @HandleKeyboardLineSelectionEvent sample_decls sample_methods
           (shift_key VK_HOME) edit_line_world
         = Some (true, extended_to (mkCOORD 4 10) edit_line_world)
      /\ @HandleKeyboardLineSelectionEvent sample_decls sample_methods
           (shift_key VK_HOME) (extended_to (mkCOORD 4 10) edit_line_world)
         = Some (true, extended_to (mkCOORD 0 10)
                         (extended_to (mkCOORD 4 10) edit_line_world))).
Proof.
  split; [|split].
  - intros g e h start fin p. unfold shift_move.
    change (VK_HOME =? VK_LEFT) with false. change (VK_HOME =? VK_RIGHT) with false.
    change (VK_HOME =? VK_UP) with false. change (VK_HOME =? VK_DOWN) with false.
    change (VK_HOME =? VK_NEXT) with false. change (VK_HOME =? VK_PRIOR) with false.
    change (VK_HOME =? VK_HOME) with true. cbv beta iota.
    split; [|split; [|split]].
    + intros [Hgt Hrow].
      destruct (Utils.s_CompareCoords p start >? 0) eqn:E1; [|zbool; lia].
      destruct (Y start =? Y p) eqn:E2; [reflexivity|zbool; lia].
    + intros Hnot.
      destruct (Utils.s_CompareCoords p start >? 0) eqn:E1; [|reflexivity].
      destruct (Y start =? Y p) eqn:E2; [|reflexivity].
      exfalso. apply Hnot. zbool. lia.
    + assert (E : Utils.s_CompareCoords p p = 0).
      { unfold Utils.s_CompareCoords. rewrite !Z.ltb_irrefl. reflexivity. }
      rewrite E. reflexivity.
    + reflexivity.
  - intros w Hsel e moved extended.
    unfold HandleKeyboardLineSelectionEvent.
    change (s_IsValidKeyboardLineSelection (shift_key VK_HOME)) with true.
    change (negb true) with false. cbv beta iota zeta.
    change (IsInSelectingState (emit Call_SetKeyboardTextSelectionUsed w))
      with (IsInSelectingState w).
    unfold only_starts.
    change (IsInSelectingState (emit Call_SetKeyboardTextSelectionUsed w))
      with (IsInSelectingState w).
    rewrite Hsel. reflexivity.
  - repeat split; vm_compute; reflexivity.
Qed.

End ShiftHome.

(** ** The boundaries of the edit line *)

Lemma repeat_step_last (step : COORD -> bool * COORD) (n : nat) :
  forall p q : COORD,
    Utils.repeat_step step (S n) p = (true, q) ->
    exists r, Utils.repeat_step step n p = (true, r) /\ step r = (true, q).
Proof.
  induction n as [|n IH]; intros p q H.
  - simpl in H. destruct (step p) as [[|] p'] eqn:E; inversion H; subst.
    exists p. auto.
  - change (Utils.repeat_step step (S (S n)) p)
      with (let '(ok, p') := step p in
            if ok then Utils.repeat_step step (S n) p' else (false, p')) in H.
    destruct (step p) as [[|] p'] eqn:E; [|discriminate].
    destruct (IH p' q H) as (r & Hr & Hq).
    exists r. split; [|assumption]. simpl. rewrite E. assumption.
Qed.

Lemma repeat_increment_in_edges (e : SMALL_RECT) (n : nat) :
  forall p q : COORD,
    in_edges e p ->
    Utils.repeat_step (Utils.s_DoIncrementScreenCoordinate e) n p = (true, q) ->
    in_edges e q.
Proof.
  induction n as [|n IH]; intros p q Hin H; simpl in H.
  - inversion H; subst; assumption.
  - destruct (Utils.s_DoIncrementScreenCoordinate e p) as [[|] p'] eqn:E; [|discriminate].
    eapply IH; [|eassumption]. eauto using increment_in_edges.
Qed.

(** One step back from the position [n] steps ahead is the position [n-1]
    steps ahead, when those [n] steps fit in the buffer. *)
Lemma add_then_step_back (e : SMALL_RECT) (n : Z) (p : COORD) :
  0 < n ->
  in_edges e p ->
  fst (Utils.s_AddToPosition e n p) = true ->
  snd (Utils.s_AddToPosition e (-1) (snd (Utils.s_AddToPosition e n p)))
  = snd (Utils.s_AddToPosition e (n - 1) p).
Proof.
  intros Hn Hin Hok. unfold Utils.s_AddToPosition in *.
  destruct (0 <=? n) eqn:E1; [|zbool; lia].
  destruct (0 <=? n - 1) eqn:E2; [|zbool; lia].
  change (0 <=? -1) with false. cbv iota. change (Z.to_nat (- -1)) with 1%nat.
  replace (Z.to_nat n) with (S (Z.to_nat (n - 1))) in * by lia.
  destruct (Utils.repeat_step (Utils.s_DoIncrementScreenCoordinate e)
              (S (Z.to_nat (n - 1))) p) as [ok q] eqn:ER.
  simpl in Hok. subst ok.
  destruct (repeat_step_last _ _ _ ER) as (r & Hr & Hq).
  rewrite Hr. simpl snd.
  pose proof (@repeat_increment_in_edges e _ p r Hin Hr) as Hrin.
  simpl. rewrite (decrement_after_increment Hrin Hq). reflexivity.
Qed.

(** C5, as the code has it. When s_GetInputLineBoundaries succeeds, the
    start it returns is the recorded original cursor position. When that
    position is the invalid sentinel (both components negative) the end it
    returns is the live cursor position moved back by one in the wrapped
    coordinate space of the buffer, the position of the last character, not
    the cursor position itself; when the recorded start is valid the end is
    the start advanced by the visible-character count and then moved back by
    one, which is the start advanced by the count minus one when the
    advance fits in the buffer. *)
Theorem input_line_end :
  forall (g : CONSOLE_INFORMATION) (pCookedReadData : COOKED_READ_DATA),
    lpCookedReadData g = Some pCookedReadData ->
    0 < _NumberOfVisibleChars pCookedReadData ->
    let srectEdges := s_GetCurrentBufferEdges g in
    let coordStart := _OriginalCursorPosition pCookedReadData in
    let cChars := _NumberOfVisibleChars pCookedReadData in
    let cursorPos := GetPosition (cursor_of g) in
    exists coordEnd : COORD,
      s_GetInputLineBoundaries g = Some (coordStart, coordEnd)
      /\ (X coordStart < 0 /\ Y coordStart < 0 ->
          coordEnd = snd (Utils.s_AddToPosition srectEdges (-1) cursorPos)
          /\ coordEnd = snd (Utils.s_DoDecrementScreenCoordinate srectEdges cursorPos))
      /\ (~ (X coordStart < 0 /\ Y coordStart < 0) ->
          coordEnd = snd (Utils.s_AddToPosition srectEdges (-1)
                            (snd (Utils.s_AddToPosition srectEdges cChars coordStart)))
          /\ (in_edges srectEdges coordStart ->
              fst (Utils.s_AddToPosition srectEdges cChars coordStart) = true ->
              coordEnd = snd (Utils.s_AddToPosition srectEdges (cChars - 1) coordStart))).
Proof.
  intros g crd Hcrd Hn e start n cursorPos.
  unfold s_GetInputLineBoundaries. rewrite Hcrd.
  destruct (_NumberOfVisibleChars crd <=? 0) eqn:E; [zbool; lia|].
  fold e. fold start. fold n. fold cursorPos.
  destruct ((X start <? 0) && (Y start <? 0)) eqn:ES.
  - eexists. split; [reflexivity|]. split.
    + intros _. split; [reflexivity|].
      unfold Utils.s_AddToPosition. simpl.
      destruct (Utils.s_DoDecrementScreenCoordinate e cursorPos) as [[|] q];
        reflexivity.
    + intros Hnot. exfalso. apply Hnot.
      apply andb_true_iff in ES. destruct ES. zbool. lia.
  - eexists. split; [reflexivity|]. split.
    + intros [Hx Hy]. apply andb_false_iff in ES. destruct ES; zbool; lia.
    + intros _. split; [reflexivity|].
      intros Hin Hok. now apply add_then_step_back.
Qed.

Lemma input_line_end_witness :
  s_GetInputLineBoundaries edit_line_console = Some (mkCOORD 4 10, mkCOORD 15 10).
Proof.
  destruct (@input_line_end edit_line_console (mkCooked 12 (mkCOORD 4 10)) eq_refl)
    as (coordEnd & Hres & _ & Hvalid).
  { simpl. lia. }
  rewrite Hres. f_equal. f_equal.
  destruct Hvalid as [_ Hadd].
  { simpl. lia. }
  rewrite Hadd.
  - reflexivity.
  - unfold in_edges. simpl. lia.
  - reflexivity.
Defined.

(** C5, counterexample to the claim as stated: with the sentinel as the
    recorded position and the live cursor at column 5 of row 50, the end
    returned is column 4 of row 50. *)
Lemma input_line_end_is_not_cursor :
  s_GetInputLineBoundaries sentinel_console
    = Some (mkCOORD (-1) (-1), mkCOORD 4 50)
  /\ GetPosition (cursor_of sentinel_console) = mkCOORD 5 50
  /\ mkCOORD 4 50 <> mkCOORD 5 50.
Proof.
  split; [vm_compute; reflexivity|]. split; [reflexivity|]. discriminate.
Qed.

(** ** Mark mode *)

Section MarkMode.

Context {input : IInputServices} {decls : HostDecls} {methods : SelectionMethods}.

Lemma mark_mode_move_frame (k : INPUT_KEY_INFO) (w : World) :
  sel (mark_mode_move k w) = sel w /\ trace (mark_mode_move k w) = trace w.
Proof.
  unfold mark_mode_move. repeat break_if; split; reflexivity.
Qed.


(** C6, as the code has it. The step to the right is 2 columns when the
    cell under the cursor is a leading half, else 1. The step to the left is
    2 columns when the cell immediately left is a trailing half; when that
    cell is a leading half and not a trailing half, it is 3 columns if the
    cursor is right of column 1 and the cell two to the left is a trailing
    half, 2 columns if the cursor is right of column 1 and that cell is not
    a trailing half, and 1 column at column 1; it is 1 column when the cell
    immediately left is neither half, and at column 0 the cursor does not
    move left. Left moves the cursor by that step; Right moves it by its
    step when the new column is inside the buffer. *)
Theorem mark_mode_step_sizes :
  forall (k : INPUT_KEY_INFO) (w : World),
    let cursorPos := GetPosition (cursor_of (gci w)) in
    let attr i :=
      array_at (KAttrs (GetRowByOffset (TextInfo (CurrentScreenBuffer (gci w)))
                                       (Y cursorPos))) i in
    let iNextRightX := NextRightX (gci w) cursorPos in
    let iNextLeftX := NextLeftX (gci w) cursorPos in
    let moved := GetPosition (cursor_of (gci (mark_mode_move k w))) in
    iNextRightX = (if is_leading (attr (X cursorPos)) then 2 else 1)
    /\ (X cursorPos <= 0 -> iNextLeftX = 0)
    /\ (0 < X cursorPos -> is_trailing (attr (X cursorPos - 1)) = true ->
        iNextLeftX = 2)
    /\ (0 < X cursorPos -> is_trailing (attr (X cursorPos - 1)) = false ->
        is_leading (attr (X cursorPos - 1)) = true ->
        (1 < X cursorPos -> is_trailing (attr (X cursorPos - 2)) = true ->
         iNextLeftX = 3)
        /\ (1 < X cursorPos -> is_trailing (attr (X cursorPos - 2)) = false ->
            iNextLeftX = 2)
        /\ (X cursorPos = 1 -> iNextLeftX = 1))
    /\ (0 < X cursorPos -> is_trailing (attr (X cursorPos - 1)) = false ->
        is_leading (attr (X cursorPos - 1)) = false ->
        iNextLeftX = 1)
    /\ (GetVirtualKey k = VK_LEFT ->
        moved = if X cursorPos >? 0
                then mkCOORD (X cursorPos - iNextLeftX) (Y cursorPos)
                else cursorPos)
    /\ (GetVirtualKey k = VK_RIGHT ->
        moved = if X cursorPos + iNextRightX
                   <? X (GetScreenBufferSize (CurrentScreenBuffer (gci w)))
                then mkCOORD (X cursorPos + iNextRightX) (Y cursorPos)
                else cursorPos).
Proof.
  intros k w pos attr iR iL moved. subst attr. cbv beta.
  split; [reflexivity|].
  split. { intros H. unfold iL, NextLeftX. fold pos.
           destruct (X pos >? 0) eqn:E; [zbool; lia|reflexivity]. }
  split. { intros H Ht. unfold iL, NextLeftX. fold pos.
           destruct (X pos >? 0) eqn:E; [|zbool; lia]. rewrite Ht. reflexivity. }
  split. { intros H Ht Hl. unfold iL, NextLeftX. fold pos.
           destruct (X pos >? 0) eqn:E; [|zbool; lia]. rewrite Ht, Hl.
           split; [|split].
           - intros H1 H2. destruct (X pos - 1 >? 0) eqn:E1; [|zbool; lia].
             rewrite H2. reflexivity.
           - intros H1 H2. destruct (X pos - 1 >? 0) eqn:E1; [|zbool; lia].
             rewrite H2. reflexivity.
           - intros H1. destruct (X pos - 1 >? 0) eqn:E1; [zbool; lia|].
             reflexivity. }
  split. { intros H Ht Hl. unfold iL, NextLeftX. fold pos.
           destruct (X pos >? 0) eqn:E; [|zbool; lia]. rewrite Ht, Hl.
           reflexivity. }
  split.
  - intros Hk. unfold moved, mark_mode_move. rewrite Hk.
    change (VK_LEFT =? VK_RIGHT) with false. change (VK_LEFT =? VK_LEFT) with true.
    cbv beta iota zeta. fold pos. fold iL.
    destruct (X pos >? 0); reflexivity.
  - intros Hk. unfold moved, mark_mode_move. rewrite Hk.
    change (VK_RIGHT =? VK_RIGHT) with true.
    cbv beta iota zeta. fold pos. fold iR.
    destruct (X pos + iR <? X (GetScreenBufferSize (CurrentScreenBuffer (gci w))));
      reflexivity.
Qed.


End MarkMode.

(** C6, counterexample to the claim as stated: at column 3 of a filled row
    the cell immediately left (column 2) is a leading half and the cell two
    to the left (column 1) is no glyph half, so the claim gives a step of 1
    column; the navigator steps 2 columns, from column 3 to column 1. *)
Lemma mark_mode_left_step_is_two :
  @is_trailing sample_decls (KAttrAt mark_console (mkCOORD 2 0)) = false
  /\ @is_leading sample_decls (KAttrAt mark_console (mkCOORD 2 0)) = true
  /\ @is_trailing sample_decls (KAttrAt mark_console (mkCOORD 1 0)) = false
  /\ @spec_left_step sample_decls mark_console (mkCOORD 3 0) = 1
  /\ @NextLeftX sample_decls mark_console (mkCOORD 3 0) = 2
  /\ GetPosition (cursor_of (gci (snd
       (@_HandleMarkModeSelectionNav (keys_down []) sample_decls sample_methods
          (plain_key VK_LEFT) (mark_world false)))))
     = mkCOORD 1 0.
Proof.
  repeat split; vm_compute; reflexivity.
Qed.



(** ** Color selection and the dispatcher *)

Section ColorAndDispatch.

Context {input : IInputServices} {decls : HostDecls} {methods : SelectionMethods}.

(** The facts about a 4-bit color index, checked on each of its 16
    values. *)
Lemma nibble_facts (n : Z) :
  0 <= n <= 15 ->
  Z.land n 0x0f = n /\ Z.land n 0xf0 = 0
  /\ to_ulong (Z.shiftl n 4) = n * 16
  /\ Z.land (n * 16) 0x0f = 0 /\ Z.shiftr (n * 16) 4 = n.
Proof.
  intros Hn.
  pose (check := fun i : Z =>
    (Z.land i 0x0f =? i) && (Z.land i 0xf0 =? 0)
    && (to_ulong (Z.shiftl i 4) =? i * 16)
    && (Z.land (i * 16) 0x0f =? 0) && (Z.shiftr (i * 16) 4 =? i)).
  assert (Hcheck : check n = true).
  { apply (forallb_columns check 16); [vm_compute; reflexivity | lia]. }
  unfold check in Hcheck.
  repeat (apply andb_true_iff in Hcheck; destruct Hcheck as [Hcheck ?]).
  zbool. auto.
Qed.

Lemma low_nibble_of_foreground (n legacy : Z) :
  0 <= n <= 15 ->
  Z.land (Z.lor n (Z.land legacy 0xf0)) 0x0f = n
  /\ Z.land (Z.lor n (Z.land legacy 0xf0)) 0xf0 = Z.land legacy 0xf0.
Proof.
  intros Hn. destruct (nibble_facts Hn) as (Hlow & Hhigh & _).
  rewrite !Z.land_lor_distr_l, <- !Z.land_assoc, Hlow, Hhigh.
  change (Z.land 0xf0 0x0f) with 0. change (Z.land 0xf0 0xf0) with 0xf0.
  rewrite Z.land_0_r, Z.lor_0_r. auto.
Qed.

Lemma high_nibble_of_background (n : Z) :
  0 <= n <= 15 ->
  to_ulong (Z.shiftl n 4) = n * 16
  /\ Z.land (n * 16) 0x0f = 0
  /\ Z.shiftr (n * 16) 4 = n.
Proof.
  intros Hn. destruct (nibble_facts Hn) as (_ & _ & H). exact H.
Qed.

(** C7. For every digit key 0-9 the color selector returns handled exactly
    when Alt or Ctrl is held; with Alt held, Ctrl counts as not held. The
    color attribute it hands to ColorSelection, or to SearchForString when
    Shift is honored, is computed from digit - '0' + 6: with Ctrl and
    without Alt it is that value in the high nibble with the low
    (foreground) nibble zero; with Alt it is that value in the low nibble,
    merged with the background nibble of the current screen attributes. *)
Theorem color_selection_attribute :
  forall (k : INPUT_KEY_INFO) (w : World),
    chr_0 <= GetVirtualKey k <= chr_9 ->
    let color := GetVirtualKey k - chr_0 + 6 in
    let legacy := GetLegacyAttributes (CurrentScreenBuffer (gci w)) in
    let ulAttr :=
      if IsAltPressed k then Z.lor color (Z.land legacy 0xf0) else color * 16 in
    let w' := snd (_HandleColorSelection k w) in
    fst (_HandleColorSelection k w) = IsAltPressed k || IsCtrlPressed k
    /\ (IsAltPressed k || IsCtrlPressed k = true ->
        (exists psrRect : SMALL_RECT,
            trace w' = trace w ++ [Call_ColorSelection psrRect ulAttr;
                                   Call_ClearSelection])
        \/ (exists (pwszSearchString : list Z) (cLength : Z),
               trace w' = trace w ++ [Call_ClearSelection;
                                      Call_SearchForString pwszSearchString
                                                           cLength ulAttr]))
    /\ (IsAltPressed k = false ->
        Z.land ulAttr 0x0f = 0 /\ Z.shiftr ulAttr 4 = color)
    /\ (IsAltPressed k = true ->
        Z.land ulAttr 0x0f = color /\ Z.land ulAttr 0xf0 = Z.land legacy 0xf0).
Proof.
  intros k w Hdigit color legacy ulAttr w'.
  assert (Hcolor : 0 <= color <= 15) by (unfold color, chr_0, chr_9 in *; lia).
  assert (Hulong : to_ulong color = color).
  { unfold to_ulong. apply Z.mod_small. lia. }
  destruct (low_nibble_of_foreground legacy Hcolor) as [Hlow Hhigh].
  destruct (high_nibble_of_background Hcolor) as (Hshift & Hzero & Hback).
  unfold w', ulAttr, _HandleColorSelection. fold color. fold legacy.
  rewrite Hulong.
  set (fShift := if IsShiftPressed k
                     && (negb (IsAreaSelected w)
                         || negb (Top (_srSelectionRect (sel w))
                                  =? Bottom (_srSelectionRect (sel w))))
                  then false else IsShiftPressed k).
  destruct (IsAltPressed k) eqn:EA; cbn [negb orb].
  - destruct fShift; cbn [fst snd trace call emit on_sel host].
    + split; [reflexivity|]. split.
      * intros _. right. rewrite <- app_assoc. do 2 eexists. reflexivity.
      * split; [discriminate|]. auto.
    + split; [reflexivity|]. split.
      * intros _. left. rewrite <- app_assoc. eexists. reflexivity.
      * split; [discriminate|]. auto.
  - rewrite Hshift.
    destruct (IsCtrlPressed k) eqn:EC.
    + destruct fShift; cbn [fst snd trace call emit on_sel host].
      * split; [reflexivity|]. split.
        -- intros _. right. rewrite <- app_assoc. do 2 eexists. reflexivity.
        -- split; [auto|discriminate].
      * split; [reflexivity|]. split.
        -- intros _. left. rewrite <- app_assoc. eexists. reflexivity.
        -- split; [auto|discriminate].
    + split; [reflexivity|]. split; [discriminate|]. split; [auto|discriminate].
Qed.

(** C9. A bare digit, with neither Alt nor Ctrl held, is not handled by the
    color selector, and yet the stored selection rectangle has been clipped
    to the screen buffer in place: the rectangle on return is the clipped
    one, whatever it was, and nothing else of the state changes; so the
    not-handled path changes the state whenever the rectangle reached
    outside the buffer. *)
Theorem color_selection_clips_unhandled :
  forall (k : INPUT_KEY_INFO) (w : World),
    IsAltPressed k = false ->
    IsCtrlPressed k = false ->
    let clipped :=
      ClipToScreenBuffer (CurrentScreenBuffer (gci w)) (_srSelectionRect (sel w)) in
    _HandleColorSelection k w = (false, on_sel (set_rect clipped) w)
    /\ _srSelectionRect (sel (snd (_HandleColorSelection k w))) = clipped
    /\ (clipped <> _srSelectionRect (sel w) ->
        sel (snd (_HandleColorSelection k w)) <> sel w).
Proof.
  intros k w Halt Hctrl clipped.
  assert (H : _HandleColorSelection k w = (false, on_sel (set_rect clipped) w)).
  { unfold _HandleColorSelection. rewrite Halt, Hctrl. reflexivity. }
  rewrite H. split; [reflexivity|]. split; [reflexivity|].
  intros Hne Heq. apply Hne. simpl in Heq.
  change clipped with (_srSelectionRect (set_rect clipped (sel w))).
  rewrite Heq. reflexivity.
Qed.

Lemma first_block_falls_through (k : INPUT_KEY_INFO) (w w1 : World) :
  first_block k w = inr w1 ->
  IsMouseButtonDown w = false ->
  GetVirtualKey k <> VK_ESCAPE
  /\ is_copy_key (GetVirtualKey k) = false
  /\ (GetEnableColorSelection (gci w)
      && (chr_0 <=? GetVirtualKey k) && (chr_9 >=? GetVirtualKey k) = true ->
      fst (_HandleColorSelection k w) = false
      /\ w1 = snd (_HandleColorSelection k w))
  /\ (GetEnableColorSelection (gci w)
      && (chr_0 <=? GetVirtualKey k) && (chr_9 >=? GetVirtualKey k) = false ->
      w1 = w).
Proof.
  unfold first_block. intros H Hdown. rewrite Hdown in H. cbn [negb] in H.
  destruct (GetVirtualKey k =? VK_ESCAPE) eqn:E1; [discriminate|].
  destruct (is_copy_key (GetVirtualKey k)) eqn:E2; [discriminate|].
  zbool. split; [assumption|]. split; [reflexivity|].
  destruct (GetEnableColorSelection (gci w)
            && (chr_0 <=? GetVirtualKey k) && (chr_9 >=? GetVirtualKey k)).
  - destruct (_HandleColorSelection k w) as [[|] w2]; [discriminate|].
    inversion H; subst. split; [auto|discriminate].
  - inversion H; subst. split; [discriminate|auto].
Qed.

Lemma line_selection_unhandled (k : INPUT_KEY_INFO) (w w2 : World) :
  HandleKeyboardLineSelectionEvent k w = Some (false, w2) -> w2 = w.
Proof.
  unfold HandleKeyboardLineSelectionEvent.
  destruct (s_IsValidKeyboardLineSelection k); cbn [negb].
  - cbv zeta. break_if; [discriminate|].
    destruct (moved_point _ _ _ _ _); discriminate.
  - intros H. inversion H. reflexivity.
Qed.

(** C8. At the rule of the dispatcher that is reached once its first block
    has not returned (the key is not Escape, not Enter, Ctrl+C or
    Ctrl+Insert, and not a digit that the color selector handled): when the
    selection is mouse-initiated, no mouse button is held, the
    line-selection extender did not handle the key and the key is not a
    system key, the dispatcher calls ClearSelection and still returns
    EventNotHandled. *)
Theorem mouse_selection_cancelled_unhandled :
  forall (k : INPUT_KEY_INFO) (w w1 : World),
    first_block k w = inr w1 ->
    IsMouseInitiatedSelection w1 = true ->
    IsMouseButtonDown w1 = false ->
    (IsLineSelection w1 = true ->
     exists w2, HandleKeyboardLineSelectionEvent k w1 = Some (false, w2)) ->
    IsSystemKey (GetVirtualKey k) = false ->
    HandleKeySelectionEvent k w
    = Some (EventNotHandled, call Call_ClearSelection ClearSelection w1)
    /\ (IsMouseButtonDown w = false ->
        GetVirtualKey k <> VK_ESCAPE /\ is_copy_key (GetVirtualKey k) = false).
Proof.
  intros k w w1 Hfirst Hmouse Hdown Hline Hsys. split.
  - unfold HandleKeySelectionEvent. rewrite Hfirst.
    unfold second_block. rewrite Hmouse, Hdown, Hsys. cbn [negb].
    destruct (IsLineSelection w1) eqn:EL; [|reflexivity].
    destruct (Hline eq_refl) as [w2 Hw2].
    rewrite Hw2. apply line_selection_unhandled in Hw2. subst w2. reflexivity.
  - intros Hd. destruct (first_block_falls_through k w Hfirst Hd) as (H1 & H2 & _).
    auto.
Qed.

End ColorAndDispatch.

Lemma color_selection_attribute_witness :
  exists w' : World,
    @_HandleColorSelection sample_decls sample_methods
       (mkKey 51 false false true) mouse_world = (true, w')
    /\ trace w' = [Call_ColorSelection (mkRECT 0 0 2 0) 0xC9; Call_ClearSelection].
Proof.
  destruct (@color_selection_attribute sample_decls sample_methods
              (mkKey 51 false false true) mouse_world)
    as (Hhandled & Hcall & _ & Hfg).
  { unfold chr_0, chr_9. simpl. lia. }
  exists (snd (@_HandleColorSelection sample_decls sample_methods
                 (mkKey 51 false false true) mouse_world)).
  split.
  - rewrite (surjective_pairing (_HandleColorSelection _ _)).
    rewrite Hhandled. reflexivity.
  - reflexivity.
Defined.

Lemma color_selection_clips_unhandled_witness :
  fst (@_HandleColorSelection sample_decls sample_methods (plain_key 51) wide_world)
  = false
  /\ _srSelectionRect (sel wide_world) = mkRECT 0 0 100 0
  /\ _srSelectionRect (sel (snd
       (@_HandleColorSelection sample_decls sample_methods (plain_key 51) wide_world)))
     = mkRECT 0 0 79 0
  /\ sel (snd (@_HandleColorSelection sample_decls sample_methods
                 (plain_key 51) wide_world))
     <> sel wide_world.
Proof.
  destruct (@color_selection_clips_unhandled sample_decls sample_methods
              (plain_key 51) wide_world eq_refl eq_refl)
    as (Hres & Hrect & Hchanged).
  split; [rewrite Hres; reflexivity|].
  split; [reflexivity|].
  split; [rewrite Hrect; reflexivity|].
  apply Hchanged. discriminate.
Defined.

Lemma mouse_selection_cancelled_unhandled_witness :
  @HandleKeySelectionEvent (keys_down []) sample_decls sample_methods
     (plain_key 65) mouse_world
  = Some (EventNotHandled,
          call Call_ClearSelection (@ClearSelection sample_methods) mouse_world).
Proof.
  destruct (@mouse_selection_cancelled_unhandled (keys_down []) sample_decls
              sample_methods (plain_key 65) mouse_world mouse_world
              eq_refl eq_refl eq_refl)
    as [Hres _].
  - intros _. exists mouse_world. reflexivity.
  - reflexivity.
  - exact Hres.
Defined.

(** * Further properties of the selection code *)

(** ** Reading order and cell indices *)

Lemma compare_reading_order (a b : COORD) :
  (Utils.s_CompareCoords a b <= 0 <-> reading_le a b)
  /\ (Utils.s_CompareCoords a b = 0 <-> a = b)
  /\ (Utils.s_CompareCoords a b >= 0 <-> reading_le b a).
Proof.
  unfold Utils.s_CompareCoords, reading_le. destruct a as [xa ya], b as [xb yb].
  cbn [X Y].
  destruct (ya <? yb) eqn:E1; [zbool; repeat split; intros; try lia; try discriminate;
                               inversion H; lia|].
  destruct (yb <? ya) eqn:E2; [zbool; repeat split; intros; try lia; try discriminate;
                               inversion H; lia|].
  destruct (xa <? xb) eqn:E3; [zbool; repeat split; intros; try lia; try discriminate;
                               inversion H; lia|].
  destruct (xb <? xa) eqn:E4; [zbool; repeat split; intros; try lia; try discriminate;
                               inversion H; lia|].
  zbool. repeat split; intros; try lia. f_equal; lia.
Qed.

Section CellIndex.

Variable e : SMALL_RECT.

Lemma cell_index_bounds (p : COORD) :
  in_edges e p -> 0 <= cell_index e p <= last_index e.
Proof.
  unfold in_edges, cell_index, last_index. intros Hin. nia.
Qed.

Lemma cell_index_order (a b : COORD) :
  in_edges e a -> in_edges e b ->
  (reading_le a b <-> cell_index e a <= cell_index e b).
Proof.
  unfold in_edges, cell_index, reading_le. intros Ha Hb. split.
  - intros [H | [H1 H2]]; [nia | rewrite H1; lia].
  - intros H. destruct (Z_lt_le_dec (Y a) (Y b)) as [Hlt | Hge]; [auto|].
    right. assert (Y a = Y b) by nia. split; [assumption|]. nia.
Qed.

Lemma cell_index_injective (a b : COORD) :
  in_edges e a -> in_edges e b -> cell_index e a = cell_index e b -> a = b.
Proof.
  intros Ha Hb H.
  assert (H1 : reading_le a b) by (apply cell_index_order; auto; lia).
  assert (H2 : reading_le b a) by (apply cell_index_order; auto; lia).
  unfold reading_le in *. destruct a, b; cbn [X Y] in *. f_equal; lia.
Qed.

Lemma increment_index (p p' : COORD) :
  in_edges e p ->
  Utils.s_DoIncrementScreenCoordinate e p = (true, p') ->
  cell_index e p' = cell_index e p + 1.
Proof.
  unfold in_edges, cell_index, Utils.s_DoIncrementScreenCoordinate.
  intros Hin H. repeat break_if; inversion H; subst; cbn [X Y]; zbool; nia.
Qed.

Lemma decrement_index (p p' : COORD) :
  in_edges e p ->
  Utils.s_DoDecrementScreenCoordinate e p = (true, p') ->
  cell_index e p' = cell_index e p - 1.
Proof.
  unfold in_edges, cell_index, Utils.s_DoDecrementScreenCoordinate.
  intros Hin H. repeat break_if; inversion H; subst; cbn [X Y]; zbool; nia.
Qed.

Lemma increment_fails_at_last (p : COORD) :
  in_edges e p ->
  (fst (Utils.s_DoIncrementScreenCoordinate e p) = false
   <-> cell_index e p = last_index e).
Proof.
  unfold in_edges, cell_index, last_index, Utils.s_DoIncrementScreenCoordinate.
  intros Hin. repeat break_if; cbn [fst]; zbool; split; intros H;
    try discriminate; try reflexivity; nia.
Qed.

Lemma decrement_fails_at_first (p : COORD) :
  in_edges e p ->
  (fst (Utils.s_DoDecrementScreenCoordinate e p) = false <-> cell_index e p = 0).
Proof.
  unfold in_edges, cell_index, Utils.s_DoDecrementScreenCoordinate.
  intros Hin. repeat break_if; cbn [fst]; zbool; split; intros H;
    try discriminate; try reflexivity; nia.
Qed.

Lemma repeat_increment_index (n : nat) :
  forall p : COORD,
    in_edges e p ->
    cell_index e (snd (Utils.repeat_step (Utils.s_DoIncrementScreenCoordinate e) n p))
    = Z.min (cell_index e p + Z.of_nat n) (last_index e).
Proof.
  induction n as [|n IH]; intros p Hin.
  - pose proof (cell_index_bounds Hin). cbn [Utils.repeat_step snd]. lia.
  - pose proof (cell_index_bounds Hin) as Hb.
    pose proof (increment_fails_at_last Hin) as Hlast.
    cbn [Utils.repeat_step].
    destruct (Utils.s_DoIncrementScreenCoordinate e p) as [[|] p'] eqn:E.
    + rewrite IH by eauto using increment_in_edges.
      rewrite (increment_index Hin E).
      assert (cell_index e p <> last_index e).
      { intros Hc. apply Hlast in Hc. discriminate. }
      lia.
    + cbn [snd]. apply increment_failure in E. subst p'.
      assert (cell_index e p = last_index e) by (apply Hlast; reflexivity).
      lia.
Qed.

Lemma repeat_decrement_index (n : nat) :
  forall p : COORD,
    in_edges e p ->
    cell_index e (snd (Utils.repeat_step (Utils.s_DoDecrementScreenCoordinate e) n p))
    = Z.max (cell_index e p - Z.of_nat n) 0.
Proof.
  induction n as [|n IH]; intros p Hin.
  - pose proof (cell_index_bounds Hin). cbn [Utils.repeat_step snd]. lia.
  - pose proof (cell_index_bounds Hin) as Hb.
    pose proof (decrement_fails_at_first Hin) as Hfirst.
    cbn [Utils.repeat_step].
    destruct (Utils.s_DoDecrementScreenCoordinate e p) as [[|] p'] eqn:E.
    + rewrite IH by eauto using decrement_in_edges.
      rewrite (decrement_index Hin E).
      assert (cell_index e p <> 0).
      { intros Hc. apply Hfirst in Hc. discriminate. }
      lia.
    + cbn [snd]. apply decrement_failure in E. subst p'.
      assert (cell_index e p = 0) by (apply Hfirst; reflexivity).
      lia.
Qed.

(** The translation by an offset in index terms: the index moves by the
    offset and stops at the corners of the buffer. *)
Lemma add_to_position_index (iAdd : Z) (p : COORD) :
  in_edges e p ->
  cell_index e (snd (Utils.s_AddToPosition e iAdd p))
  = Z.max 0 (Z.min (cell_index e p + iAdd) (last_index e)).
Proof.
  intros Hin. pose proof (cell_index_bounds Hin). unfold Utils.s_AddToPosition.
  destruct (0 <=? iAdd) eqn:E; zbool.
  - rewrite repeat_increment_index by assumption. lia.
  - rewrite repeat_decrement_index by assumption. lia.
Qed.

Lemma cells_ahead_index (fReverse : bool) (p : COORD) :
  cells_ahead fReverse e p
  = if fReverse then cell_index e p else last_index e - cell_index e p.
Proof.
  unfold cells_ahead, cell_index, last_index. destruct fReverse; lia.
Qed.

End CellIndex.

(** ** Boundaries *)

Lemma reading_le_trans (a b c : COORD) :
  reading_le a b -> reading_le b c -> reading_le a c.
Proof.
  unfold reading_le. lia.
Qed.

(** X1. s_IsWithinBoundaries is membership in the inclusive range of the
    reading order: a position is within the boundaries exactly when the
    start is not after it and it is not after the end. A position is within
    the range that starts and ends on it, and no position is within a range
    whose end lies before its start. *)
Theorem within_boundaries_reading_order :
  forall coordPosition coordStart coordEnd : COORD,
    (s_IsWithinBoundaries coordPosition coordStart coordEnd = true
     <-> reading_le coordStart coordPosition /\ reading_le coordPosition coordEnd)
    /\ s_IsWithinBoundaries coordPosition coordPosition coordPosition = true
    /\ (~ reading_le coordStart coordEnd ->
        s_IsWithinBoundaries coordPosition coordStart coordEnd = false).
Proof.
  assert (Hiff : forall p a c, s_IsWithinBoundaries p a c = true
                                <-> reading_le a p /\ reading_le p c).
  { intros p a c. unfold s_IsWithinBoundaries.
    destruct (compare_reading_order a p) as (Hap & _ & _).
    destruct (compare_reading_order p c) as (Hpc & _ & _).
    destruct (Utils.s_CompareCoords a p <=? 0) eqn:E1;
      destruct (Utils.s_CompareCoords p c <=? 0) eqn:E2; zbool;
      split; intros H; try discriminate; try reflexivity;
      try (split; [apply Hap | apply Hpc]; lia);
      destruct H as [H1 H2]; apply Hap in H1; apply Hpc in H2; lia. }
  intros p a c. split; [apply Hiff|]. split.
  - apply Hiff. unfold reading_le. lia.
  - intros Hnot. destruct (s_IsWithinBoundaries p a c) eqn:E; [|reflexivity].
    exfalso. apply Hnot. apply Hiff in E. destruct E.
    eauto using reading_le_trans.
Qed.

(** The end of the edit line in index terms, when its recorded start is
    inside the buffer. *)
Lemma input_line_end_index (g : CONSOLE_INFORMATION) (coordStart coordEnd : COORD) :
  in_edges (s_GetCurrentBufferEdges g) coordStart ->
  s_GetInputLineBoundaries g = Some (coordStart, coordEnd) ->
  exists cChars : Z,
    0 < cChars
    /\ (forall crd, lpCookedReadData g = Some crd -> _NumberOfVisibleChars crd = cChars)
    /\ in_edges (s_GetCurrentBufferEdges g) coordEnd
    /\ cell_index (s_GetCurrentBufferEdges g) coordEnd
       = Z.max 0 (Z.min (cell_index (s_GetCurrentBufferEdges g) coordStart + cChars)
                        (last_index (s_GetCurrentBufferEdges g)) - 1).
Proof.
  intros Hin. unfold s_GetInputLineBoundaries.
  destruct (lpCookedReadData g) as [crd|]; [|discriminate].
  destruct (_NumberOfVisibleChars crd <=? 0) eqn:En; [discriminate|]. zbool.
  intros H. inversion H; subst; clear H.
  set (e := s_GetCurrentBufferEdges g) in *.
  assert (Hsent : (X (_OriginalCursorPosition crd) <? 0)
                  && (Y (_OriginalCursorPosition crd) <? 0) = false).
  { destruct Hin as [Hx _]. assert (HL : Left e = 0) by reflexivity.
    apply andb_false_iff. left. apply Z.ltb_ge. lia. }
  rewrite Hsent.
  exists (_NumberOfVisibleChars crd). split; [assumption|].
  split; [intros c Hc; inversion Hc; reflexivity|].
  pose proof (@add_to_position_in_edges e (_NumberOfVisibleChars crd) _ Hin) as Hmid.
  split; [now apply add_to_position_in_edges|].
  rewrite (add_to_position_index (-1) Hmid).
  rewrite (add_to_position_index (_NumberOfVisibleChars crd) Hin).
  pose proof (cell_index_bounds Hin). lia.
Qed.

(** X2. An edit line whose recorded start lies inside the buffer: the
    boundaries are available exactly because it has visible characters, the
    end lies inside the buffer, and its position in reading order is that
    of the start plus the visible-character count, capped at the last cell
    of the buffer, minus one. The end is not before the start unless the start is the very
    last cell of the buffer, and when the cell after the last character
    still lies in the buffer the span from start to end has exactly as many
    cells as visible characters. *)
Theorem input_line_span :
  forall (g : CONSOLE_INFORMATION) (pCookedReadData : COOKED_READ_DATA),
    lpCookedReadData g = Some pCookedReadData ->
    0 < _NumberOfVisibleChars pCookedReadData ->
    let e := s_GetCurrentBufferEdges g in
    let coordStart := _OriginalCursorPosition pCookedReadData in
    let cChars := _NumberOfVisibleChars pCookedReadData in
    in_edges e coordStart ->
    exists coordEnd : COORD,
      s_GetInputLineBoundaries g = Some (coordStart, coordEnd)
      /\ in_edges e coordEnd
      /\ cell_index e coordEnd
         = Z.max 0 (Z.min (cell_index e coordStart + cChars) (last_index e) - 1)
      /\ (cell_index e coordStart < last_index e -> reading_le coordStart coordEnd)
      /\ (cell_index e coordStart + cChars <= last_index e ->
          cell_index e coordEnd - cell_index e coordStart + 1 = cChars)
      /\ (cell_index e coordStart = last_index e -> 0 < last_index e ->
          ~ reading_le coordStart coordEnd).
Proof.
  intros g crd Hcrd Hn e start n Hin.
  assert (Hsome : exists coordEnd,
             s_GetInputLineBoundaries g = Some (start, coordEnd)).
  { unfold s_GetInputLineBoundaries. rewrite Hcrd.
    destruct (_NumberOfVisibleChars crd <=? 0) eqn:E; [zbool; lia|]. eauto. }
  destruct Hsome as [fin Hfin]. exists fin. split; [exact Hfin|].
  destruct (input_line_end_index Hin Hfin) as (c & Hc & Hcount & Hfin_in & Hidx).
  specialize (Hcount crd Hcrd). subst c. fold n in Hidx, Hc, Hn.
  fold e in Hidx, Hfin_in.
  pose proof (cell_index_bounds Hin) as Hb. fold e in Hb.
  split; [assumption|]. split; [assumption|]. split; [|split].
  - intros Hlt. apply (cell_index_order Hin Hfin_in). fold e. lia.
  - intros Hfit. lia.
  - intros Hlast Hpos Hle. apply (cell_index_order Hin Hfin_in) in Hle.
    fold e in Hle. lia.
Qed.

Lemma input_line_span_witness :
  exists coordEnd : COORD,
    s_GetInputLineBoundaries edit_line_console = Some (mkCOORD 4 10, coordEnd)
    /\ reading_le (mkCOORD 4 10) coordEnd.
Proof.
  destruct (@input_line_span edit_line_console (mkCooked 12 (mkCOORD 4 10)) eq_refl)
    as (coordEnd & Hres & _ & _ & Hle & _).
  { simpl. lia. }
  { unfold in_edges. simpl. lia. }
  exists coordEnd. split; [exact Hres|]. apply Hle. vm_compute. reflexivity.
Defined.

(** ** Word-by-word selection: direction and limits *)

Section WordScanOrder.

Context {decls : HostDecls}.
Variable g : CONSOLE_INFORMATION.
Variable fReverse : bool.
Variable e : SMALL_RECT.
Variables coordMaxLeft coordMaxRight : COORD.

(** The loop only moves in the scan direction, and by at least one cell
    when it ends with fMoveSucceeded. *)
Lemma scan_loop_progress (fuel : nat) :
  forall (p p' : COORD) (fCurrIsDelim ok : bool),
    in_edges e p ->
    scan_loop fuel g fReverse e coordMaxLeft coordMaxRight p fCurrIsDelim
      = Some (p', ok) ->
    cells_ahead fReverse e p' <= cells_ahead fReverse e p
    /\ (ok = true -> cells_ahead fReverse e p' < cells_ahead fReverse e p).
Proof.
  induction fuel as [|fuel IH]; intros p p' cur ok Hin H; simpl in H; try discriminate.
  destruct (scan_body g fReverse e coordMaxLeft coordMaxRight p cur)
    as [q | q fCurr fAgain] eqn:EB.
  - inversion H; subst. apply scan_body_break_point in EB. subst.
    split; [lia|discriminate].
  - apply scan_body_moved in EB. destruct EB as (ES & _ & _).
    pose proof (scan_step_cells_ahead _ Hin ES) as Hstep.
    destruct fAgain.
    + apply IH in H; [|eauto using scan_step_in_edges]. lia.
    + inversion H; subst. lia.
Qed.

(** The loop does not pass a right limit inside the buffer when scanning
    forward, nor a left limit inside the buffer when scanning in reverse. *)
Lemma scan_loop_inside_limit (fuel : nat) :
  forall (p p' : COORD) (fCurrIsDelim ok : bool),
    in_edges e p ->
    scan_loop fuel g fReverse e coordMaxLeft coordMaxRight p fCurrIsDelim
      = Some (p', ok) ->
    (fReverse = false -> in_edges e coordMaxRight ->
     cell_index e p <= cell_index e coordMaxRight ->
     cell_index e p' <= cell_index e coordMaxRight)
    /\ (fReverse = true -> in_edges e coordMaxLeft ->
        cell_index e coordMaxLeft <= cell_index e p ->
        cell_index e coordMaxLeft <= cell_index e p').
Proof.
  induction fuel as [|fuel IH]; intros p p' cur ok Hin H; simpl in H; try discriminate.
  destruct (scan_body g fReverse e coordMaxLeft coordMaxRight p cur)
    as [q | q fCurr fAgain] eqn:EB.
  - inversion H; subst. apply scan_body_break_point in EB. subst. auto.
  - assert (Hns : ~ scan_stops fReverse e coordMaxLeft coordMaxRight p).
    { intros Hs.
      apply (@scan_body_break decls g fReverse e coordMaxLeft coordMaxRight p cur)
        in Hs.
      destruct Hs as [x Hx]. congruence. }
    apply scan_body_moved in EB. destruct EB as (ES & _ & _).
    pose proof (scan_step_in_edges _ Hin ES) as Hq.
    assert (Hnext :
      (fReverse = false -> in_edges e coordMaxRight ->
       cell_index e p <= cell_index e coordMaxRight ->
       cell_index e q <= cell_index e coordMaxRight)
      /\ (fReverse = true -> in_edges e coordMaxLeft ->
          cell_index e coordMaxLeft <= cell_index e p ->
          cell_index e coordMaxLeft <= cell_index e q)).
    { split; intros Hr Hlim Hle; subst fReverse; unfold scan_step in ES; simpl in ES.
      - rewrite (increment_index Hin ES).
        assert (Hlt : ~ reading_le coordMaxRight p).
        { intros Hc. apply Hns. right; left.
          now apply (compare_reading_order p coordMaxRight). }
        rewrite (cell_index_order Hlim Hin) in Hlt. lia.
      - rewrite (decrement_index Hin ES).
        assert (Hne : cell_index e p <> cell_index e coordMaxLeft).
        { intros Hc. apply Hns. left.
          apply (compare_reading_order p coordMaxLeft).
          now apply (cell_index_injective Hin Hlim). }
        lia. }
    destruct fAgain.
    + apply IH in H; [|assumption]. destruct H as [H1 H2], Hnext as [N1 N2].
      split; intros Hr Hlim Hle; auto.
    + inversion H; subst. exact Hnext.
Qed.

(** The shape of a word-by-word selection inside the buffer: the loop ends,
    and the result is the point the loop ended on, or, after a loop that
    ended with fMoveSucceeded, the cell one step back from it. *)
Lemma word_scan_shape (coordAnchor p : COORD) :
  coordMaxLeft = fst (scan_limits g e) ->
  coordMaxRight = snd (scan_limits g e) ->
  in_edges e p ->
  let first := snd (scan_step fReverse e p) in
  exists (loop_end q : COORD) (ok : bool),
    scan_loop (scan_fuel e) g fReverse e coordMaxLeft coordMaxRight
              first (IS_WORD_DELIM (CharAt g first)) = Some (loop_end, ok)
    /\ WordByWordSelection g fReverse e coordAnchor p = Some q
    /\ in_edges e first /\ in_edges e loop_end /\ in_edges e q
    /\ (q = loop_end
        \/ (ok = true /\ scan_step (negb fReverse) e loop_end = (true, q)
            /\ cells_ahead fReverse e q = cells_ahead fReverse e loop_end + 1)).
Proof.
  intros HL HR Hin first.
  assert (Hfirst : in_edges e first) by (apply scan_step_snd_in_edges; assumption).
  destruct (@scan_loop_terminates decls g fReverse e coordMaxLeft coordMaxRight
              (scan_fuel e) first (IS_WORD_DELIM (CharAt g first)) Hfirst)
    as [[pl ok] Hloop].
  { pose proof (cells_ahead_bounds fReverse Hfirst). unfold scan_fuel. lia. }
  pose proof Hloop as Hexit. apply scan_loop_exit in Hexit; [|exact Hfirst].
  destruct Hexit as (Hpl & _ & Hmoved).
  unfold WordByWordSelection. fold first.
  destruct (scan_limits g e) as [l r]. simpl in HL, HR. subst l r. rewrite Hloop.
  destruct (ok && negb (unhighlighting fReverse first coordAnchor)) eqn:Eb.
  - apply andb_true_iff in Eb. destruct Eb as [Hok _]. subst ok.
    destruct (Hmoved eq_refl) as (q & fPrev & Hq & _ & Hbody).
    apply scan_body_moved in Hbody. destruct Hbody as (Hstep & _).
    pose proof (scan_step_back _ Hq Hstep) as Hback.
    pose proof (scan_step_cells_ahead _ Hq Hstep) as Hcells.
    exists pl, q, true. rewrite Hback. cbn [snd].
    split; [reflexivity|]. split; [reflexivity|].
    split; [assumption|]. split; [assumption|]. split; [assumption|].
    right. split; [reflexivity|]. split; [reflexivity|]. lia.
  - exists pl, pl, ok.
    split; [reflexivity|]. split; [reflexivity|].
    split; [assumption|]. split; [assumption|]. split; [assumption|]. now left.
Qed.

End WordScanOrder.

Section WordScanExtras.

Context {decls : HostDecls}.

(** X3. Inside the buffer WordByWordSelection returns a point inside the
    buffer, and it only ever moves the selection point in the scan
    direction: forward to a later cell, in reverse to an earlier one. It
    moves by at least one cell, except at the corner of the buffer that the
    scan direction leads to (the bottom-right corner forward, the top-left
    corner in reverse), where the first step fails and the point stays where
    it is. *)
Theorem word_scan_advances :
  forall (g : CONSOLE_INFORMATION) (fReverse : bool) (srectEdges : SMALL_RECT)
         (coordAnchor coordSelPoint : COORD),
    in_edges srectEdges coordSelPoint ->
    exists q : COORD,
      WordByWordSelection g fReverse srectEdges coordAnchor coordSelPoint = Some q
      /\ in_edges srectEdges q
      /\ (fst (scan_step fReverse srectEdges coordSelPoint) = false ->
          q = coordSelPoint)
      /\ (fst (scan_step fReverse srectEdges coordSelPoint) = true ->
          if fReverse
          then cell_index srectEdges q < cell_index srectEdges coordSelPoint
          else cell_index srectEdges coordSelPoint < cell_index srectEdges q)
      /\ (if fReverse then reading_le q coordSelPoint
          else reading_le coordSelPoint q).
Proof.
  intros g rev e anchor p Hin.
  destruct (@word_scan_shape decls g rev e _ _ anchor p eq_refl eq_refl Hin)
    as (pl & q & ok & Hloop & Hres & Hfirst & Hpl & Hq & Hshape).
  set (first := snd (scan_step rev e p)) in *.
  destruct (scan_loop_progress _ _ _ _ _ _ Hfirst Hloop) as [Hle Hlt].
  assert (Hqf : cells_ahead rev e q <= cells_ahead rev e first).
  { destruct Hshape as [-> | (Hok & _ & Hc)]; [assumption|].
    specialize (Hlt Hok). lia. }
  pose proof (cells_ahead_bounds rev Hq) as Hqb.
  pose proof (cells_ahead_bounds rev Hin) as Hpb.
  assert (Hcase :
    (fst (scan_step rev e p) = false -> cells_ahead rev e p = 0 /\ first = p)
    /\ (fst (scan_step rev e p) = true ->
        cells_ahead rev e first = cells_ahead rev e p - 1)).
  { unfold first. destruct (scan_step rev e p) as [[|] p'] eqn:ES; cbn [fst snd].
    - split; [discriminate|]. intros _. now apply scan_step_cells_ahead.
    - split; [|discriminate]. intros _.
      pose proof (scan_step_failure _ _ _ ES) as ->. split; [|reflexivity].
      rewrite cells_ahead_index. unfold scan_step in ES.
      destruct rev; cbn [negb] in ES.
      + apply (decrement_fails_at_first Hin). rewrite ES. reflexivity.
      + assert (cell_index e p = last_index e).
        { apply (increment_fails_at_last Hin). rewrite ES. reflexivity. }
        lia. }
  destruct Hcase as [Hfail Hmove].
  exists q. split; [exact Hres|]. split; [exact Hq|].
  rewrite !cells_ahead_index in *.
  split; [|split].
  - intros Hf. destruct (Hfail Hf) as [H0 Hfp]. rewrite Hfp in Hqf.
    apply (cell_index_injective Hq Hin). destruct rev; lia.
  - intros Hs. specialize (Hmove Hs). destruct rev; lia.
  - destruct (fst (scan_step rev e p)) eqn:Es.
    + specialize (Hmove eq_refl).
      destruct rev; [apply (cell_index_order Hq Hin) | apply (cell_index_order Hin Hq)];
        lia.
    + destruct (Hfail eq_refl) as [H0 Hfp]. rewrite Hfp in Hqf.
      destruct rev; [apply (cell_index_order Hq Hin) | apply (cell_index_order Hin Hq)];
        lia.
Qed.

(** X4. When the point reached by the first step is the left scan limit, or
    compares greater than or equal to the right scan limit, the loop breaks
    in its first pass and WordByWordSelection moves the selection point by
    that first step only, in either direction; so a reverse word selection
    that starts at or beyond the end of the edit line retreats one cell per
    key press. *)
Theorem word_scan_one_step_at_limit :
  forall (g : CONSOLE_INFORMATION) (fReverse : bool) (srectEdges : SMALL_RECT)
         (coordAnchor coordSelPoint : COORD),
    let first := snd (scan_step fReverse srectEdges coordSelPoint) in
    Utils.s_CompareCoords first (fst (scan_limits g srectEdges)) = 0
    \/ Utils.s_CompareCoords first (snd (scan_limits g srectEdges)) >= 0 ->
    WordByWordSelection g fReverse srectEdges coordAnchor coordSelPoint = Some first.
Proof.
  intros g rev e anchor p first Hlimit.
  unfold WordByWordSelection. fold first.
  destruct (scan_limits g e) as [maxL maxR]. cbn [fst snd] in Hlimit.
  unfold scan_fuel. cbn [scan_loop]. unfold scan_body.
  destruct (Utils.s_CompareCoords first maxL =? 0) eqn:EL; [reflexivity|].
  destruct (Utils.s_CompareCoords first maxR >=? 0) eqn:ER; [reflexivity|].
  zbool. lia.
Qed.

(** X5. The word-by-word selection is sticky within the scan limits: when
    the limits lie inside the buffer and the point reached by the first step
    is within them, the result is within them too, in either direction. *)
Theorem word_scan_sticky :
  forall (g : CONSOLE_INFORMATION) (fReverse : bool) (srectEdges : SMALL_RECT)
         (coordAnchor coordSelPoint : COORD),
    let first := snd (scan_step fReverse srectEdges coordSelPoint) in
    let coordMaxLeft := fst (scan_limits g srectEdges) in
    let coordMaxRight := snd (scan_limits g srectEdges) in
    in_edges srectEdges coordSelPoint ->
    in_edges srectEdges coordMaxLeft ->
    in_edges srectEdges coordMaxRight ->
    s_IsWithinBoundaries first coordMaxLeft coordMaxRight = true ->
    exists q : COORD,
      WordByWordSelection g fReverse srectEdges coordAnchor coordSelPoint = Some q
      /\ s_IsWithinBoundaries q coordMaxLeft coordMaxRight = true.
Proof.
  intros g rev e anchor p first maxL maxR Hin HL HR Hwithin.
  destruct (@word_scan_shape decls g rev e maxL maxR anchor p eq_refl eq_refl Hin)
    as (pl & q & ok & Hloop & Hres & Hfirst & Hpl & Hq & Hshape).
  fold first in Hloop, Hfirst.
  destruct (scan_loop_progress _ _ _ _ _ _ Hfirst Hloop) as [Hle Hlt].
  destruct (scan_loop_inside_limit _ _ _ _ _ _ Hfirst Hloop) as [Hright Hleft].
  assert (Hw : reading_le maxL first /\ reading_le first maxR).
  { unfold s_IsWithinBoundaries in Hwithin.
    destruct (Utils.s_CompareCoords maxL first <=? 0) eqn:E1; [|discriminate].
    destruct (Utils.s_CompareCoords first maxR <=? 0) eqn:E2; [|discriminate].
    zbool. split; [apply (compare_reading_order maxL first)
                  | apply (compare_reading_order first maxR)]; assumption. }
  destruct Hw as [Hw1 Hw2].
  apply (cell_index_order HL Hfirst) in Hw1.
  apply (cell_index_order Hfirst HR) in Hw2.
  rewrite !cells_ahead_index in *.
  exists q. split; [exact Hres|].
  assert (Hgoal : reading_le maxL q /\ reading_le q maxR).
  { split; [apply (cell_index_order HL Hq) | apply (cell_index_order Hq HR)].
    - destruct rev.
      + specialize (Hleft eq_refl HL Hw1).
        destruct Hshape as [-> | (Hok & _ & Hc)]; lia.
      + destruct Hshape as [-> | (Hok & _ & Hc)]; [lia|].
        specialize (Hlt Hok). lia.
    - destruct rev.
      + destruct Hshape as [-> | (Hok & _ & Hc)]; [lia|].
        specialize (Hlt Hok). lia.
      + specialize (Hright eq_refl HR Hw2).
        destruct Hshape as [-> | (Hok & _ & Hc)]; lia. }
  destruct Hgoal as [G1 G2].
  unfold s_IsWithinBoundaries.
  apply (compare_reading_order maxL q) in G1.
  apply (compare_reading_order q maxR) in G2.
  destruct (Utils.s_CompareCoords maxL q <=? 0) eqn:E1; [|zbool; lia].
  destruct (Utils.s_CompareCoords q maxR <=? 0) eqn:E2; [reflexivity|zbool; lia].
Qed.

End WordScanExtras.

Lemma word_scan_advances_witness :
  exists q : COORD,
    @WordByWordSelection sample_decls filled_console false sample_edges
       (mkCOORD 0 0) (mkCOORD 0 0) = Some q
    /\ reading_le (mkCOORD 0 0) q.
Proof.
  destruct (@word_scan_advances sample_decls filled_console false sample_edges
              (mkCOORD 0 0) (mkCOORD 0 0))
    as (q & Hres & _ & _ & _ & Hle).
  { unfold in_edges. simpl. lia. }
  exists q. split; [exact Hres | exact Hle].
Defined.

Lemma word_scan_one_step_at_limit_witness :
  @WordByWordSelection sample_decls edit_line_console true
     (s_GetCurrentBufferEdges edit_line_console) (mkCOORD 4 10) (mkCOORD 20 10)
  = Some (mkCOORD 19 10).
Proof.
  apply (@word_scan_one_step_at_limit sample_decls edit_line_console true
           (s_GetCurrentBufferEdges edit_line_console) (mkCOORD 4 10) (mkCOORD 20 10)).
  right. vm_compute. discriminate.
Defined.

Lemma word_scan_sticky_witness :
  exists q : COORD,
    @WordByWordSelection sample_decls edit_line_console false
       (s_GetCurrentBufferEdges edit_line_console) (mkCOORD 4 10) (mkCOORD 8 10)
    = Some q
    /\ s_IsWithinBoundaries q (mkCOORD 4 10) (mkCOORD 15 10) = true.
Proof.
  apply (@word_scan_sticky sample_decls edit_line_console false
           (s_GetCurrentBufferEdges edit_line_console) (mkCOORD 4 10) (mkCOORD 8 10)).
  - unfold in_edges. simpl. lia.
  - unfold in_edges. simpl. lia.
  - unfold in_edges. simpl. lia.
  - reflexivity.
Defined.

(** ** Line selection with the keyboard: further properties *)

Section LineSelectionExtras.

Context {decls : HostDecls} {methods : SelectionMethods}.

(** X6. The validity check predicts the line-selection handler: with the
    selection point inside the buffer the handler returns, and it returns
    true exactly for the key combinations that s_IsValidKeyboardLineSelection
    accepts. A rejected combination leaves the state as it was and makes no
    call. *)
Theorem line_selection_handled_iff_valid :
  forall (k : INPUT_KEY_INFO) (w : World),
    let w0 := emit Call_SetKeyboardTextSelectionUsed w in
    let w1 := if negb (IsInSelectingState w0) then start_line_selection w0 else w0 in
    (s_IsValidKeyboardLineSelection k = true ->
     in_edges (s_GetCurrentBufferEdges (gci w1))
              (selection_point (_coordSelectionAnchor (sel w1))
                               (_srSelectionRect (sel w1)))) ->
    exists w' : World,
      HandleKeyboardLineSelectionEvent k w
      = Some (s_IsValidKeyboardLineSelection k, w')
      /\ (s_IsValidKeyboardLineSelection k = false -> w' = w).
Proof.
  intros k w w0 w1 Hin. unfold HandleKeyboardLineSelectionEvent.
  destruct (s_IsValidKeyboardLineSelection k) eqn:Hvalid; cbn [negb].
  - cbv zeta. fold w0. fold w1.
    destruct (only_starts k w0); [exists w1; split; [reflexivity|discriminate]|].
    destruct (moved_point_total w1 k (_coordSelectionAnchor (sel w1)) (Hin eq_refl))
      as [q Hq].
    rewrite Hq. eexists. split; [reflexivity|discriminate].
  - exists w. split; reflexivity.
Qed.

(** X7. Shift+Ctrl+Up and Shift+Ctrl+Down do exactly what Shift+Up and
    Shift+Down do: for the same state the handler returns the same result
    and leaves the same state. *)
Theorem shift_ctrl_vertical_same :
  forall (k1 k2 : INPUT_KEY_INFO) (w : World),
    IsShiftOnly k1 = true ->
    IsShiftAndCtrlOnly k2 = true ->
    GetVirtualKey k1 = GetVirtualKey k2 ->
    GetVirtualKey k1 = VK_UP \/ GetVirtualKey k1 = VK_DOWN ->
    HandleKeyboardLineSelectionEvent k2 w = HandleKeyboardLineSelectionEvent k1 w.
Proof.
  intros k1 k2 w H1 H2 Hvk Hkey.
  assert (H2' : IsShiftOnly k2 = false).
  { unfold IsShiftOnly, IsShiftAndCtrlOnly in *.
    destruct (IsShiftPressed k2), (IsCtrlPressed k2), (IsAltPressed k2);
      simpl in *; congruence. }
  unfold HandleKeyboardLineSelectionEvent, s_IsValidKeyboardLineSelection,
    only_starts, moved_point, shift_ctrl_move, shift_move.
  rewrite H1, H2, H2', <- Hvk. cbv zeta.
  destruct Hkey as [Hk | Hk]; rewrite Hk;
    destruct (IsInSelectingState (emit Call_SetKeyboardTextSelectionUsed w));
    reflexivity.
Qed.

(** The Home and End cases of the switch, before the glyph check: they keep
    the row; in a sane console Home does not move the point to the right,
    End does not move it to the left, and Home applied twice gives column
    0. *)
Lemma home_end_switch :
  forall (g : CONSOLE_INFORMATION) (coordSelPoint : COORD),
    let e := s_GetCurrentBufferEdges g in
    let move vk p :=
      shift_move g vk e (GetScreenWindowSizeY (CurrentScreenBuffer g))
                 (s_GetInputLineBoundaries g) p in
    sane_console g ->
    in_edges e coordSelPoint ->
    Y (move VK_HOME coordSelPoint) = Y coordSelPoint
    /\ 0 <= X (move VK_HOME coordSelPoint) <= X coordSelPoint
    /\ move VK_HOME (move VK_HOME coordSelPoint) = mkCOORD 0 (Y coordSelPoint)
    /\ Y (move VK_END coordSelPoint) = Y coordSelPoint
    /\ X coordSelPoint <= X (move VK_END coordSelPoint) <= Right e.
Proof.
  intros g p e move Hsane Hin.
  pose proof (fun s t => @input_line_in_edges g s t Hsane) as Hline.
  pose proof (fun s t => @input_line_end_index g s t) as Hindex.
  fold e in Hline, Hindex.
  destruct Hsane as (Hright & _). fold e in Hright.
  assert (HL : Left e = 0) by reflexivity.
  assert (HT : Top e = 0) by reflexivity.
  destruct Hin as [Hx Hy].
  assert (Hhome : forall q, in_edges e q ->
            Y (move VK_HOME q) = Y q /\ 0 <= X (move VK_HOME q) <= X q
            /\ (X (move VK_HOME q) = 0
                \/ exists fin, s_GetInputLineBoundaries g
                               = Some (move VK_HOME q, fin))).
  { intros q [Hqx Hqy]. unfold move, shift_move.
    change (VK_HOME =? VK_LEFT) with false. change (VK_HOME =? VK_RIGHT) with false.
    change (VK_HOME =? VK_UP) with false. change (VK_HOME =? VK_DOWN) with false.
    change (VK_HOME =? VK_NEXT) with false. change (VK_HOME =? VK_PRIOR) with false.
    change (VK_HOME =? VK_HOME) with true. cbv beta iota.
    destruct (s_GetInputLineBoundaries g) as [[start fin]|] eqn:EI;
      [|cbn [X Y]; repeat split; auto; lia].
    destruct (Hline start fin eq_refl) as [_ Hstart].
    destruct (Utils.s_CompareCoords q start >? 0) eqn:E1;
      [|cbn [X Y]; repeat split; auto; lia].
    destruct (Y start =? Y q) eqn:E2; [|cbn [X Y]; repeat split; auto; lia].
    zbool. cbn [X Y].
    assert (Hgt : ~ reading_le q start).
    { intros Hc. apply (compare_reading_order q start) in Hc. lia. }
    unfold reading_le in Hgt.
    destruct Hstart as [[Hsx Hsy] | [Hsx Hsy]]; [|lia].
    split; [reflexivity|]. split; [lia|].
    right. exists fin. f_equal. f_equal. destruct start; cbn [X Y] in *.
    f_equal. lia. }
  destruct (Hhome p (conj Hx Hy)) as (Hy1 & Hx1 & Hwhere).
  split; [exact Hy1|]. split; [exact Hx1|]. split.
  - assert (Hin1 : in_edges e (move VK_HOME p)).
    { split; [lia | rewrite Hy1; assumption]. }
    destruct (Hhome _ Hin1) as (Hy2 & Hx2 & _).
    assert (X (move VK_HOME (move VK_HOME p)) = 0).
    { destruct Hwhere as [H0 | [fin Hfin]]; [lia|].
      unfold move at 1. unfold shift_move.
      change (VK_HOME =? VK_LEFT) with false. change (VK_HOME =? VK_RIGHT) with false.
      change (VK_HOME =? VK_UP) with false. change (VK_HOME =? VK_DOWN) with false.
      change (VK_HOME =? VK_NEXT) with false. change (VK_HOME =? VK_PRIOR) with false.
      change (VK_HOME =? VK_HOME) with true. cbv beta iota.
      rewrite Hfin.
      assert (E : Utils.s_CompareCoords (move VK_HOME p) (move VK_HOME p) = 0)
        by (apply compare_reading_order; reflexivity).
      rewrite E. reflexivity. }
    destruct (move VK_HOME (move VK_HOME p)) as [x y]. cbn [X Y] in *.
    f_equal; lia.
  - unfold move, shift_move.
    change (VK_END =? VK_LEFT) with false. change (VK_END =? VK_RIGHT) with false.
    change (VK_END =? VK_UP) with false. change (VK_END =? VK_DOWN) with false.
    change (VK_END =? VK_NEXT) with false. change (VK_END =? VK_PRIOR) with false.
    change (VK_END =? VK_HOME) with false. change (VK_END =? VK_END) with true.
    cbv beta iota zeta.
    destruct (s_GetInputLineBoundaries g) as [[start fin]|] eqn:EI;
      [|cbn [X Y]; lia].
    destruct (Hline start fin eq_refl) as [[Hfx Hfy] Hstart].
    destruct (Utils.s_CompareCoords p start >=? 0) eqn:E1.
    + destruct ((Y fin =? Y p) && (X p <? X fin)) eqn:E2; cbn [X Y]; [|lia].
      apply andb_true_iff in E2. destruct E2. zbool. lia.
    + destruct (Y start =? Y p) eqn:E2; [|cbn [X Y]; lia].
      zbool.
      destruct Hstart as [Hsin | [Hsx Hsy]]; [|lia].
      pose proof Hsin as [Hsx Hsy].
      rewrite to_short_small by lia.
      destruct (X p <? X start - 1) eqn:E3; [zbool; cbn [X Y]; lia|].
      destruct ((X p =? X start - 1) && (Y p =? Y fin)) eqn:E4; [|cbn [X Y]; lia].
      apply andb_true_iff in E4. destruct E4. zbool. cbn [X Y].
      destruct (Hindex start fin Hsin eq_refl) as (c & Hc & _ & _ & Hidx).
      pose proof (cell_index_bounds Hsin) as Hb.
      unfold cell_index in Hidx, Hb. fold e in Hidx, Hb.
      replace (Y fin) with (Y start) in Hidx by lia.
      fold e in Hfx. lia.
Qed.

(** X9. Shift+Right followed by Shift+Left, and Shift+Left followed by
    Shift+Right, bring the point handed to ExtendSelection back to where it
    was: for a selection point that is not on a trailing half and has two
    cells of the buffer on the side it first moves to, with paired glyph
    metadata for the step to the right. A double-width glyph on the way is
    crossed as a whole in both directions. *)
Theorem shift_right_left_round_trip :
  forall (g : CONSOLE_INFORMATION) (coordSelPoint : COORD),
    let e := s_GetCurrentBufferEdges g in
    in_edges e coordSelPoint ->
    is_trailing (KAttrAt g coordSelPoint) = false ->
    (glyphs_paired g e ->
     cell_index e coordSelPoint + 2 <= last_index e ->
     shift_extends_to g VK_LEFT (shift_extends_to g VK_RIGHT coordSelPoint)
     = coordSelPoint)
    /\ (2 <= cell_index e coordSelPoint ->
        shift_extends_to g VK_RIGHT (shift_extends_to g VK_LEFT coordSelPoint)
        = coordSelPoint).
Proof.
  intros g p e Hin Hp.
  assert (Hleft : forall q, shift_extends_to g VK_LEFT q
            = off_trailing g e (snd (Utils.s_DoDecrementScreenCoordinate e q)))
    by reflexivity.
  assert (Hright : forall q, shift_extends_to g VK_RIGHT q
            = off_trailing g e
                (let q1 := snd (Utils.s_DoIncrementScreenCoordinate e q) in
                 if is_trailing (KAttrAt g q1)
                 then snd (Utils.s_DoIncrementScreenCoordinate e q1) else q1))
    by reflexivity.
  assert (Hinc : forall q, in_edges e q -> cell_index e q < last_index e ->
            exists q', Utils.s_DoIncrementScreenCoordinate e q = (true, q')).
  { intros q Hq Hlt.
    destruct (Utils.s_DoIncrementScreenCoordinate e q) as [[|] q'] eqn:E; eauto.
    assert (cell_index e q = last_index e).
    { apply (increment_fails_at_last Hq). rewrite E. reflexivity. }
    lia. }
  assert (Hdec : forall q, in_edges e q -> 0 < cell_index e q ->
            exists q', Utils.s_DoDecrementScreenCoordinate e q = (true, q')).
  { intros q Hq Hlt.
    destruct (Utils.s_DoDecrementScreenCoordinate e q) as [[|] q'] eqn:E; eauto.
    assert (cell_index e q = 0).
    { apply (decrement_fails_at_first Hq). rewrite E. reflexivity. }
    lia. }
  destruct (off_trailing_cases g e p) as [Hp_clear _].
  split.
  - intros Hpaired Hroom.
    destruct (Hinc p Hin ltac:(lia)) as [p1 E1].
    pose proof (increment_in_edges Hin E1) as Hin1.
    pose proof (increment_index Hin E1) as Hidx1.
    pose proof (decrement_after_increment Hin E1) as Hback1.
    rewrite Hright, E1. cbn [snd]. cbv zeta.
    destruct (is_trailing (KAttrAt g p1)) eqn:Ht1.
    + destruct (Hinc p1 Hin1 ltac:(lia)) as [p2 E2].
      pose proof (increment_in_edges Hin1 E2) as Hin2.
      pose proof (decrement_after_increment Hin1 E2) as Hback2.
      rewrite E2. cbn [snd].
      assert (Ht2 : is_trailing (KAttrAt g p2) = false).
      { destruct (is_trailing (KAttrAt g p2)) eqn:Ht2; [|reflexivity].
        destruct (Hpaired p2 p1 Hin2 Ht2 Hback2) as [_ Hc]. congruence. }
      destruct (off_trailing_cases g e p2) as [Hc2 _]. rewrite (Hc2 Ht2).
      rewrite Hleft, Hback2. cbn [snd].
      destruct (off_trailing_cases g e p1) as [_ Hon1].
      destruct (Hon1 Ht1) as [Hl1 _]. apply Hl1. exact Hback1.
    + destruct (off_trailing_cases g e p1) as [Hc1 _]. rewrite (Hc1 Ht1).
      rewrite Hleft, Hback1. cbn [snd]. apply Hp_clear. exact Hp.
  - intros Hroom.
    destruct (Hdec p Hin ltac:(lia)) as [m E1].
    pose proof (decrement_in_edges Hin E1) as Hinm.
    pose proof (decrement_index Hin E1) as Hidxm.
    pose proof (increment_after_decrement Hin E1) as Hfwd1.
    rewrite Hleft, E1. cbn [snd].
    destruct (off_trailing_cases g e m) as [Hcm Hon].
    destruct (is_trailing (KAttrAt g m)) eqn:Htm.
    + destruct (Hdec m Hinm ltac:(lia)) as [m' E2].
      pose proof (increment_after_decrement Hinm E2) as Hfwd2.
      destruct (Hon eq_refl) as [Hl _]. rewrite (Hl m' E2).
      rewrite Hright, Hfwd2. cbn [snd]. cbv zeta. rewrite Htm, Hfwd1. cbn [snd].
      apply Hp_clear. exact Hp.
    + rewrite (Hcm eq_refl).
      rewrite Hright, Hfwd1. cbn [snd]. cbv zeta. rewrite Hp.
      apply Hp_clear. exact Hp.
Qed.

(** The PageUp and PageDown cases of the switch, before the glyph check. *)
Lemma page_switch :
  forall (g : CONSOLE_INFORMATION) (srectEdges : SMALL_RECT) (sWindowHeight : Z)
         (inputLine : option (COORD * COORD)) (coordSelPoint : COORD),
    0 <= Top srectEdges -> Bottom srectEdges <= 32767 ->
    0 <= sWindowHeight <= 32767 ->
    in_edges srectEdges coordSelPoint ->
    let down := shift_move g VK_NEXT srectEdges sWindowHeight inputLine coordSelPoint in
    let up := shift_move g VK_PRIOR srectEdges sWindowHeight inputLine coordSelPoint in
    up = mkCOORD (X coordSelPoint)
                 (Z.max (Top srectEdges) (Y coordSelPoint - sWindowHeight))
    /\ (Y coordSelPoint + sWindowHeight <= 32767 ->
        down = mkCOORD (X coordSelPoint)
                       (Z.min (Bottom srectEdges) (Y coordSelPoint + sWindowHeight)))
    /\ (32767 < Y coordSelPoint + sWindowHeight ->
        down = mkCOORD (X coordSelPoint) (Y coordSelPoint + sWindowHeight - 65536)
        /\ Y down < 0).
Proof.
  intros g e h il p HT HB Hh [Hx Hy] down up.
  unfold up, down, shift_move.
  change (VK_PRIOR =? VK_LEFT) with false. change (VK_PRIOR =? VK_RIGHT) with false.
  change (VK_PRIOR =? VK_UP) with false. change (VK_PRIOR =? VK_DOWN) with false.
  change (VK_PRIOR =? VK_NEXT) with false. change (VK_PRIOR =? VK_PRIOR) with true.
  change (VK_NEXT =? VK_LEFT) with false. change (VK_NEXT =? VK_RIGHT) with false.
  change (VK_NEXT =? VK_UP) with false. change (VK_NEXT =? VK_DOWN) with false.
  change (VK_NEXT =? VK_NEXT) with true. cbv beta iota zeta.
  split; [|split].
  - rewrite to_short_small by lia. break_if; zbool; f_equal; lia.
  - intros Hfit. rewrite to_short_small by lia. break_if; zbool; f_equal; lia.
  - intros Hover.
    assert (Hwrap : to_short (Y p + h) = Y p + h - 65536).
    { unfold to_short.
      replace (Y p + h + 32768) with (Y p + h - 32768 + 1 * 65536) by lia.
      rewrite Z.mod_add by lia. rewrite Z.mod_small; lia. }
    rewrite Hwrap. break_if; zbool; [lia|]. cbn [Y]. split; [reflexivity | lia].
Qed.

(** The glyph check in terms of cell indices: a point that is not on a
    trailing half is left alone; a point on a trailing half that is not the
    first cell of the buffer is replaced by the cell before it in reading
    order. *)
Lemma off_trailing_index (g : CONSOLE_INFORMATION) (e : SMALL_RECT) (p : COORD) :
  in_edges e p ->
  (is_trailing (KAttrAt g p) = false -> off_trailing g e p = p)
  /\ (is_trailing (KAttrAt g p) = true -> 0 < cell_index e p ->
      in_edges e (off_trailing g e p)
      /\ cell_index e (off_trailing g e p) = cell_index e p - 1).
Proof.
  intros Hin. destruct (off_trailing_cases g e p) as [Hclear Hon].
  split; [exact Hclear|]. intros Ht Hpos.
  destruct (Hon Ht) as [Hleft _].
  destruct (Utils.s_DoDecrementScreenCoordinate e p) as [[|] q] eqn:ED.
  - rewrite (Hleft q eq_refl). split.
    + exact (decrement_in_edges Hin ED).
    + exact (decrement_index Hin ED).
  - exfalso.
    assert (Hfail : fst (Utils.s_DoDecrementScreenCoordinate e p) = false)
      by (rewrite ED; reflexivity).
    apply (decrement_fails_at_first Hin) in Hfail. lia.
Qed.

(** X8. Shift+Home and Shift+End, as the point handed to ExtendSelection
    (the switch followed by the glyph check), in a sane console and from a
    selection point inside the buffer. When the cell the switch picks is not
    a trailing half, Home keeps the row and does not move the point to the
    right, End keeps the row, does not move the point to the left and stays
    left of or on the right edge; a second Home then reaches column 0 of the
    row, when that cell is not a trailing half either. When the cell the
    switch picks is a trailing half and not the first cell of the buffer,
    ExtendSelection receives the cell before it in reading order, which for
    column 0 is the last column of the row above. *)
Theorem home_end_direction :
  forall (g : CONSOLE_INFORMATION) (coordSelPoint : COORD),
    let e := s_GetCurrentBufferEdges g in
    let target vk p :=
      shift_move g vk e (GetScreenWindowSizeY (CurrentScreenBuffer g))
                 (s_GetInputLineBoundaries g) p in
    sane_console g ->
    in_edges e coordSelPoint ->
    (is_trailing (KAttrAt g (target VK_HOME coordSelPoint)) = false ->
     Y (shift_extends_to g VK_HOME coordSelPoint) = Y coordSelPoint
     /\ 0 <= X (shift_extends_to g VK_HOME coordSelPoint) <= X coordSelPoint
     /\ (is_trailing (KAttrAt g (mkCOORD 0 (Y coordSelPoint))) = false ->
         shift_extends_to g VK_HOME (shift_extends_to g VK_HOME coordSelPoint)
         = mkCOORD 0 (Y coordSelPoint)))
    /\ (is_trailing (KAttrAt g (target VK_END coordSelPoint)) = false ->
        Y (shift_extends_to g VK_END coordSelPoint) = Y coordSelPoint
        /\ X coordSelPoint <= X (shift_extends_to g VK_END coordSelPoint) <= Right e)
    /\ (forall vk : Z,
          vk = VK_HOME \/ vk = VK_END ->
          is_trailing (KAttrAt g (target vk coordSelPoint)) = true ->
          0 < cell_index e (target vk coordSelPoint) ->
          in_edges e (shift_extends_to g vk coordSelPoint)
          /\ cell_index e (shift_extends_to g vk coordSelPoint)
             = cell_index e (target vk coordSelPoint) - 1).
Proof.
  intros g p e target Hsane Hin.
  destruct (home_end_switch Hsane Hin) as (Hy1 & Hx1 & Htwice & Hy2 & Hx2).
  fold e in Hy1, Hx1, Htwice, Hy2, Hx2.
  change (shift_move g VK_HOME e (GetScreenWindowSizeY (CurrentScreenBuffer g))
            (s_GetInputLineBoundaries g) p) with (target VK_HOME p)
    in Hy1, Hx1, Htwice.
  change (shift_move g VK_END e (GetScreenWindowSizeY (CurrentScreenBuffer g))
            (s_GetInputLineBoundaries g) p) with (target VK_END p) in Hy2, Hx2.
  assert (Hext : forall vk q, shift_extends_to g vk q = off_trailing g e (target vk q))
    by reflexivity.
  split; [|split].
  - intros Hclear.
    assert (E1 : shift_extends_to g VK_HOME p = target VK_HOME p).
    { rewrite Hext. exact (proj1 (off_trailing_cases g e _) Hclear). }
    rewrite E1. split; [exact Hy1|]. split; [exact Hx1|].
    intros Hfirst. rewrite Hext.
    change (target VK_HOME (target VK_HOME p))
      with (shift_move g VK_HOME e (GetScreenWindowSizeY (CurrentScreenBuffer g))
              (s_GetInputLineBoundaries g) (target VK_HOME p)).
    rewrite Htwice. exact (proj1 (off_trailing_cases g e _) Hfirst).
  - intros Hclear.
    assert (E1 : shift_extends_to g VK_END p = target VK_END p).
    { rewrite Hext. exact (proj1 (off_trailing_cases g e _) Hclear). }
    rewrite E1. split; [exact Hy2 | exact Hx2].
  - intros vk Hvk Hon Hpos. rewrite Hext.
    assert (Hin' : in_edges e (target vk p))
      by (apply shift_move_in_edges; assumption).
    apply (off_trailing_index g Hin'); assumption.
Qed.

(** X10. Shift+PageUp and Shift+PageDown, as the point handed to
    ExtendSelection (the switch followed by the glyph check), from a
    selection point inside a buffer of SHORT coordinates. PageUp picks the
    cell of the same column that is the window height further up, stopping
    at the top row; PageDown picks the cell of the same column that is the
    window height further down, stopping at the bottom row, as long as the
    sum of row and window height fits in a SHORT. ExtendSelection receives
    that cell when it is not a trailing half, and the cell before it in
    reading order when it is a trailing half and not the first cell of the
    buffer. When the sum exceeds 32767 it wraps around, the test against the
    bottom row does not catch it, and the glyph check is run on a point on a
    negative row, outside the buffer. *)
Theorem page_moves :
  forall (g : CONSOLE_INFORMATION) (coordSelPoint : COORD),
    let e := s_GetCurrentBufferEdges g in
    let sWindowHeight := GetScreenWindowSizeY (CurrentScreenBuffer g) in
    let up := mkCOORD (X coordSelPoint)
                      (Z.max (Top e) (Y coordSelPoint - sWindowHeight)) in
    let down := mkCOORD (X coordSelPoint)
                        (Z.min (Bottom e) (Y coordSelPoint + sWindowHeight)) in
    let wrapped := mkCOORD (X coordSelPoint)
                           (Y coordSelPoint + sWindowHeight - 65536) in
    Bottom e <= 32767 ->
    0 <= sWindowHeight <= 32767 ->
    in_edges e coordSelPoint ->
    (is_trailing (KAttrAt g up) = false ->
     shift_extends_to g VK_PRIOR coordSelPoint = up)
    /\ (is_trailing (KAttrAt g up) = true -> 0 < cell_index e up ->
        cell_index e (shift_extends_to g VK_PRIOR coordSelPoint)
        = cell_index e up - 1)
    /\ (Y coordSelPoint + sWindowHeight <= 32767 ->
        (is_trailing (KAttrAt g down) = false ->
         shift_extends_to g VK_NEXT coordSelPoint = down)
        /\ (is_trailing (KAttrAt g down) = true -> 0 < cell_index e down ->
            cell_index e (shift_extends_to g VK_NEXT coordSelPoint)
            = cell_index e down - 1))
    /\ (32767 < Y coordSelPoint + sWindowHeight ->
        shift_extends_to g VK_NEXT coordSelPoint = off_trailing g e wrapped
        /\ Y wrapped < Top e
        /\ ~ in_edges e wrapped).
Proof.
  intros g p e h up down wrapped HB Hh Hin.
  assert (HT : Top e = 0) by reflexivity.
  destruct (@page_switch g e h (s_GetInputLineBoundaries g) p
              ltac:(lia) HB Hh Hin) as (Hup & Hdown & Hwrap).
  assert (Hext : forall vk q,
            shift_extends_to g vk q
            = off_trailing g e (shift_move g vk e h (s_GetInputLineBoundaries g) q))
    by reflexivity.
  pose proof Hin as [Hx Hy].
  assert (Hin_up : in_edges e up).
  { unfold up, in_edges. cbn [X Y]. split; [exact Hx | lia]. }
  assert (Hin_down : in_edges e down).
  { unfold down, in_edges. cbn [X Y]. split; [exact Hx | lia]. }
  split; [|split; [|split]].
  - intros Hclear. rewrite Hext, Hup. exact (proj1 (off_trailing_cases g e _) Hclear).
  - intros Hon Hpos. rewrite Hext, Hup.
    apply (off_trailing_index g Hin_up); assumption.
  - intros Hfit. specialize (Hdown Hfit). split.
    + intros Hclear. rewrite Hext, Hdown. exact (proj1 (off_trailing_cases g e _) Hclear).
    + intros Hon Hpos. rewrite Hext, Hdown.
      apply (off_trailing_index g Hin_down); assumption.
  - intros Hover. destruct (Hwrap Hover) as [Hw Hneg].
    rewrite Hext, Hw. split; [reflexivity|].
    unfold wrapped at 1. cbn [Y]. split; [lia|].
    unfold wrapped, in_edges. cbn [X Y]. lia.
Qed.

End LineSelectionExtras.

Lemma line_selection_handled_iff_valid_witness :
  exists w' : World,
    @HandleKeyboardLineSelectionEvent sample_decls sample_methods
       (shift_key VK_UP) bisect_world = Some (true, w').
Proof.
  destruct (@line_selection_handled_iff_valid sample_decls sample_methods
              (shift_key VK_UP) bisect_world) as (w' & Hres & _).
  { intros _. unfold in_edges. simpl. lia. }
  exists w'. exact Hres.
Defined.

Lemma shift_ctrl_vertical_same_witness :
  @HandleKeyboardLineSelectionEvent sample_decls sample_methods
     (shift_ctrl_key VK_UP) bisect_world
  = @HandleKeyboardLineSelectionEvent sample_decls sample_methods
      (shift_key VK_UP) bisect_world.
Proof.
  apply (@shift_ctrl_vertical_same sample_decls sample_methods
           (shift_key VK_UP) (shift_ctrl_key VK_UP) bisect_world);
    [reflexivity | reflexivity | reflexivity | left; reflexivity].
Defined.

Lemma edit_line_console_sane : sane_console edit_line_console.
Proof.
  unfold sane_console, in_edges. simpl. unfold s_csWindowHeight.
  repeat split; lia.
Qed.

Lemma home_end_direction_witness :
  @shift_extends_to sample_decls edit_line_console VK_HOME
     (@shift_extends_to sample_decls edit_line_console VK_HOME (mkCOORD 8 10))
  = mkCOORD 0 10.
Proof.
  destruct (@home_end_direction sample_decls edit_line_console (mkCOORD 8 10)
              edit_line_console_sane) as (Hhome & _).
  { unfold in_edges. simpl. lia. }
  destruct Hhome as (_ & _ & Htwice); [reflexivity|].
  apply Htwice. reflexivity.
Defined.

Lemma shift_right_left_round_trip_witness :
  @shift_extends_to sample_decls bisect_console VK_LEFT
     (@shift_extends_to sample_decls bisect_console VK_RIGHT (mkCOORD 27 0))
  = mkCOORD 27 0.
Proof.
  destruct (@shift_right_left_round_trip sample_decls bisect_console (mkCOORD 27 0))
    as [Hround _].
  { unfold in_edges. simpl. lia. }
  { reflexivity. }
  apply Hround.
  - exact bisect_glyphs_paired.
  - vm_compute. discriminate.
Defined.

Lemma page_moves_witness :
  @shift_extends_to sample_decls bisect_console VK_NEXT (mkCOORD 5 290)
  = mkCOORD 5 299
  /\ cell_index sample_edges
       (@shift_extends_to sample_decls bisect_console VK_NEXT (mkCOORD 28 1))
     = cell_index sample_edges (mkCOORD 28 81) - 1
  /\ @shift_extends_to sample_decls deep_console VK_NEXT (mkCOORD 0 32700)
     = mkCOORD 0 (-32756).
Proof.
  split; [|split].
  - destruct (@page_moves sample_decls bisect_console (mkCOORD 5 290))
      as (_ & _ & Hdown & _).
    { simpl. lia. }
    { simpl. unfold s_csWindowHeight. lia. }
    { unfold in_edges. simpl. lia. }
    destruct Hdown as [Hclear _]; [simpl; unfold s_csWindowHeight; lia|].
    apply Hclear. reflexivity.
  - destruct (@page_moves sample_decls bisect_console (mkCOORD 28 1))
      as (_ & _ & Hdown & _).
    { simpl. lia. }
    { simpl. unfold s_csWindowHeight. lia. }
    { unfold in_edges. simpl. lia. }
    destruct Hdown as [_ Hon]; [simpl; unfold s_csWindowHeight; lia|].
    apply Hon; [reflexivity | vm_compute; reflexivity].
  - destruct (@page_moves sample_decls deep_console (mkCOORD 0 32700))
      as (_ & _ & _ & Hover).
    { simpl. lia. }
    { simpl. unfold s_csWindowHeight. lia. }
    { unfold in_edges. simpl. lia. }
    destruct Hover as (Hres & _); [simpl; unfold s_csWindowHeight; lia|].
    rewrite Hres. reflexivity.
Defined.

(** ** Mark mode: further properties *)

Lemma sane_console_set_cursor (g : CONSOLE_INFORMATION) (c : Cursor) :
  sane_console g ->
  in_edges (s_GetCurrentBufferEdges g) (GetPosition c) ->
  sane_console (set_cursor c g).
Proof.
  unfold sane_console. intros (H1 & H2 & H3 & _ & H5) Hc.
  repeat split; try assumption; apply Hc.
Qed.

Lemma cursor_on_cursor (f : Cursor -> Cursor) (w : World) :
  cursor_of (gci (on_cursor f w)) = f (cursor_of (gci w)).
Proof.
  reflexivity.
Qed.

Section MarkModeExtras.

Context {input : IInputServices} {decls : HostDecls} {methods : SelectionMethods}.

(** In a sane console, with the saved cursor position inside the buffer,
    the end of the valid area is inside the buffer. *)
Lemma valid_end_in_edges (h : Host) :
  sane_console (gci h) ->
  in_edges (s_GetCurrentBufferEdges (gci h)) (_coordSavedCursorPosition (sel h)) ->
  in_edges (s_GetCurrentBufferEdges (gci h)) (snd (GetValidAreaBoundaries h)).
Proof.
  intros Hsane Hsaved. unfold GetValidAreaBoundaries. cbn [snd].
  destruct (s_GetInputLineBoundaries (gci h)) as [[start fin]|] eqn:EI.
  - now destruct (input_line_in_edges Hsane EI).
  - destruct Hsane as (_ & _ & _ & Hcur & _). break_if; assumption.
Qed.

(** X11. The mark-mode navigator keeps the cursor inside the buffer for
    every movement key, in a sane console whose window is at least one row
    high, with the saved cursor position inside the buffer, when the first
    column of the cursor's row is not a trailing half. (With a trailing half
    in the first column the step to the left of 2 or 3 columns can carry
    the cursor to column -1.) *)
Theorem mark_mode_cursor_stays_inside :
  forall (k : INPUT_KEY_INFO) (w : World),
    let e := s_GetCurrentBufferEdges (gci w) in
    let cursorPos := GetPosition (cursor_of (gci w)) in
    sane_console (gci w) ->
    in_edges e (_coordSavedCursorPosition (sel w)) ->
    1 <= GetScreenWindowSizeY (CurrentScreenBuffer (gci w)) ->
    is_trailing (KAttrAt (gci w) (mkCOORD 0 (Y cursorPos))) = false ->
    in_edges e (GetPosition (cursor_of (gci (mark_mode_move k w)))).
Proof.
  intros k w e pos Hsane Hsaved Hwin Hfirst.
  pose proof Hsane as (_ & _ & Hfit & [Hx Hy] & _).
  fold e in Hx, Hy, Hfit. fold pos in Hx, Hy.
  assert (HL : Left e = 0) by reflexivity.
  assert (HT : Top e = 0) by reflexivity.
  assert (HR : Right e = X (GetScreenBufferSize (CurrentScreenBuffer (gci w))) - 1)
    by reflexivity.
  assert (HB : Bottom e = Y (GetScreenBufferSize (CurrentScreenBuffer (gci w))) - 1)
    by reflexivity.
  unfold mark_mode_move. cbv zeta. fold pos.
  destruct (GetVirtualKey k =? VK_RIGHT).
  { destruct (X pos + NextRightX (gci w) pos <? _) eqn:E0; [|split; assumption].
    unfold NextRightX in *. cursor_simpl. fold pos.
    split; cbn [X Y]; [|assumption]. zbool. break_if; lia. }
  destruct (GetVirtualKey k =? VK_LEFT).
  { destruct (X pos >? 0) eqn:E0; [|split; assumption].
    cursor_simpl. fold pos. split; cbn [X Y]; [|assumption]. zbool.
    unfold KAttrAt in Hfirst. cbn [X Y] in Hfirst.
    unfold NextLeftX. destruct (X pos >? 0) eqn:E0'; [|zbool; lia].
    destruct (is_trailing (array_at _ (X pos - 1))) eqn:E1.
    - assert (X pos <> 1).
      { intros Hc. rewrite Hc in E1. change (1 - 1) with 0 in E1. congruence. }
      lia.
    - destruct (is_leading _); [|lia].
      destruct (X pos - 1 >? 0) eqn:E2; [|lia].
      destruct (is_trailing (array_at _ (X pos - 2))) eqn:E3; [|zbool; lia].
      assert (X pos <> 2).
      { intros Hc. rewrite Hc in E3. change (2 - 2) with 0 in E3. congruence. }
      zbool. lia. }
  destruct (GetVirtualKey k =? VK_UP).
  { destruct (Y pos >? 0) eqn:E0; [|split; assumption].
    cursor_simpl. fold pos. zbool. rewrite to_short_small by lia.
    split; cbn [X Y]; [assumption | lia]. }
  destruct (GetVirtualKey k =? VK_DOWN).
  { destruct (Y pos + 1 <? _) eqn:E0; [|split; assumption].
    cursor_simpl. fold pos. zbool. rewrite to_short_small by lia.
    split; cbn [X Y]; [assumption | lia]. }
  destruct (GetVirtualKey k =? VK_NEXT).
  { cursor_simpl. fold pos. rewrite to_short_small by lia.
    destruct (Y pos + _ >=? _) eqn:E0; cursor_simpl; fold pos;
      rewrite ?to_short_small by lia; zbool;
      split; cbn [X Y]; try assumption; lia. }
  destruct (GetVirtualKey k =? VK_PRIOR).
  { cursor_simpl. fold pos. rewrite to_short_small by lia.
    destruct (Y pos - _ <? 0) eqn:E0; cursor_simpl; fold pos;
      rewrite ?to_short_small by lia; zbool;
      split; cbn [X Y]; try assumption; lia. }
  destruct (GetVirtualKey k =? VK_END).
  { set (w1 := on_cursor (SetXPosition
                 (X (GetScreenBufferSize (CurrentScreenBuffer (gci w))) - 1)) w).
    assert (Hc1 : in_edges e (GetPosition (cursor_of (gci w1)))).
    { unfold w1. cursor_simpl. fold pos. split; cbn [X Y]; [lia | assumption]. }
    destruct (IsCtrlPressed k); [|exact Hc1].
    assert (Hsane1 : sane_console (gci w1)).
    { apply sane_console_set_cursor; assumption. }
    pose proof (@valid_end_in_edges w1 Hsane1 Hsaved) as [_ Hvy].
    destruct Hc1 as [Hc1x _].
    rewrite cursor_on_cursor. unfold SetYPosition. cbn [GetPosition X Y].
    split; cbn [X Y]; [exact Hc1x | exact Hvy]. }
  destruct (GetVirtualKey k =? VK_HOME).
  { destruct (IsCtrlPressed k); cursor_simpl; fold pos;
      split; cbn [X Y]; try assumption; lia. }
  split; assumption.
Qed.

(** X12. With Shift held the mark-mode navigator moves the cursor and
    extends the selection to the new cursor position with one call of
    ExtendSelection; it does not itself touch the anchor, the rectangle or
    the selection flags. The alternate-selection mode is sampled from the
    Alt key only when no area is selected yet; while an area is selected the
    Alt key is ignored. *)
Theorem mark_mode_extends_with_shift :
  forall (k : INPUT_KEY_INFO) (w : World),
    is_mark_mode_key (GetVirtualKey k) = true ->
    key_pressed VK_SHIFT = true ->
    let moved := mark_mode_move k w in
    let p := GetPosition (cursor_of (gci moved)) in
    exists h : Host,
      _HandleMarkModeSelectionNav k w
      = (true, mkWorld (ExtendSelection p h) (trace w ++ [Call_ExtendSelection p]))
      /\ gci h = gci moved
      /\ _coordSelectionAnchor (sel h) = _coordSelectionAnchor (sel w)
      /\ _srSelectionRect (sel h) = _srSelectionRect (sel w)
      /\ _dwSelectionFlags (sel h) = _dwSelectionFlags (sel w)
      /\ _fUseAlternateSelection (sel h)
         = if IsAreaSelected w then _fUseAlternateSelection (sel w)
           else key_pressed VK_MENU.
Proof.
  intros k w Hkey Hshift moved p.
  destruct (mark_mode_move_frame k w) as [Hsel Htrace].
  fold moved in Hsel, Htrace.
  assert (Harea : IsAreaSelected moved = IsAreaSelected w).
  { unfold IsAreaSelected. rewrite Hsel. reflexivity. }
  unfold _HandleMarkModeSelectionNav. rewrite Hkey, Hshift. fold moved.
  rewrite Harea.
  destruct (IsAreaSelected w); cbn [negb].
  - exists (host moved). split.
    + unfold call. rewrite Htrace. reflexivity.
    + rewrite Hsel. repeat split; reflexivity.
  - exists (host (CheckAndSetAlternateSelection moved)). split.
    + unfold call. change (trace (CheckAndSetAlternateSelection moved))
        with (trace moved). rewrite Htrace. reflexivity.
    + unfold CheckAndSetAlternateSelection, on_sel.
      cbn [host gci sel set_alternate _coordSelectionAnchor _srSelectionRect
           _dwSelectionFlags _fUseAlternateSelection].
      rewrite Hsel. repeat split; reflexivity.
Qed.

End MarkModeExtras.

Lemma mark_console_sane : sane_console mark_console.
Proof.
  unfold sane_console, in_edges. simpl. unfold s_csWindowHeight.
  repeat split; lia.
Qed.

Lemma mark_mode_cursor_stays_inside_witness :
  in_edges sample_edges
    (GetPosition (cursor_of (gci
       (@mark_mode_move sample_decls sample_methods
          (plain_key VK_LEFT) (mark_world false))))).
Proof.
  apply (@mark_mode_cursor_stays_inside sample_decls sample_methods
           (plain_key VK_LEFT) (mark_world false)).
  - exact mark_console_sane.
  - unfold in_edges. simpl. lia.
  - simpl. unfold s_csWindowHeight. lia.
  - reflexivity.
Defined.

(** Why the first column matters: on a bisecting row the cursor at column 1
    is carried to column -1 by the step to the left. *)
Lemma mark_mode_left_can_leave_buffer :
  GetPosition (cursor_of (gci
    (@mark_mode_move sample_decls sample_methods
       (plain_key VK_LEFT) bisect_mark_world)))
  = mkCOORD (-1) 0.
Proof.
  vm_compute. reflexivity.
Qed.

Lemma mark_mode_extends_with_shift_witness :
  exists h : Host,
    @_HandleMarkModeSelectionNav (keys_down [VK_SHIFT]) sample_decls sample_methods
       (plain_key VK_RIGHT) (mark_world false)
    = (true, mkWorld (@ExtendSelection sample_methods (mkCOORD 4 0) h)
                     [Call_ExtendSelection (mkCOORD 4 0)])
    /\ _fUseAlternateSelection (sel h) = false.
Proof.
  destruct (@mark_mode_extends_with_shift (keys_down [VK_SHIFT]) sample_decls
              sample_methods (plain_key VK_RIGHT) (mark_world false)
              eq_refl eq_refl)
    as (h & Hres & _ & _ & _ & _ & Halt).
  exists h. split; [exact Hres | exact Halt].
Defined.

(** ** Color selection and the dispatcher: further properties *)

Section DispatchExtras.

Context {input : IInputServices} {decls : HostDecls} {methods : SelectionMethods}.

(** X13. When Alt or Ctrl is held the color selector ends by clearing the
    selection, whose stored rectangle it has clipped. It searches instead of
    coloring exactly when Shift is held, an area is selected and the stored
    rectangle spans one row. The search string is read from the top row of
    the clipped rectangle, starting at its left column; it has cLength
    characters, never more than SEARCH_STRING_LENGTH, and as many as the
    rectangle is wide when that is less. Otherwise ColorSelection receives
    the clipped rectangle. *)
Theorem find_and_color_string :
  forall (k : INPUT_KEY_INFO) (w : World),
    IsAltPressed k || IsCtrlPressed k = true ->
    0 <= SEARCH_STRING_LENGTH ->
    let pScreenInfo := CurrentScreenBuffer (gci w) in
    let stored := _srSelectionRect (sel w) in
    let clipped := ClipToScreenBuffer pScreenInfo stored in
    let fFind := IsShiftPressed k && IsAreaSelected w
                 && (Top stored =? Bottom stored) in
    let w' := snd (_HandleColorSelection k w) in
    host w' = ClearSelection (mkHost (gci w) (set_rect clipped (sel w)))
    /\ (fFind = true ->
        exists (cLength ulAttr : Z),
          trace w' = trace w
                     ++ [Call_ClearSelection;
                         Call_SearchForString
                           (copy_chars (GetRowByOffset (TextInfo pScreenInfo)
                                                       (Top clipped))
                                       (Left clipped) cLength)
                           (cLength mod 65536) ulAttr]
          /\ 0 <= cLength <= SEARCH_STRING_LENGTH
          /\ Z.of_nat (length (copy_chars (GetRowByOffset (TextInfo pScreenInfo)
                                                          (Top clipped))
                                          (Left clipped) cLength)) = cLength
          /\ (0 <= Right clipped - Left clipped + 1 < 4294967296 ->
              cLength = Z.min (Right clipped - Left clipped + 1)
                              SEARCH_STRING_LENGTH))
    /\ (fFind = false ->
        exists ulAttr : Z,
          trace w' = trace w ++ [Call_ColorSelection clipped ulAttr;
                                 Call_ClearSelection]).
Proof.
  intros k w Hmod Hmax pScreenInfo stored clipped fFind w'.
  assert (Hshift :
    (if IsShiftPressed k
        && (negb (IsAreaSelected w) || negb (Top stored =? Bottom stored))
     then false else IsShiftPressed k) = fFind).
  { unfold fFind.
    destruct (IsShiftPressed k), (IsAreaSelected w), (Top stored =? Bottom stored);
      reflexivity. }
  assert (Hgo : IsAltPressed k
                || (if negb (IsAltPressed k) then IsCtrlPressed k else false) = true).
  { destruct (IsAltPressed k), (IsCtrlPressed k); simpl in *; congruence. }
  unfold w', _HandleColorSelection. fold stored. rewrite Hshift.
  fold pScreenInfo. fold clipped. rewrite Hgo.
  cbn [on_sel sel host _srSelectionRect set_rect].
  set (c := to_ulong (Right clipped - Left clipped + 1)).
  set (cLength := if c >? SEARCH_STRING_LENGTH then SEARCH_STRING_LENGTH else c).
  assert (Hc : 0 <= c < 4294967296) by (apply Z.mod_pos_bound; lia).
  assert (Hlen : 0 <= cLength <= SEARCH_STRING_LENGTH).
  { unfold cLength. destruct (c >? SEARCH_STRING_LENGTH) eqn:E; zbool; lia. }
  destruct fFind; cbn [snd].
  - split; [reflexivity|]. split; [|discriminate]. intros _.
    eexists cLength, _. split.
    { cbn [trace call emit host]. rewrite <- app_assoc. reflexivity. }
    split; [exact Hlen|]. split.
    { unfold copy_chars. rewrite length_map, length_seq. lia. }
    intros Hwide. unfold cLength, c, to_ulong.
    rewrite Z.mod_small by lia.
    destruct (Right clipped - Left clipped + 1 >? SEARCH_STRING_LENGTH) eqn:E;
      zbool; lia.
  - split; [reflexivity|]. split; [discriminate|]. intros _.
    eexists. cbn [trace call emit host]. rewrite <- app_assoc. reflexivity.
Qed.

Lemma second_block_never_copies (k : INPUT_KEY_INFO) (w w' : World)
    (r : KeySelectionEventResult) :
  second_block k w = Some (r, w') -> r <> CopyToClipboard.
Proof.
  unfold second_block.
  destruct (IsMouseInitiatedSelection w); cbn [negb].
  - destruct (IsMouseButtonDown w); cbn [negb].
    + intros H. inversion H. discriminate.
    + destruct (IsLineSelection w).
      * destruct (HandleKeyboardLineSelectionEvent k w) as [[[|] w2]|];
          try discriminate.
        -- intros H. inversion H. discriminate.
        -- break_if; intros H; inversion H; discriminate.
      * break_if; intros H; inversion H; discriminate.
  - destruct (_HandleMarkModeSelectionNav k w) as [[|] w2];
      intros H; inversion H; discriminate.
Qed.

(** X14. With no mouse button down the dispatcher always returns for
    Escape and for the copy keys, in every selection mode: on Escape it
    clears the selection and answers EventHandled; on Enter, Ctrl+C or
    Ctrl+Insert it answers CopyToClipboard and leaves the selection state as
    it was. It answers CopyToClipboard in no other case: not while a mouse
    button is down, not for Escape, and not for any other key. *)
Theorem copy_to_clipboard_iff :
  forall (k : INPUT_KEY_INFO) (w : World),
    (IsMouseButtonDown w = false ->
     GetVirtualKey k = VK_ESCAPE ->
     HandleKeySelectionEvent k w
     = Some (EventHandled, call Call_ClearSelection ClearSelection w))
    /\ (IsMouseButtonDown w = false ->
        GetVirtualKey k <> VK_ESCAPE ->
        is_copy_key (GetVirtualKey k) = true ->
        HandleKeySelectionEvent k w
        = Some (CopyToClipboard, emit Call_SetKeyboardTextEditingUsed w)
        /\ host (emit Call_SetKeyboardTextEditingUsed w) = host w)
    /\ (forall w' : World,
          HandleKeySelectionEvent k w = Some (CopyToClipboard, w') ->
          IsMouseButtonDown w = false
          /\ GetVirtualKey k <> VK_ESCAPE
          /\ is_copy_key (GetVirtualKey k) = true).
Proof.
  intros k w. split; [|split].
  - intros Hdown Hesc. unfold HandleKeySelectionEvent, first_block.
    rewrite Hdown. cbn [negb]. rewrite Hesc. reflexivity.
  - intros Hdown Hesc Hcopy. unfold HandleKeySelectionEvent, first_block.
    rewrite Hdown. cbn [negb].
    apply Z.eqb_neq in Hesc. rewrite Hesc, Hcopy. split; reflexivity.
  - intros w'. unfold HandleKeySelectionEvent, first_block.
    destruct (IsMouseButtonDown w); cbn [negb].
    { intros H. apply second_block_never_copies in H. congruence. }
    destruct (GetVirtualKey k =? VK_ESCAPE) eqn:Eesc; [discriminate|].
    zbool. destruct (is_copy_key (GetVirtualKey k)) eqn:Ecopy.
    { intros _. repeat split; assumption. }
    assert (Hno : forall x, second_block k x = Some (CopyToClipboard, w') ->
              false = false /\ GetVirtualKey k <> VK_ESCAPE /\ false = true).
    { intros x Hx. apply second_block_never_copies in Hx. congruence. }
    destruct (GetEnableColorSelection (gci w)
              && (chr_0 <=? GetVirtualKey k) && (chr_9 >=? GetVirtualKey k));
      [|apply Hno].
    destruct (_HandleColorSelection k w) as [[|] w2]; [discriminate | apply Hno].
Qed.

(** X15. Keys that the dispatcher lets pass without touching anything.
    While a mouse button is down in a mouse-initiated selection every key,
    Escape included, is EventNotHandled and the state stays as it is. Once
    the first block has fallen through: in a keyboard (mark-mode) selection
    a key that is not a movement key is EventNotHandled and nothing changes;
    and in a mouse-initiated selection with no button down, a system key
    that the line-selection extender did not handle is EventNotHandled and
    does not cancel the selection. *)
Theorem keys_that_change_nothing :
  (forall (k : INPUT_KEY_INFO) (w : World),
      IsMouseButtonDown w = true ->
      IsMouseInitiatedSelection w = true ->
      HandleKeySelectionEvent k w = Some (EventNotHandled, w))
  /\ (forall (k : INPUT_KEY_INFO) (w w1 : World),
        first_block k w = inr w1 ->
        IsMouseInitiatedSelection w1 = false ->
        is_mark_mode_key (GetVirtualKey k) = false ->
        HandleKeySelectionEvent k w = Some (EventNotHandled, w1))
  /\ (forall (k : INPUT_KEY_INFO) (w w1 : World),
        first_block k w = inr w1 ->
        IsMouseInitiatedSelection w1 = true ->
        IsMouseButtonDown w1 = false ->
        (IsLineSelection w1 = true -> s_IsValidKeyboardLineSelection k = false) ->
        IsSystemKey (GetVirtualKey k) = true ->
        HandleKeySelectionEvent k w = Some (EventNotHandled, w1)).
Proof.
  split; [|split].
  - intros k w Hdown Hmouse.
    unfold HandleKeySelectionEvent, first_block.
    rewrite Hdown. cbn [negb].
    unfold second_block. rewrite Hdown, Hmouse. reflexivity.
  - intros k w w1 Hfirst Hmouse Hkey.
    unfold HandleKeySelectionEvent. rewrite Hfirst.
    unfold second_block, _HandleMarkModeSelectionNav. rewrite Hmouse, Hkey. reflexivity.
  - intros k w w1 Hfirst Hmouse Hdown Hline Hsys.
    unfold HandleKeySelectionEvent. rewrite Hfirst.
    unfold second_block. rewrite Hmouse, Hdown, Hsys. cbn [negb].
    destruct (IsLineSelection w1); [|reflexivity].
    unfold HandleKeyboardLineSelectionEvent. rewrite (Hline eq_refl). reflexivity.
Qed.

End DispatchExtras.

Lemma find_and_color_string_witness :
  exists ulAttr : Z,
    trace (snd (@_HandleColorSelection sample_decls sample_methods
                  (mkKey 51 true false true) row_selection_world))
    = [Call_ClearSelection;
       Call_SearchForString
         (copy_chars (GetRowByOffset (TextInfo (CurrentScreenBuffer color_console)) 0)
                     0 9)
         9 ulAttr].
Proof.
  destruct (@find_and_color_string sample_decls sample_methods
              (mkKey 51 true false true) row_selection_world)
    as (_ & Hfind & _).
  - reflexivity.
  - simpl. lia.
  - destruct (Hfind eq_refl) as (cLength & ulAttr & Htrace & _ & _ & Hwide).
    assert (Hc : cLength = 9).
    { rewrite Hwide; [reflexivity | simpl; lia]. }
    rewrite Hc in Htrace. exists ulAttr. exact Htrace.
Defined.

Lemma copy_to_clipboard_iff_witness :
  @HandleKeySelectionEvent (keys_down []) sample_decls sample_methods
     (plain_key VK_RETURN) mouse_world
  = Some (CopyToClipboard, emit Call_SetKeyboardTextEditingUsed mouse_world).
Proof.
  destruct (@copy_to_clipboard_iff (keys_down []) sample_decls sample_methods
              (plain_key VK_RETURN) mouse_world) as (_ & Hcopy & _).
  destruct Hcopy as [Hres _].
  - reflexivity.
  - vm_compute. discriminate.
  - reflexivity.
  - exact Hres.
Defined.

(** ** The mark-mode cursor movement: what it leaves alone *)

Section MarkModeFrame.

Context {decls : HostDecls} {methods : SelectionMethods}.

(** X16. The cursor movement of the mark-mode navigator calls no
    collaborator and leaves the selection and the has-moved flag of the
    cursor as they are. Up, Down, PageUp and PageDown keep the column; Left,
    Right, and Home and End without Ctrl, keep the row. Ctrl+Home puts the
    cursor at (0, 0). Ctrl+End puts it in the last column; without an edit
    line and outside a keyboard-mark selection in progress it keeps the row,
    and during a keyboard-mark selection without an edit line it goes to the
    row of the saved cursor position. *)
Theorem mark_mode_move_rows_and_columns :
  forall (k : INPUT_KEY_INFO) (w : World),
    let vk := GetVirtualKey k in
    let cursorPos := GetPosition (cursor_of (gci w)) in
    let size := GetScreenBufferSize (CurrentScreenBuffer (gci w)) in
    let w' := mark_mode_move k w in
    let cursorPos' := GetPosition (cursor_of (gci w')) in
    trace w' = trace w
    /\ sel w' = sel w
    /\ HasMoved (cursor_of (gci w')) = HasMoved (cursor_of (gci w))
    /\ (vk = VK_UP \/ vk = VK_DOWN \/ vk = VK_NEXT \/ vk = VK_PRIOR ->
        X cursorPos' = X cursorPos)
    /\ (vk = VK_LEFT \/ vk = VK_RIGHT
        \/ ((vk = VK_HOME \/ vk = VK_END) /\ IsCtrlPressed k = false) ->
        Y cursorPos' = Y cursorPos)
    /\ (vk = VK_HOME -> IsCtrlPressed k = true -> cursorPos' = mkCOORD 0 0)
    /\ (vk = VK_END -> IsCtrlPressed k = true ->
        X cursorPos' = X size - 1
        /\ (lpCookedReadData (gci w) = None ->
            Y cursorPos'
            = if IsInSelectingState
                   (on_cursor (SetXPosition (X size - 1)) w)
                 && IsKeyboardMarkSelection
                      (on_cursor (SetXPosition (X size - 1)) w)
              then Y (_coordSavedCursorPosition (sel w))
              else Y cursorPos)).
Proof.
  intros k w vk pos size w' pos'.
  assert (Hframe : trace w' = trace w /\ sel w' = sel w
                   /\ HasMoved (cursor_of (gci w')) = HasMoved (cursor_of (gci w))).
  { unfold w', mark_mode_move. cbv zeta.
    repeat break_if; repeat split; reflexivity. }
  destruct Hframe as (Ht & Hs & Hm).
  split; [exact Ht|]. split; [exact Hs|]. split; [exact Hm|].
  unfold pos', w', mark_mode_move. cbv zeta. fold vk. fold pos. fold size.
  split; [|split; [|split]].
  - intros [E | [E | [E | E]]]; rewrite E; vm_compute (_ =? _);
      cbv iota; repeat break_if; cursor_simpl; reflexivity.
  - intros [E | [E | [[E | E] Hctrl]]]; rewrite E; vm_compute (_ =? _);
      cbv iota; try rewrite Hctrl; repeat break_if; cursor_simpl; reflexivity.
  - intros E Hctrl. rewrite E. vm_compute (_ =? _). cbv iota. rewrite Hctrl.
    cursor_simpl. reflexivity.
  - intros E Hctrl. rewrite E. vm_compute (_ =? _). cbv iota. rewrite Hctrl.
    set (w1 := on_cursor (SetXPosition (X size - 1)) w).
    rewrite cursor_on_cursor. unfold SetYPosition. cbn [GetPosition X Y].
    assert (Hw1 : GetPosition (cursor_of (gci w1)) = mkCOORD (X size - 1) (Y pos)).
    { unfold w1. rewrite cursor_on_cursor. reflexivity. }
    split; [rewrite Hw1; reflexivity|].
    intros Hnone. unfold GetValidAreaBoundaries, s_GetInputLineBoundaries.
    change (lpCookedReadData (gci w1)) with (lpCookedReadData (gci w)).
    rewrite Hnone. cbn [snd].
    change (sel w1) with (sel w).
    break_if; [reflexivity|]. rewrite Hw1. reflexivity.
Qed.

(** X17. The vertical mark-mode moves in closed form, for a cursor inside
    a buffer of SHORT coordinates and a window height from 1 to 32767: Up
    and Down move one row and stop at the first and the last row; PageUp
    moves one row less than the window height and stops at the first row;
    PageDown moves one row less than the window height and stops at the last
    row as long as the sum fits in a SHORT. When the sum exceeds 32767 the
    row wraps around, the test against the buffer height does not catch it,
    and the cursor is left on a negative row. *)
Theorem mark_mode_vertical_moves :
  forall (k : INPUT_KEY_INFO) (w : World),
    let vk := GetVirtualKey k in
    let e := s_GetCurrentBufferEdges (gci w) in
    let cursorPos := GetPosition (cursor_of (gci w)) in
    let sWindowHeight := GetScreenWindowSizeY (CurrentScreenBuffer (gci w)) in
    let y' := Y (GetPosition (cursor_of (gci (mark_mode_move k w)))) in
    in_edges e cursorPos ->
    Bottom e <= 32767 ->
    1 <= sWindowHeight <= 32767 ->
    (vk = VK_UP -> y' = Z.max (Top e) (Y cursorPos - 1))
    /\ (vk = VK_DOWN -> y' = Z.min (Bottom e) (Y cursorPos + 1))
    /\ (vk = VK_PRIOR -> y' = Z.max (Top e) (Y cursorPos - (sWindowHeight - 1)))
    /\ (vk = VK_NEXT -> Y cursorPos + (sWindowHeight - 1) <= 32767 ->
        y' = Z.min (Bottom e) (Y cursorPos + (sWindowHeight - 1)))
    /\ (vk = VK_NEXT -> 32767 < Y cursorPos + (sWindowHeight - 1) ->
        y' = Y cursorPos + (sWindowHeight - 1) - 65536 /\ y' < Top e).
Proof.
  intros k w vk e pos h y' [_ Hy] Hbottom Hwin.
  assert (HT : Top e = 0) by reflexivity.
  assert (HB : Bottom e
               = Y (GetScreenBufferSize (CurrentScreenBuffer (gci w))) - 1)
    by reflexivity.
  unfold y', mark_mode_move. cbv zeta. fold vk. fold pos. fold h.
  rewrite HT, HB. rewrite HT, HB in Hy. rewrite HB in Hbottom.
  split; [|split; [|split; [|split]]]; intros E; rewrite E; vm_compute (_ =? _);
    cbv iota.
  - destruct (Y pos >? 0) eqn:C; zbool; cursor_simpl; fold pos;
      rewrite ?to_short_small by lia; lia.
  - destruct (Y pos + 1 <? _) eqn:C; zbool; cursor_simpl; fold pos;
      rewrite ?to_short_small by lia; lia.
  - cursor_simpl. fold pos. fold h. rewrite to_short_small by lia.
    destruct (Y pos - (h - 1) <? 0) eqn:C; zbool; cursor_simpl; fold pos; fold h;
      rewrite ?to_short_small by lia; lia.
  - intros Hfit. cursor_simpl. fold pos. fold h. rewrite to_short_small by lia.
    destruct (Y pos + (h - 1) >=? _) eqn:C; zbool; cursor_simpl; fold pos; fold h;
      rewrite ?to_short_small by lia; lia.
  - intros Hover. cursor_simpl. fold pos. fold h.
    assert (Hwrap : to_short (Y pos + (h - 1)) = Y pos + (h - 1) - 65536).
    { unfold to_short.
      replace (Y pos + (h - 1) + 32768)
        with (Y pos + (h - 1) - 32768 + 1 * 65536) by lia.
      rewrite Z.mod_add by lia. rewrite Z.mod_small; lia. }
    rewrite Hwrap.
    destruct (Y pos + (h - 1) - 65536 >=? _) eqn:C; zbool; [lia|].
    cursor_simpl. fold pos. fold h. rewrite Hwrap. lia.
Qed.

End MarkModeFrame.

Lemma mark_mode_vertical_moves_witness :
  Y (GetPosition (cursor_of (gci
       (@mark_mode_move sample_decls sample_methods
          (plain_key VK_NEXT) (mark_world false))))) = 79
  /\ Y (GetPosition (cursor_of (gci
          (@mark_mode_move sample_decls sample_methods
             (plain_key VK_NEXT) deep_world)))) = -32757.
Proof.
  split.
  - destruct (@mark_mode_vertical_moves sample_decls sample_methods
                (plain_key VK_NEXT) (mark_world false))
      as (_ & _ & _ & Hnext & _).
    + unfold in_edges. simpl. lia.
    + simpl. lia.
    + simpl. unfold s_csWindowHeight. lia.
    + rewrite (Hnext eq_refl); [reflexivity|].
      simpl. unfold s_csWindowHeight. lia.
  - destruct (@mark_mode_vertical_moves sample_decls sample_methods
                (plain_key VK_NEXT) deep_world)
      as (_ & _ & _ & _ & Hover).
    + unfold in_edges. simpl. lia.
    + simpl. lia.
    + simpl. unfold s_csWindowHeight. lia.
    + destruct (Hover eq_refl) as [Hres _];
        [simpl; unfold s_csWindowHeight; lia|].
      rewrite Hres. reflexivity.
Defined.
